(** * Hydrant: batch accumulator, connection pool and configuration

    A shallow embedding of the C sources of the Hydrant ingestion
    pipeline ([include/hydrant.h], [include/hydrant_types.h],
    [src/batch.c], [src/connection.c], [src/init.c], [src/log.c],
    [src/worker.c]) together with the properties of its
    natural-language specification and further properties of the
    code.

    Conventions of the embedding.
    - [size_t] is the 64-bit unsigned type of an LP64 target: a [Z] in
      [0, 2^64) whose arithmetic is reduced with [wrap_size_t].
    - [int] and [time_t] are signed; signed overflow is undefined in C
      and the counters stay far from it, so they are unbounded [Z].
    - [double] is IEEE-754 binary64: the kernel's primitive [float].
    - a [PoolConnection *] is the index of the slot in [ctx->pool];
      a [PGconn *] is its address, [0] being the null pointer.
    - the mutexes and the condition variable are not represented: each
      function is one atomic step of the calling thread, and what the
      other threads do while [get_connection] sleeps on the condition
      variable is an input of the model.
    - libpq, libc and the clock are the environment: their answers are
      read from the records [Libpq] and [Host] and from [now].
    - [structured_log] appends a record to the standard-error stream,
      carried next to the context in [Sys]. *)

From Stdlib Require Import ZArith String Ascii List Bool Lia Floats.
From stdpp Require Import base list.
Import ListNotations.

Open Scope Z_scope.

(** ** Machine integers *)

Definition SIZE_WIDTH : Z := 64.
Definition SIZE_MAX : Z := 2 ^ SIZE_WIDTH - 1.
Definition PTRDIFF_MAX : Z := 2 ^ (SIZE_WIDTH - 1) - 1.
Definition LONG_MAX : Z := 2 ^ 63 - 1.
Definition LONG_MIN : Z := - 2 ^ 63.

(** The value a [size_t] object holds after being assigned [z]. *)
Definition wrap_size_t (z : Z) : Z := z mod 2 ^ SIZE_WIDTH.

(** Conversion of an integer to [double] (round to nearest even). *)
Definition double_of_Z (z : Z) : float :=
  SF2Prim (binary_normalize prec emax z 0 false).

(** ** Constants of [hydrant.h] *)

Definition MAX_RECOVERY_ATTEMPTS : Z := 3.
Definition CONNECTION_DEAD_THRESHOLD : Z := 5.
Definition MAX_BACKOFF_ATTEMPTS : Z := 10.
Definition MAX_POOL_SIZE : nat := 10.
Definition RECOVERY_BACKOFF_BASE_MS : Z := 100.
Definition MAX_ERROR_LENGTH : Z := 1 * 1024.
Definition MAX_STATUS_LENGTH : Z := 4 * 1024.
Definition COPY_CHUNK_SIZE : Z := 8 * 1024.
Definition MIN_BATCH_SIZE : Z := 64 * 1024.
Definition DEFAULT_BATCH_SIZE : Z := 1 * 1024 * 1024.
Definition MAX_BATCH_SIZE : Z := 10 * 1024 * 1024.

(** ** Types of [hydrant_types.h] *)

Inductive ConnectionState : Set :=
| CONN_AVAILABLE
| CONN_IN_USE
| CONN_DEAD
| CONN_PERMANENT_FAILURE.

Definition ConnectionState_eqb (a b : ConnectionState) : bool :=
  match a, b with
  | CONN_AVAILABLE, CONN_AVAILABLE
  | CONN_IN_USE, CONN_IN_USE
  | CONN_DEAD, CONN_DEAD
  | CONN_PERMANENT_FAILURE, CONN_PERMANENT_FAILURE => true
  | _, _ => false
  end.

(** Address of a libpq connection object; [NULL] is [0]. *)
Definition PGconn : Set := Z.
Definition NULL : PGconn := 0.

Record PoolConnection : Set := mkPoolConnection {
  conn : PGconn;
  state : ConnectionState;
  last_used : Z;
  failed_attempts : Z;
  recovery_attempts : Z;
  next_recovery_attempt : Z;
  last_error : string
}.

Record BatchStats : Set := mkBatchStats {
  processed : Z;
  failed : Z;
  timestamp : Z
}.

Record HydrantConfig : Set := mkHydrantConfig {
  db_conn_string : option string;
  batch_size : Z;
  max_retries : Z;
  retry_delay_ms : Z;
  require_ssl : bool
}.

(** The anonymous [stats] structure of the context. *)
Record Stats : Set := mkStats {
  total_bytes : Z;
  batches_processed : Z;
  copy_operations : Z;
  errors : Z;
  connection_resets : Z;
  connection_failures : Z;
  avg_batch_time_ms : float;
  start_time : Z;
  last_batch : Z
}.

(** [HydrantContext]. The worker array is kept as the number of
    running workers; [source_id] is never used by the sources. *)
Record HydrantContext : Set := mkHydrantContext {
  config : HydrantConfig;
  shutdown_requested : bool;
  pool : list PoolConnection;
  healthy_connections : Z;
  batch_buffer : list Byte.byte;
  current_batch_pos : Z;
  batch_stats : list BatchStats;
  batch_stats_size : Z;
  current_batch : Z;
  worker_count : Z;
  stats : Stats
}.

(** *** Field updates *)

Definition set_state (s : ConnectionState) (pc : PoolConnection) : PoolConnection :=
  mkPoolConnection (conn pc) s (last_used pc) (failed_attempts pc)
    (recovery_attempts pc) (next_recovery_attempt pc) (last_error pc).

Definition set_conn (c : PGconn) (pc : PoolConnection) : PoolConnection :=
  mkPoolConnection c (state pc) (last_used pc) (failed_attempts pc)
    (recovery_attempts pc) (next_recovery_attempt pc) (last_error pc).

Definition set_last_used (t : Z) (pc : PoolConnection) : PoolConnection :=
  mkPoolConnection (conn pc) (state pc) t (failed_attempts pc)
    (recovery_attempts pc) (next_recovery_attempt pc) (last_error pc).

Definition set_failed_attempts (n : Z) (pc : PoolConnection) : PoolConnection :=
  mkPoolConnection (conn pc) (state pc) (last_used pc) n
    (recovery_attempts pc) (next_recovery_attempt pc) (last_error pc).

Definition set_recovery_attempts (n : Z) (pc : PoolConnection) : PoolConnection :=
  mkPoolConnection (conn pc) (state pc) (last_used pc) (failed_attempts pc)
    n (next_recovery_attempt pc) (last_error pc).

Definition set_next_recovery_attempt (t : Z) (pc : PoolConnection) : PoolConnection :=
  mkPoolConnection (conn pc) (state pc) (last_used pc) (failed_attempts pc)
    (recovery_attempts pc) t (last_error pc).

Definition set_last_error (e : string) (pc : PoolConnection) : PoolConnection :=
  mkPoolConnection (conn pc) (state pc) (last_used pc) (failed_attempts pc)
    (recovery_attempts pc) (next_recovery_attempt pc) e.

Definition set_batch_size (n : Z) (c : HydrantConfig) : HydrantConfig :=
  mkHydrantConfig (db_conn_string c) n (max_retries c) (retry_delay_ms c)
    (require_ssl c).

Definition set_db_conn_string (s : option string) (c : HydrantConfig) : HydrantConfig :=
  mkHydrantConfig s (batch_size c) (max_retries c) (retry_delay_ms c)
    (require_ssl c).

Definition set_total_bytes (n : Z) (s : Stats) : Stats :=
  mkStats n (batches_processed s) (copy_operations s) (errors s)
    (connection_resets s) (connection_failures s) (avg_batch_time_ms s)
    (start_time s) (last_batch s).

Definition set_batches_processed (n : Z) (s : Stats) : Stats :=
  mkStats (total_bytes s) n (copy_operations s) (errors s)
    (connection_resets s) (connection_failures s) (avg_batch_time_ms s)
    (start_time s) (last_batch s).

Definition set_errors (n : Z) (s : Stats) : Stats :=
  mkStats (total_bytes s) (batches_processed s) (copy_operations s) n
    (connection_resets s) (connection_failures s) (avg_batch_time_ms s)
    (start_time s) (last_batch s).

Definition set_connection_resets (n : Z) (s : Stats) : Stats :=
  mkStats (total_bytes s) (batches_processed s) (copy_operations s) (errors s)
    n (connection_failures s) (avg_batch_time_ms s)
    (start_time s) (last_batch s).

Definition set_connection_failures (n : Z) (s : Stats) : Stats :=
  mkStats (total_bytes s) (batches_processed s) (copy_operations s) (errors s)
    (connection_resets s) n (avg_batch_time_ms s)
    (start_time s) (last_batch s).

Definition set_avg_batch_time_ms (x : float) (s : Stats) : Stats :=
  mkStats (total_bytes s) (batches_processed s) (copy_operations s) (errors s)
    (connection_resets s) (connection_failures s) x
    (start_time s) (last_batch s).

Definition set_start_time (t : Z) (s : Stats) : Stats :=
  mkStats (total_bytes s) (batches_processed s) (copy_operations s) (errors s)
    (connection_resets s) (connection_failures s) (avg_batch_time_ms s)
    t (last_batch s).

Definition set_last_batch (t : Z) (s : Stats) : Stats :=
  mkStats (total_bytes s) (batches_processed s) (copy_operations s) (errors s)
    (connection_resets s) (connection_failures s) (avg_batch_time_ms s)
    (start_time s) t.

Definition set_config (c : HydrantConfig) (x : HydrantContext) : HydrantContext :=
  mkHydrantContext c (shutdown_requested x) (pool x) (healthy_connections x)
    (batch_buffer x) (current_batch_pos x) (batch_stats x)
    (batch_stats_size x) (current_batch x) (worker_count x) (stats x).

Definition set_shutdown_requested (b : bool) (x : HydrantContext) : HydrantContext :=
  mkHydrantContext (config x) b (pool x) (healthy_connections x)
    (batch_buffer x) (current_batch_pos x) (batch_stats x)
    (batch_stats_size x) (current_batch x) (worker_count x) (stats x).

Definition set_pool (p : list PoolConnection) (x : HydrantContext) : HydrantContext :=
  mkHydrantContext (config x) (shutdown_requested x) p (healthy_connections x)
    (batch_buffer x) (current_batch_pos x) (batch_stats x)
    (batch_stats_size x) (current_batch x) (worker_count x) (stats x).

Definition set_healthy_connections (n : Z) (x : HydrantContext) : HydrantContext :=
  mkHydrantContext (config x) (shutdown_requested x) (pool x) n
    (batch_buffer x) (current_batch_pos x) (batch_stats x)
    (batch_stats_size x) (current_batch x) (worker_count x) (stats x).

Definition set_batch_buffer (b : list Byte.byte) (x : HydrantContext) : HydrantContext :=
  mkHydrantContext (config x) (shutdown_requested x) (pool x)
    (healthy_connections x) b (current_batch_pos x) (batch_stats x)
    (batch_stats_size x) (current_batch x) (worker_count x) (stats x).

Definition set_current_batch_pos (n : Z) (x : HydrantContext) : HydrantContext :=
  mkHydrantContext (config x) (shutdown_requested x) (pool x)
    (healthy_connections x) (batch_buffer x) n (batch_stats x)
    (batch_stats_size x) (current_batch x) (worker_count x) (stats x).

Definition set_batch_stats (r : list BatchStats) (x : HydrantContext) : HydrantContext :=
  mkHydrantContext (config x) (shutdown_requested x) (pool x)
    (healthy_connections x) (batch_buffer x) (current_batch_pos x) r
    (batch_stats_size x) (current_batch x) (worker_count x) (stats x).

Definition set_batch_stats_size (n : Z) (x : HydrantContext) : HydrantContext :=
  mkHydrantContext (config x) (shutdown_requested x) (pool x)
    (healthy_connections x) (batch_buffer x) (current_batch_pos x)
    (batch_stats x) n (current_batch x) (worker_count x) (stats x).

Definition set_current_batch (n : Z) (x : HydrantContext) : HydrantContext :=
  mkHydrantContext (config x) (shutdown_requested x) (pool x)
    (healthy_connections x) (batch_buffer x) (current_batch_pos x)
    (batch_stats x) (batch_stats_size x) n (worker_count x) (stats x).

Definition set_worker_count (n : Z) (x : HydrantContext) : HydrantContext :=
  mkHydrantContext (config x) (shutdown_requested x) (pool x)
    (healthy_connections x) (batch_buffer x) (current_batch_pos x)
    (batch_stats x) (batch_stats_size x) (current_batch x) n (stats x).

Definition set_stats (s : Stats) (x : HydrantContext) : HydrantContext :=
  mkHydrantContext (config x) (shutdown_requested x) (pool x)
    (healthy_connections x) (batch_buffer x) (current_batch_pos x)
    (batch_stats x) (batch_stats_size x) (current_batch x) (worker_count x) s.

(** ** The environment *)

(** libpq as seen by the pipeline. [PQconnectdb i] is the connection
    object obtained when slot [i] is (re)connected; [PQstatus c] tells
    whether [PQstatus(c) == CONNECTION_OK]; [PQprepare c] whether
    preparing [copy_stmt] on [c] gives [PGRES_COMMAND_OK]; [PQexec c q]
    whether the command [q] gives [PGRES_COMMAND_OK]; [PQexecPrepared c]
    whether starting the copy gives [PGRES_COPY_IN]; [PQputCopyData k]
    is the value returned by the [k]-th call of a flush (1 written,
    0 would block, -1 error); [PQputCopyEnd c] the value returned when
    the copy is closed. *)
Record Libpq : Type := mkLibpq {
  PQconnectdb : nat -> PGconn;
  PQstatus : PGconn -> bool;
  PQsslInUse : PGconn -> bool;
  PQerrorMessage : PGconn -> string;
  PQprepare : PGconn -> bool;
  PQexec : PGconn -> string -> bool;
  PQexecPrepared : PGconn -> bool;
  PQputCopyData : nat -> Z;
  PQputCopyEnd : PGconn -> Z
}.

(** ** Standard error and the state of the process *)

(** The fields of the JSON object built by [get_detailed_status]. *)
Record DetailedStatus : Set := mkDetailedStatus {
  uptime_seconds : Z;
  status_total_bytes : Z;
  status_batches_processed : Z;
  status_errors : Z;
  status_avg_batch_time_ms : float;
  status_available : Z;
  status_in_use : Z;
  status_dead : Z;
  status_resets : Z;
  status_failures : Z;
  current_batch_size : Z
}.

Inductive log_arg : Set :=
| LogZ (z : Z)
| LogS (s : string)
| LogStatus (d : DetailedStatus).

(** One call of [structured_log]: the level, the format string and the
    variadic arguments. The rendering of the JSON line (time stamp,
    escaping, thread identity) is that of [log.c] and is not needed
    here. *)
Record LogRecord : Set := mkLogRecord {
  log_level : string;
  log_format : string;
  log_args : list log_arg
}.

Record Sys : Set := mkSys {
  sys_ctx : HydrantContext;
  sys_stderr : list LogRecord
}.

(** State monad over [Sys]. *)
Definition M (A : Type) : Type := Sys -> A * Sys.

Definition ret {A : Type} (a : A) : M A := fun s => (a, s).

Definition bind {A B : Type} (c : M A) (k : A -> M B) : M B :=
  fun s => let (a, s') := c s in k a s'.

Declare Scope hydrant_scope.
Delimit Scope hydrant_scope with hydrant.
Notation "x <- c1 ;; c2" := (bind c1 (fun x => c2))
  (at level 100, c1 at next level, right associativity) : hydrant_scope.
Notation "c1 ;; c2" := (bind c1 (fun _ => c2))
  (at level 100, right associativity) : hydrant_scope.
Open Scope hydrant_scope.

Definition get_ctx : M HydrantContext := fun s => (sys_ctx s, s).

Definition modify_ctx (f : HydrantContext -> HydrantContext) : M unit :=
  fun s => (tt, mkSys (f (sys_ctx s)) (sys_stderr s)).

Definition modify_stats (f : Stats -> Stats) : M unit :=
  modify_ctx (fun x => set_stats (f (stats x)) x).

(** Assignment through a [PoolConnection *]: [pc->field = ...]. *)
Definition modify_slot (i : nat) (f : PoolConnection -> PoolConnection) : M unit :=
  modify_ctx (fun x => set_pool (alter f i (pool x)) x).

Definition when (b : bool) (c : M unit) : M unit := if b then c else ret tt.

Definition structured_log (level format : string) (args : list log_arg) : M unit :=
  fun s => (tt, mkSys (sys_ctx s) (sys_stderr s ++ [mkLogRecord level format args])).

(** [snprintf(dest, size, "%s", s)]: at most [size - 1] characters. *)
Definition snprintf (size : Z) (s : string) : string :=
  String.substring 0 (Z.to_nat (size - 1)) s.

(** ** [src/connection.c] *)

Definition find_pool_connection (ctx : HydrantContext) (c : PGconn) : option nat :=
  List.find (fun i => match pool ctx !! i with
                      | Some pc => conn pc =? c
                      | None => false
                      end)
            (seq 0 MAX_POOL_SIZE).

Definition is_dead (s : ConnectionState) : bool :=
  match s with
  | CONN_DEAD | CONN_PERMANENT_FAILURE => true
  | _ => false
  end.

(** [pc] is the slot of index [i]; the body does nothing when [i] is
    outside the pool (a pointer the callers never form). *)
Definition mark_connection_dead (i : nat) (error : string) : M unit :=
  ctx <- get_ctx ;;
  match pool ctx !! i with
  | None => ret tt
  | Some pc =>
      when (negb (ConnectionState_eqb (state pc) CONN_DEAD)
            && negb (ConnectionState_eqb (state pc) CONN_PERMANENT_FAILURE))
        (modify_ctx (fun x =>
           set_healthy_connections (wrap_size_t (healthy_connections x - 1)) x) ;;
         modify_slot i (set_state CONN_DEAD) ;;
         modify_slot i (set_last_error (snprintf MAX_ERROR_LENGTH error)) ;;
         structured_log "WARN" "Connection marked dead: %s" [LogS error])
  end.

(** The backoff added to [now], in seconds, after the [n]-th failure. *)
Definition recovery_backoff (n : Z) : Z :=
  Z.quot (Z.shiftl RECOVERY_BACKOFF_BASE_MS
            (if n <? MAX_BACKOFF_ATTEMPTS then n else MAX_BACKOFF_ATTEMPTS))
         1000.

Section Connection.

Variable pq : Libpq.
(** The value of [time(NULL)] during the call. *)
Variable now : Z.

Definition recover_dead_connection (i : nat) : M bool :=
  ctx <- get_ctx ;;
  match pool ctx !! i with
  | None => ret false
  | Some pc =>
      if now <? next_recovery_attempt pc then ret false
      else if recovery_attempts pc >=? MAX_RECOVERY_ATTEMPTS then
        when (negb (ConnectionState_eqb (state pc) CONN_PERMANENT_FAILURE))
          (structured_log "ERROR"
             "Connection permanently failed after %d recovery attempts. Last error: %s"
             [LogZ (recovery_attempts pc); LogS (last_error pc)] ;;
           modify_slot i (set_state CONN_PERMANENT_FAILURE)) ;;
        ret false
      else
        structured_log "INFO" "Attempting to recover connection (attempt %d/%d)"
          [LogZ (recovery_attempts pc + 1); LogZ MAX_RECOVERY_ATTEMPTS] ;;
        let c := PQconnectdb pq i in
        modify_slot i (set_conn c) ;;
        if negb (PQstatus pq c) then
          modify_slot i (set_recovery_attempts (recovery_attempts pc + 1)) ;;
          modify_slot i (set_last_error
            (snprintf MAX_ERROR_LENGTH
               (String.append "Recovery failed: " (PQerrorMessage pq c)))) ;;
          modify_slot i (set_next_recovery_attempt
            (now + recovery_backoff (recovery_attempts pc + 1))) ;;
          modify_stats (fun s =>
            set_connection_failures (wrap_size_t (connection_failures s + 1)) s) ;;
          ret false
        else if require_ssl (config ctx) && negb (PQsslInUse pq c) then
          modify_slot i (set_last_error
            (snprintf MAX_ERROR_LENGTH "Recovery failed: SSL required but not in use")) ;;
          modify_slot i (set_recovery_attempts (recovery_attempts pc + 1)) ;;
          ret false
        else if negb (PQprepare pq c) then
          modify_slot i (set_last_error
            (snprintf MAX_ERROR_LENGTH
               (String.append "Failed to prepare statement: " (PQerrorMessage pq c)))) ;;
          modify_slot i (set_recovery_attempts (recovery_attempts pc + 1)) ;;
          ret false
        else
          modify_slot i (set_failed_attempts 0) ;;
          modify_slot i (set_recovery_attempts 0) ;;
          modify_slot i (set_next_recovery_attempt 0) ;;
          modify_slot i (set_state CONN_AVAILABLE) ;;
          modify_stats (fun s =>
            set_connection_resets (wrap_size_t (connection_resets s + 1)) s) ;;
          modify_ctx (fun x =>
            set_healthy_connections (wrap_size_t (healthy_connections x + 1)) x) ;;
          structured_log "INFO" "Successfully recovered connection" [] ;;
          ret true
  end.

Definition return_connection (c : PGconn) (had_error : bool) : M unit :=
  ctx <- get_ctx ;;
  match find_pool_connection ctx c with
  | None => ret tt
  | Some i =>
      match pool ctx !! i with
      | None => ret tt
      | Some pc =>
          if had_error then
            modify_slot i (set_failed_attempts (failed_attempts pc + 1)) ;;
            let e := snprintf MAX_ERROR_LENGTH (PQerrorMessage pq c) in
            modify_slot i (set_last_error e) ;;
            if failed_attempts pc + 1 >=? CONNECTION_DEAD_THRESHOLD then
              mark_connection_dead i e
            else
              modify_slot i (set_state CONN_AVAILABLE)
          else
            modify_slot i (set_state CONN_AVAILABLE) ;;
            modify_slot i (set_failed_attempts 0)
      end
  end.

(** The scan of [get_connection] for an available slot whose
    connection is still good, over the slot indices [idx]. *)
Fixpoint scan_available (idx : list nat) : M (option PGconn) :=
  match idx with
  | [] => ret None
  | i :: rest =>
      ctx <- get_ctx ;;
      match pool ctx !! i with
      | Some pc =>
          if ConnectionState_eqb (state pc) CONN_AVAILABLE && PQstatus pq (conn pc)
          then
            modify_slot i (set_state CONN_IN_USE) ;;
            modify_slot i (set_last_used now) ;;
            ret (Some (conn pc))
          else scan_available rest
      | None => scan_available rest
      end
  end.

(** The second pass: recovery of the dead slots. *)
Fixpoint scan_dead (idx : list nat) : M (option PGconn) :=
  match idx with
  | [] => ret None
  | i :: rest =>
      ctx <- get_ctx ;;
      match pool ctx !! i with
      | Some pc =>
          if ConnectionState_eqb (state pc) CONN_DEAD then
            ok <- recover_dead_connection i ;;
            if ok then
              modify_slot i (set_state CONN_IN_USE) ;;
              modify_slot i (set_last_used now) ;;
              ctx' <- get_ctx ;;
              ret (match pool ctx' !! i with
                   | Some pc' => Some (conn pc')
                   | None => None
                   end)
            else scan_dead rest
          else scan_dead rest
      | None => scan_dead rest
      end
  end.

(** What another thread does to the pool while the caller sleeps on
    [pool_cond]: the connections it gives back. *)
Definition release : Set := (PGconn * bool)%type.

Fixpoint run_releases (rs : list release) : M unit :=
  match rs with
  | [] => ret tt
  | (c, had_error) :: rest => return_connection c had_error ;; run_releases rest
  end.

(** The loop on [pthread_cond_timedwait]. Each element of [wakes] is a
    return of the wait before the deadline, with the releases that
    happened meanwhile; when [wakes] is used up the wait returns
    [ETIMEDOUT]. The deadline is absolute and is computed once, before
    the loop, so the number of wake-ups is finite. *)
Fixpoint wait_loop (wakes : list (list release)) : M (option PGconn) :=
  match wakes with
  | [] => ret None
  | rs :: rest =>
      run_releases rs ;;
      r <- scan_available (seq 0 MAX_POOL_SIZE) ;;
      match r with
      | Some c => ret (Some c)
      | None => wait_loop rest
      end
  end.

(** [None] is the null pointer. *)
Definition get_connection (wakes : list (list release)) : M (option PGconn) :=
  r <- scan_available (seq 0 MAX_POOL_SIZE) ;;
  match r with
  | Some c => ret (Some c)
  | None =>
      r <- scan_dead (seq 0 MAX_POOL_SIZE) ;;
      match r with
      | Some c => ret (Some c)
      | None => wait_loop wakes
      end
  end.

End Connection.

(** ** [src/batch.c] *)

(** [memcpy(dest + off, src, n)] on the buffer [dest]. *)
Definition memcpy (dest : list Byte.byte) (off : Z) (src : list Byte.byte) (n : Z)
  : list Byte.byte :=
  let chunk := take (Z.to_nat n) src in
  take (Z.to_nat off) dest ++ chunk ++ drop (Z.to_nat off + length chunk) dest.

Definition add_to_batch (data : list Byte.byte) (size : Z) : M bool :=
  ctx <- get_ctx ;;
  if wrap_size_t (current_batch_pos ctx + size) >? batch_size (config ctx) then
    ret false
  else
    modify_ctx (fun x =>
      set_batch_buffer (memcpy (batch_buffer x) (current_batch_pos x) data size) x) ;;
    modify_ctx (fun x =>
      set_current_batch_pos (wrap_size_t (current_batch_pos x + size)) x) ;;
    ret true.

(** [ring[idx].timestamp]; outside the allocated ring the read yields
    whatever the neighbouring memory holds, [stray]. *)
Definition ring_timestamp (ring : list BatchStats) (idx stray : Z) : Z :=
  if (0 <=? idx) && (idx <? Z.of_nat (length ring)) then
    match ring !! Z.to_nat idx with
    | Some r => timestamp r
    | None => stray
    end
  else stray.

(** [ring[idx] = r], nothing being stored outside the allocated ring. *)
Definition ring_store (ring : list BatchStats) (idx : Z) (r : BatchStats)
  : list BatchStats :=
  if (0 <=? idx) && (idx <? Z.of_nat (length ring)) then <[Z.to_nat idx := r]> ring
  else ring.

Section Batch.

Variable pq : Libpq.
Variable now : Z.

(** [mark_connection_dead(ctx, find_pool_connection(ctx, conn), error)];
    [conn] was handed out by the pool, so its slot is found. *)
Definition mark_conn_dead (c : PGconn) (error : string) : M unit :=
  ctx <- get_ctx ;;
  match find_pool_connection ctx c with
  | Some i => mark_connection_dead i error
  | None => ret tt
  end.

Definition max_retries_copy : Z := 5.

(** The chunked write of [flush_batch]: one unfolding per iteration of
    the [while] loop, [k] counting the calls of [PQputCopyData]. The
    result is [total_written] and [success]; [None] when [fuel]
    iterations were not enough. The sleep between two attempts leaves
    the state unchanged. *)
Fixpoint copy_loop (fuel : nat) (c : PGconn) (k : nat)
    (total_written retry_count : Z) : M (option (Z * bool)) :=
  match fuel with
  | O => ret None
  | S fuel' =>
      ctx <- get_ctx ;;
      if total_written <? current_batch_pos ctx then
        let remaining := current_batch_pos ctx - total_written in
        let chunk_size :=
          if remaining >? COPY_CHUNK_SIZE then COPY_CHUNK_SIZE else remaining in
        let result := PQputCopyData pq k in
        if result =? 1 then
          let total_written' := wrap_size_t (total_written + chunk_size) in
          when (total_written' mod (1024 * 1024) =? 0)
            (structured_log "DEBUG" "COPY progress: %zu/%zu bytes"
               [LogZ total_written'; LogZ (current_batch_pos ctx)]) ;;
          copy_loop fuel' c (S k) total_written' 0
        else if result =? 0 then
          let retry_count' := wrap_size_t (retry_count + 1) in
          if retry_count' >? max_retries_copy then
            let error := "Max retries exceeded waiting for buffer space"%string in
            structured_log "ERROR" "%s" [LogS error] ;;
            mark_conn_dead c error ;;
            ret (Some (total_written, false))
          else
            copy_loop fuel' c (S k) total_written retry_count'
        else
          let error := PQerrorMessage pq c in
          structured_log "ERROR" "Failed to write batch data: %s" [LogS error] ;;
          mark_conn_dead c error ;;
          ret (Some (total_written, false))
      else ret (Some (total_written, true))
  end.

(** Iterations that always suffice for a buffer of [pos] bytes: six
    per chunk (five tolerated back-pressure answers and the write),
    the last chunk being partial, and the final test of the loop. *)
Definition copy_fuel (pos : Z) : nat :=
  Z.to_nat (6 * (pos / COPY_CHUNK_SIZE + 2) + 1).

(** [flush_batch(ctx, &processed, &failed)]. [processed0] and
    [failed0] are the values the two output objects hold on entry; the
    result carries the returned flag and the values they hold on
    return. [wakes] is passed to [get_connection]. *)
Definition flush_batch (wakes : list (list release)) (processed0 failed0 : Z)
  : M (option (bool * Z * Z)) :=
  ctx <- get_ctx ;;
  if current_batch_pos ctx =? 0 then ret (Some (true, processed0, failed0))
  else
    oc <- get_connection pq now wakes ;;
    match oc with
    | None =>
        structured_log "ERROR" "No connection available for batch flush" [] ;;
        ret (Some (false, processed0, failed0))
    | Some c =>
        if negb (PQexec pq c "BEGIN") then
          let error := PQerrorMessage pq c in
          structured_log "ERROR" "Failed to begin transaction: %s" [LogS error] ;;
          mark_conn_dead c error ;;
          ret (Some (false, 0, 0))
        else if negb (PQexecPrepared pq c) then
          let error := PQerrorMessage pq c in
          structured_log "ERROR" "Failed to start COPY: %s" [LogS error] ;;
          mark_conn_dead c error ;;
          ret (Some (false, 0, 0))
        else
          r <- copy_loop (copy_fuel (current_batch_pos ctx)) c 0 0 0 ;;
          match r with
          | None => ret None
          | Some (total_written, written) =>
              success <-
                (if written then
                   if negb (PQputCopyEnd pq c =? 1) then
                     structured_log "ERROR" "Failed to end COPY: %s"
                       [LogS (PQerrorMessage pq c)] ;;
                     ret false
                   else if negb (PQexec pq c "COMMIT") then
                     structured_log "ERROR" "Failed to commit transaction: %s"
                       [LogS (PQerrorMessage pq c)] ;;
                     ret false
                   else ret true
                 else ret false) ;;
              ctx1 <- get_ctx ;;
              let failed1 :=
                if negb success
                then wrap_size_t (current_batch_pos ctx1 - total_written)
                else 0 in
              modify_stats (fun s =>
                set_batches_processed (wrap_size_t (batches_processed s + 1)) s) ;;
              modify_stats (fun s =>
                set_total_bytes (wrap_size_t (total_bytes s + total_written)) s) ;;
              when (failed1 >? 0)
                (modify_stats (fun s => set_errors (wrap_size_t (errors s + 1)) s)) ;;
              return_connection pq c (negb success) ;;
              modify_ctx (set_current_batch_pos 0) ;;
              ret (Some (success, total_written, failed1))
          end
    end.

(** [update_batch_stats(ctx, processed, failed)]. The value returned
    is the list of ring indices whose time stamp the call reads;
    [stray] is what a read outside the ring finds. *)
Definition update_batch_stats (processed failed : Z) (stray : Z) : M (list Z) :=
  modify_ctx (fun x =>
    set_batch_stats
      (ring_store (batch_stats x) (current_batch x)
         (mkBatchStats processed failed now)) x) ;;
  modify_stats (fun s => set_total_bytes (wrap_size_t (total_bytes s + processed)) s) ;;
  modify_stats (fun s =>
    set_batches_processed (wrap_size_t (batches_processed s + 1)) s) ;;
  modify_stats (fun s => set_errors (wrap_size_t (errors s + failed)) s) ;;
  ctx <- get_ctx ;;
  reads <-
    (if batches_processed (stats ctx) >? 1 then
       let cur := current_batch ctx in
       let prev := wrap_size_t (current_batch ctx - 1) in
       let batch_time :=
         ring_timestamp (batch_stats ctx) cur stray
         - ring_timestamp (batch_stats ctx) prev stray in
       modify_stats (fun s =>
         set_avg_batch_time_ms
           (PrimFloat.div
              (PrimFloat.add
                 (PrimFloat.mul (avg_batch_time_ms s)
                    (double_of_Z (wrap_size_t (batches_processed s - 1))))
                 (PrimFloat.mul (double_of_Z batch_time) (double_of_Z 1000)))
              (double_of_Z (batches_processed s))) s) ;;
       ret [cur; prev]
     else ret []) ;;
  modify_ctx (fun x =>
    set_current_batch (wrap_size_t (current_batch x + 1) mod batch_stats_size x) x) ;;
  ret reads.

(** The flush of [process_input] and of [main]:
    [size_t processed = 0, failed = 0; flush_batch(ctx, &processed,
    &failed); update_batch_stats(ctx, processed, failed);]. *)
Definition flush_and_update (wakes : list (list release)) (stray : Z)
  : M (option bool) :=
  r <- flush_batch wakes 0 0 ;;
  match r with
  | None => ret None
  | Some (ok, processed, failed) =>
      update_batch_stats processed failed stray ;;
      ret (Some ok)
  end.

End Batch.

(** ** [src/init.c] *)

(** The C library and the operating system during initialisation:
    the process environment and the outcome of each allocation, file
    and thread operation. *)
Record Host : Type := mkHost {
  getenv : string -> option string;
  ctx_alloc_ok : bool;
  config_alloc_ok : bool;
  fopen_ok : bool;
  yaml_parser_initialize_ok : bool;
  yaml_parser_load_ok : bool;
  yaml_root_is_mapping : bool;
  sync_init_ok : bool;
  batch_buffer_alloc_ok : bool;
  batch_stats_alloc_ok : bool;
  workers_alloc_ok : bool;
  pthread_create_ok : nat -> bool;
  status_alloc_ok : bool;
  strerror_errno : string;
  yaml_problem : string
}.

(** *** [atol] *)

Definition isspace (c : ascii) : bool :=
  let n := N.of_nat (nat_of_ascii c) in
  ((n =? 32) || ((9 <=? n) && (n <=? 13)))%N.

Definition digit_value (c : ascii) : option Z :=
  let n := Z.of_nat (nat_of_ascii c) in
  if (48 <=? n) && (n <=? 57) then Some (n - 48) else None.

Fixpoint skip_spaces (s : string) : string :=
  match s with
  | String c r => if isspace c then skip_spaces r else s
  | EmptyString => s
  end.

Fixpoint read_digits (s : string) (acc : Z) : Z :=
  match s with
  | String c r =>
      match digit_value c with
      | Some d => read_digits r (acc * 10 + d)
      | None => acc
      end
  | EmptyString => acc
  end.

(** [atol]: leading white space, an optional sign, decimal digits up to
    the first other character; a value outside [long] is clamped as
    [strtol] does. *)
Definition atol (s : string) : Z :=
  let v :=
    match skip_spaces s with
    | String "-"%char r => - read_digits r 0
    | String "+"%char r => read_digits r 0
    | r => read_digits r 0
    end in
  Z.max LONG_MIN (Z.min LONG_MAX v).

(** *** The context returned by [calloc] *)

Definition zero_slot : PoolConnection :=
  mkPoolConnection NULL CONN_AVAILABLE 0 0 0 0 "".

Definition zero_stats : Stats := mkStats 0 0 0 0 0 0 0%float 0 0.

Definition zero_config : HydrantConfig := mkHydrantConfig None 0 0 0 false.

Definition zero_context : HydrantContext :=
  mkHydrantContext zero_config false (replicate MAX_POOL_SIZE zero_slot) 0
    [] 0 [] 0 0 0 zero_stats.

Section Init.

Variable host : Host.
Variable pq : Libpq.
Variable now : Z.

Definition load_config (config_path : option string) : M (option HydrantConfig) :=
  if negb (config_alloc_ok host) then ret None
  else
    let config := mkHydrantConfig None DEFAULT_BATCH_SIZE 3 100 true in
    match config_path with
    | None =>
        let config :=
          match getenv host "HYDRANT_BATCH_SIZE" with
          | Some batch_size =>
              let size := wrap_size_t (atol batch_size) in
              if (size >=? MIN_BATCH_SIZE) && (size <=? MAX_BATCH_SIZE)
              then set_batch_size size config
              else config
          | None => config
          end in
        match getenv host "HYDRANT_DB_URL" with
        | Some conn_string => ret (Some (set_db_conn_string (Some conn_string) config))
        | None =>
            structured_log "ERROR" "No database connection string provided" [] ;;
            ret None
        end
    | Some _ =>
        if negb (fopen_ok host) then
          structured_log "ERROR" "Failed to open config file: %s"
            [LogS (strerror_errno host)] ;;
          ret None
        else if negb (yaml_parser_initialize_ok host) then
          structured_log "ERROR" "Failed to initialize YAML parser" [] ;;
          ret None
        else if negb (yaml_parser_load_ok host) then
          structured_log "ERROR" "Failed to parse YAML: %s" [LogS (yaml_problem host)] ;;
          ret None
        else if negb (yaml_root_is_mapping host) then
          structured_log "ERROR" "Invalid YAML structure" [] ;;
          ret None
        else ret (Some config)
    end.

Definition count_state (p : ConnectionState -> bool) (ctx : HydrantContext) : Z :=
  Z.of_nat (length (List.filter (fun pc => p (state pc)) (take MAX_POOL_SIZE (pool ctx)))).

(** [None] when the buffer for the status text cannot be allocated. *)
Definition get_detailed_status (ctx : HydrantContext) : option DetailedStatus :=
  if negb (status_alloc_ok host) then None
  else
    Some (mkDetailedStatus
            (now - start_time (stats ctx))
            (total_bytes (stats ctx))
            (batches_processed (stats ctx))
            (errors (stats ctx))
            (avg_batch_time_ms (stats ctx))
            (count_state (fun s => ConnectionState_eqb s CONN_AVAILABLE) ctx)
            (count_state (fun s => ConnectionState_eqb s CONN_IN_USE) ctx)
            (count_state is_dead ctx)
            (connection_resets (stats ctx))
            (connection_failures (stats ctx))
            (current_batch_pos ctx)).

(** The workers are joined; what they print while stopping belongs to
    their own threads. *)
Definition stop_workers : M unit :=
  modify_ctx (set_shutdown_requested true) ;;
  modify_ctx (set_worker_count 0).

Definition cleanup_hydrant : M unit :=
  ctx <- get_ctx ;;
  match get_detailed_status ctx with
  | Some d => structured_log "INFO" "Final hydrant status: %s" [LogStatus d]
  | None => ret tt
  end ;;
  stop_workers ;;
  modify_ctx (fun x => set_pool (map (set_conn NULL) (pool x)) x).

Fixpoint create_workers (idx : list nat) : M bool :=
  match idx with
  | [] => ret true
  | i :: rest =>
      if pthread_create_ok host i then create_workers rest
      else
        structured_log "ERROR" "Failed to create worker thread %zu: %s"
          [LogZ (Z.of_nat i); LogS (strerror_errno host)] ;;
        ret false
  end.

Definition start_workers (num_workers : nat) : M bool :=
  if negb (workers_alloc_ok host) then
    structured_log "ERROR" "Failed to allocate worker array: %s"
      [LogS (strerror_errno host)] ;;
    ret false
  else
    modify_ctx (set_worker_count (Z.of_nat num_workers)) ;;
    create_workers (seq 0 num_workers).

(** The clamp of the batch size in [init_hydrant]. *)
Definition clamp_batch_size : M unit :=
  ctx <- get_ctx ;;
  when (batch_size (config ctx) <? MIN_BATCH_SIZE)
    (structured_log "WARN" "Batch size %zu below minimum, using %d"
       [LogZ (batch_size (config ctx)); LogZ MIN_BATCH_SIZE] ;;
     modify_ctx (fun x => set_config (set_batch_size MIN_BATCH_SIZE (config x)) x)) ;;
  ctx <- get_ctx ;;
  when (batch_size (config ctx) >? MAX_BATCH_SIZE)
    (structured_log "WARN" "Batch size %zu above maximum, using %d"
       [LogZ (batch_size (config ctx)); LogZ MAX_BATCH_SIZE] ;;
     modify_ctx (fun x => set_config (set_batch_size MAX_BATCH_SIZE (config x)) x)).

(** The first steps of [init_hydrant]: the configuration is loaded
    into the context and its batch size clamped; false when
    [load_config] returned the null pointer. *)
Definition init_config (config_path : option string) : M bool :=
  cfg <- load_config config_path ;;
  match cfg with
  | None =>
      structured_log "ERROR" "Failed to load configuration" [] ;;
      ret false
  | Some cfg =>
      modify_ctx (set_config cfg) ;;
      clamp_batch_size ;;
      ret true
  end.

(** One iteration of the loop that opens the pool. *)
Definition init_slot (i : nat) : M unit :=
  ctx <- get_ctx ;;
  let c := PQconnectdb pq i in
  modify_slot i (set_conn c) ;;
  (if negb (PQstatus pq c) then
     structured_log "ERROR" "Failed to connect to DB: %s" [LogS (PQerrorMessage pq c)] ;;
     modify_slot i (set_state CONN_DEAD) ;;
     modify_slot i (set_last_error (snprintf MAX_ERROR_LENGTH (PQerrorMessage pq c)))
   else if require_ssl (config ctx) && negb (PQsslInUse pq c) then
     structured_log "ERROR" "SSL required but not in use for connection %d"
       [LogZ (Z.of_nat i)] ;;
     modify_slot i (set_state CONN_DEAD)
   else if negb (PQprepare pq c) then
     structured_log "ERROR" "Failed to prepare statement: %s"
       [LogS (PQerrorMessage pq c)] ;;
     modify_slot i (set_state CONN_DEAD)
   else
     modify_slot i (set_state CONN_AVAILABLE) ;;
     modify_ctx (fun x =>
       set_healthy_connections (wrap_size_t (healthy_connections x + 1)) x)) ;;
  modify_slot i (set_failed_attempts 0) ;;
  modify_slot i (set_recovery_attempts 0) ;;
  modify_slot i (set_last_used 0) ;;
  modify_slot i (set_next_recovery_attempt 0).

Fixpoint init_pool (idx : list nat) : M unit :=
  match idx with
  | [] => ret tt
  | i :: rest => init_slot i ;; init_pool rest
  end.

(** [init_hydrant(config_path)]: the context, or [None] for the null
    pointer. The state it starts from is irrelevant: the context is a
    fresh zeroed allocation. *)
Definition init_hydrant (config_path : option string) : M (option HydrantContext) :=
  if negb (ctx_alloc_ok host) then
    structured_log "ERROR" "Failed to allocate context: %s" [LogS (strerror_errno host)] ;;
    ret None
  else
    modify_ctx (fun _ => zero_context) ;;
    configured <- init_config config_path ;;
    if negb configured then ret None
    else if negb (sync_init_ok host) then
      structured_log "ERROR" "Failed to initialize mutex/cond: %s"
        [LogS (strerror_errno host)] ;;
      cleanup_hydrant ;;
      ret None
    else
      modify_ctx (set_healthy_connections 0) ;;
      init_pool (seq 0 MAX_POOL_SIZE) ;;
      ctx <- get_ctx ;;
      if healthy_connections ctx =? 0 then
        structured_log "ERROR" "No healthy connections available" [] ;;
        cleanup_hydrant ;;
        ret None
      else if negb (batch_buffer_alloc_ok host) then
        structured_log "ERROR" "Failed to allocate batch buffer: %s"
          [LogS (strerror_errno host)] ;;
        cleanup_hydrant ;;
        ret None
      else
        modify_ctx (fun x =>
          set_batch_buffer
            (replicate (Z.to_nat (batch_size (config x))) Byte.x00) x) ;;
        modify_ctx (set_batch_stats_size 1000) ;;
        if negb (batch_stats_alloc_ok host) then
          structured_log "ERROR" "Failed to allocate batch stats: %s"
            [LogS (strerror_errno host)] ;;
          cleanup_hydrant ;;
          ret None
        else
          modify_ctx (set_batch_stats (replicate 1000%nat (mkBatchStats 0 0 0))) ;;
          modify_stats (set_start_time now) ;;
          modify_stats (fun s => set_last_batch (start_time s) s) ;;
          started <- start_workers 2 ;;
          if negb started then
            structured_log "ERROR" "Failed to start workers" [] ;;
            cleanup_hydrant ;;
            ret None
          else
            ctx <- get_ctx ;;
            structured_log "INFO"
              "Hydrant initialized successfully with %zu healthy connections"
              [LogZ (healthy_connections ctx)] ;;
            ret (Some ctx).

(** [request_shutdown(ctx)]; [None] only if the flush ran out of fuel,
    which [flush_batch_returns] excludes. *)
Definition request_shutdown (wakes : list (list release)) : M (option unit) :=
  structured_log "INFO" "Shutdown requested" [] ;;
  modify_ctx (set_shutdown_requested true) ;;
  stop_workers ;;
  ctx <- get_ctx ;;
  flushed <-
    (if current_batch_pos ctx >? 0 then
       r <- flush_batch pq now wakes 0 0 ;;
       match r with
       | None => ret None
       | Some (ok, _, failed) =>
           when (negb ok)
             (structured_log "ERROR" "Failed to flush final batch: %zu bytes lost"
                [LogZ failed]) ;;
           ret (Some tt)
       end
     else ret (Some tt)) ;;
  cleanup_hydrant ;;
  ret flushed.

End Init.

(** ** [src/log.c] *)

Definition char_code (c : ascii) : Z := Z.of_nat (nat_of_ascii c).

(** One lower-case hexadecimal digit, as [%x] prints it. *)
Definition hex_digit (n : Z) : ascii :=
  if n <? 10 then ascii_of_nat (Z.to_nat (48 + n))
  else ascii_of_nat (Z.to_nat (87 + n)).

(** [snprintf(dest + di, 7, "\\u%04x", c)] for a character below 32. *)
Definition unicode_escape (c : ascii) : string :=
  String "\" (String "u" (String "0" (String "0"
    (String (hex_digit (char_code c / 16))
       (String (hex_digit (char_code c mod 16)) EmptyString))))).

(** The loop of [json_escape], from the character of [src] at hand and
    the write index [di]; the result is what [dest] holds before its
    terminating zero. *)
Fixpoint json_escape_from (src : string) (di dest_size : Z) : string :=
  match src with
  | EmptyString => EmptyString
  | String c rest =>
      if (char_code c =? 0) || negb (di <? wrap_size_t (dest_size - 1)) then
        EmptyString
      else if char_code c =? 34 then
        if wrap_size_t (di + 2) >=? dest_size then EmptyString
        else String "\" (String c (json_escape_from rest (di + 2) dest_size))
      else if char_code c =? 92 then
        if wrap_size_t (di + 2) >=? dest_size then EmptyString
        else String "\" (String "\" (json_escape_from rest (di + 2) dest_size))
      else if char_code c =? 10 then
        if wrap_size_t (di + 2) >=? dest_size then EmptyString
        else String "\" (String "n" (json_escape_from rest (di + 2) dest_size))
      else if char_code c =? 13 then
        if wrap_size_t (di + 2) >=? dest_size then EmptyString
        else String "\" (String "r" (json_escape_from rest (di + 2) dest_size))
      else if char_code c =? 9 then
        if wrap_size_t (di + 2) >=? dest_size then EmptyString
        else String "\" (String "t" (json_escape_from rest (di + 2) dest_size))
      else if char_code c <? 32 then
        if wrap_size_t (di + 6) >=? dest_size then EmptyString
        else String.append (unicode_escape c)
               (json_escape_from rest (di + 6) dest_size)
      else String c (json_escape_from rest (di + 1) dest_size)
  end.

Definition json_escape (src : string) (dest_size : Z) : string :=
  json_escape_from src 0 dest_size.

(** The [message] field that [structured_log] prints for the formatted
    text [message]: cut to the size of its buffer by [vsnprintf], then
    escaped into a buffer twice as large. *)
Definition escaped_message (message : string) : string :=
  json_escape (snprintf MAX_ERROR_LENGTH message) (MAX_ERROR_LENGTH * 2).

(** ** [src/worker.c] *)

(** The body of the loop of [worker_thread], run at time [now]. *)
Definition worker_iteration (now : Z) : M unit :=
  ctx <- get_ctx ;;
  when (now - last_batch (stats ctx) >? 60)
    (structured_log "INFO" "Worker status: processed %zu batches, %zu errors"
       [LogZ (batches_processed (stats ctx)); LogZ (errors (stats ctx))] ;;
     modify_stats (set_last_batch now)) ;;
  ctx <- get_ctx ;;
  let available := count_state (fun s => ConnectionState_eqb s CONN_AVAILABLE) ctx in
  let dead := count_state is_dead ctx in
  when ((dead >? 0) && (available <? Z.quot (Z.of_nat MAX_POOL_SIZE) 2))
    (structured_log "WARN" "Pool health degraded: %zu dead, %zu available"
       [LogZ dead; LogZ available]).

(** ** [process_input] of [src/batch.c] *)


Section ProcessInput.

Variable host : Host.
Variable pq : Libpq.
Variable now : Z.
Variable wakes : list (list release).
Variable stray : Z.



End ProcessInput.

(** ** The pool invariant *)

(** Number of slots whose state is neither [CONN_DEAD] nor
    [CONN_PERMANENT_FAILURE]. *)
Definition healthy_slots (ctx : HydrantContext) : Z :=
  count_state (fun s => negb (is_dead s)) ctx.

Definition pool_invariant (ctx : HydrantContext) : Prop :=
  healthy_connections ctx = healthy_slots ctx.

(** ** Concrete environments used by the examples *)

Definition getenv_of (vars : list (string * string)) (name : string) : option string :=
  match List.find (fun kv => String.eqb (fst kv) name) vars with
  | Some kv => Some (snd kv)
  | None => None
  end.

(** A host on which every allocation, file and thread operation
    succeeds, with the given process environment. *)
Definition host_with (vars : list (string * string)) : Host :=
  mkHost (getenv_of vars) true true true true true true true true true true
    (fun _ => true) true "" "".

(** A database that accepts everything; slot [i] gets the connection
    object at address [1000 + i]. *)
Definition pq_good : Libpq :=
  mkLibpq (fun i => 1000 + Z.of_nat i) (fun _ => true) (fun _ => true)
    (fun _ => ""%string) (fun _ => true) (fun _ _ => true) (fun _ => true)
    (fun _ => 1) (fun _ => 1).

(** The same database answering [puts k] to the [k]-th call of
    [PQputCopyData]. *)
Definition pq_puts (puts : nat -> Z) : Libpq :=
  mkLibpq (PQconnectdb pq_good) (PQstatus pq_good) (PQsslInUse pq_good)
    (fun _ => "write failed"%string) (PQprepare pq_good) (PQexec pq_good)
    (PQexecPrepared pq_good) puts (PQputCopyEnd pq_good).

(** A database that is unreachable. *)
Definition pq_down : Libpq :=
  mkLibpq (fun i => 2000 + Z.of_nat i) (fun _ => false) (fun _ => false)
    (fun _ => "connection refused"%string) (fun _ => false) (fun _ _ => false)
    (fun _ => false) (fun _ => -1) (fun _ => -1).

(** A database on which [BEGIN] fails. *)
Definition pq_no_begin : Libpq :=
  mkLibpq (PQconnectdb pq_good) (PQstatus pq_good) (PQsslInUse pq_good)
    (fun _ => "cannot begin"%string) (PQprepare pq_good)
    (fun _ q => negb (String.eqb q "BEGIN")) (PQexecPrepared pq_good)
    (PQputCopyData pq_good) (PQputCopyEnd pq_good).

(** The environment of a process started with [HYDRANT_BATCH_SIZE] set
    to [v]. *)
Definition host_batch_size (v : string) : Host :=
  host_with [("HYDRANT_DB_URL", "postgres://db"); ("HYDRANT_BATCH_SIZE", v)]%string.

(** The state of a process that has not run [init_hydrant] yet. *)
Definition sys0 : Sys := mkSys zero_context [].

(** The process right after a successful [init_hydrant] at time 100,
    with the smallest batch capacity. *)
Definition booted : Sys :=
  snd (init_hydrant (host_batch_size "65536") pq_good 100 None sys0).

(** A database that answers but without a secure session. *)
Definition pq_no_ssl : Libpq :=
  mkLibpq (fun i => 3000 + Z.of_nat i) (fun _ => true) (fun _ => false)
    (fun _ => ""%string) (fun _ => true) (fun _ _ => true) (fun _ => true)
    (fun _ => 1) (fun _ => 1).

(** A database on which [copy_stmt] cannot be prepared. *)
Definition pq_no_prepare : Libpq :=
  mkLibpq (fun i => 4000 + Z.of_nat i) (fun _ => true) (fun _ => true)
    (fun _ => "no such table"%string) (fun _ => false) (fun _ _ => true)
    (fun _ => true) (fun _ => 1) (fun _ => 1).

(** [booted] with ten bytes in the batch buffer. *)
Definition loaded : Sys :=
  snd (add_to_batch (replicate 10 Byte.x01) 10 booted).

(** [booted] with slot 0 marked dead. *)
Definition dead0 : Sys := snd (mark_connection_dead 0 "boom" booted).

(** The 65526 bytes that fill the buffer of [loaded]. *)
Definition filler : list Byte.byte := replicate (Z.to_nat 65526) Byte.x02.

Definition slot (i : nat) (s : Sys) : option PoolConnection := pool (sys_ctx s) !! i.

Definition sys_stats (s : Sys) : Stats := stats (sys_ctx s).

(** The record logged by [mark_connection_dead]. *)
Definition dead_warning (error : string) : LogRecord :=
  mkLogRecord "WARN" "Connection marked dead: %s" [LogS error].

(** The state [s] with the shutdown flag set to [b]. *)
Definition with_shutdown (b : bool) (s : Sys) : Sys :=
  mkSys (set_shutdown_requested b (sys_ctx s)) (sys_stderr s).

(** A computation that never reads the shutdown flag: run with the
    flag changed, it gives the same result and the same state but for
    the flag. *)
Definition shutdown_blind {A : Type} (c : M A) : Prop :=
  forall (b : bool) (s : Sys),
    c (with_shutdown b s) = (fst (c s), with_shutdown b (snd (c s))).

(** A slot that [get_connection] passes over at time [now]: it is not
    an available slot with a good connection, and if it is dead its
    next recovery attempt is not due yet. *)
Definition passed_over (pq : Libpq) (now : Z) (pc : PoolConnection) : bool :=
  negb (ConnectionState_eqb (state pc) CONN_AVAILABLE && PQstatus pq (conn pc))
  && (negb (ConnectionState_eqb (state pc) CONN_DEAD)
      || (now <? next_recovery_attempt pc)).

(** [booted] after ten acquisitions: every slot is in use. *)
Definition exhausted : Sys :=
  Nat.iter 10 (fun s => snd (get_connection pq_good 200 [] s)) booted.

(** What the pool functions leave alone: the configuration, the batch
    side of the context and the three batch counters. *)
Definition batch_view (ctx : HydrantContext)
  : HydrantConfig * list Byte.byte * Z * list BatchStats * Z * Z * (Z * Z * Z) :=
  (config ctx, batch_buffer ctx, current_batch_pos ctx, batch_stats ctx,
   batch_stats_size ctx, current_batch ctx,
   (total_bytes (stats ctx), batches_processed (stats ctx), errors (stats ctx))).

Definition keeps_batch {A : Type} (c : M A) : Prop :=
  forall s : Sys, batch_view (sys_ctx (snd (c s))) = batch_view (sys_ctx s).

(** The contribution of a slot to the number of healthy slots. *)
Definition healthy_bit (pc : PoolConnection) : Z :=
  if is_dead (state pc) then 0 else 1.

(** What the [switch] of [json_escape] writes for one character. *)
Definition escape_char (c : ascii) : string :=
  if char_code c =? 34 then String "\" (String c EmptyString)
  else if char_code c =? 92 then String "\" (String "\" EmptyString)
  else if char_code c =? 10 then String "\" (String "n" EmptyString)
  else if char_code c =? 13 then String "\" (String "r" EmptyString)
  else if char_code c =? 9 then String "\" (String "t" EmptyString)
  else if char_code c <? 32 then unicode_escape c
  else String c EmptyString.

(** The escape of a whole C string (up to its terminating zero), with
    no bound on the room. *)
Fixpoint escape_all (src : string) : string :=
  match src with
  | EmptyString => EmptyString
  | String c rest =>
      if char_code c =? 0 then EmptyString
      else String.append (escape_char c) (escape_all rest)
  end.

Definition len (s : string) : Z := Z.of_nat (String.length s).

Fixpoint string_all (p : ascii -> bool) (s : string) : bool :=
  match s with
  | EmptyString => true
  | String c rest => p c && string_all p rest
  end.

(** A character that the log may hold raw: not a control character. *)
Definition printable (c : ascii) : bool := 32 <=? char_code c.

(** A character whose escape takes at most two characters. *)
Definition short_escape (c : ascii) : bool :=
  printable c || (char_code c =? 10) || (char_code c =? 13) || (char_code c =? 9).

(** The text [ok] followed by a line feed. *)
Definition sample_text : string :=
  String "o" (String "k" (String (ascii_of_nat 10) EmptyString)).

(** [calls] successive calls of [update_batch_stats], each with its
    time, its two counts and what a stray read would find. *)
Definition update_batch_stats_all (calls : list (Z * Z * Z * Z)) (s : Sys) : Sys :=
  fold_left
    (fun s call =>
       match call with
       | (now, processed, failed, stray) =>
           snd (update_batch_stats now processed failed stray s)
       end)
    calls s.

(** A small context for the examples: a batch buffer of 8 bytes, a
    ring of 4 records and the pool of [booted]. *)
Definition small : Sys :=
  mkSys
    (mkHydrantContext (mkHydrantConfig (Some "postgres://db"%string) 8 3 100 true)
       false (pool (sys_ctx booted)) 10 (replicate 8 Byte.x00) 0
       (replicate 4 (mkBatchStats 0 0 0)) 4 0 2 zero_stats)
    [].


(** [small] with three bytes in the batch buffer. *)
Definition small_loaded : Sys :=
  snd (add_to_batch [Byte.x01; Byte.x02; Byte.x03] 3 small).

(** The records that [recover_dead_connection] logs. *)
Definition recovery_attempt_log (pc : PoolConnection) : LogRecord :=
  mkLogRecord "INFO" "Attempting to recover connection (attempt %d/%d)"
    [LogZ (recovery_attempts pc + 1); LogZ MAX_RECOVERY_ATTEMPTS].

Definition permanent_failure_log (pc : PoolConnection) : LogRecord :=
  mkLogRecord "ERROR"
    "Connection permanently failed after %d recovery attempts. Last error: %s"
    [LogZ (recovery_attempts pc); LogS (last_error pc)].

Definition recovered_log : LogRecord :=
  mkLogRecord "INFO" "Successfully recovered connection" [].

(** Whether a fresh connection [c] is accepted by the recovery. *)
Definition usable (pq : Libpq) (cfg : HydrantConfig) (c : PGconn) : bool :=
  PQstatus pq c && negb (require_ssl cfg && negb (PQsslInUse pq c)) && PQprepare pq c.

(** The state right after [f] was applied to slot [i] and [g] to the
    statistics. *)
Definition with_slot (i : nat) (f : PoolConnection -> PoolConnection)
    (g : Stats -> Stats) (ctx : HydrantContext) : HydrantContext :=
  set_stats (g (stats ctx)) (set_pool (alter f i (pool ctx)) ctx).

(** What holds of a connection that a scan has just handed out. *)
Definition handed_out (pq : Libpq) (now : Z) (c : PGconn) (s' : Sys) : Prop :=
  exists (i : nat) (pc' : PoolConnection),
    (i < MAX_POOL_SIZE)%nat
    /\ pool (sys_ctx s') !! i = Some pc'
    /\ conn pc' = c /\ state pc' = CONN_IN_USE /\ last_used pc' = now
    /\ PQstatus pq c = true.

(** [dead0] after three recoveries that could not connect. *)
Definition worn_out : Sys :=
  Nat.iter 3 (fun s => snd (recover_dead_connection pq_down 200 0 s)) dead0.

(** The two warnings of the clamp. *)
Definition below_minimum_log (size : Z) : LogRecord :=
  mkLogRecord "WARN" "Batch size %zu below minimum, using %d" [LogZ size; LogZ MIN_BATCH_SIZE].

Definition above_maximum_log (size : Z) : LogRecord :=
  mkLogRecord "WARN" "Batch size %zu above maximum, using %d" [LogZ size; LogZ MAX_BATCH_SIZE].

(** The slot [i] as the loop of [init_hydrant] leaves it. *)
Definition opened_slot (pq : Libpq) (cfg : HydrantConfig) (i : nat)
    (pc : PoolConnection) : PoolConnection :=
  let c := PQconnectdb pq i in
  mkPoolConnection c (if usable pq cfg c then CONN_AVAILABLE else CONN_DEAD) 0 0 0 0
    (if PQstatus pq c then last_error pc
     else snprintf MAX_ERROR_LENGTH (PQerrorMessage pq c)).

(** What the loop logs for slot [i]. *)
Definition init_slot_log (pq : Libpq) (cfg : HydrantConfig) (i : nat) : list LogRecord :=
  let c := PQconnectdb pq i in
  if negb (PQstatus pq c) then
    [mkLogRecord "ERROR" "Failed to connect to DB: %s" [LogS (PQerrorMessage pq c)]]
  else if require_ssl cfg && negb (PQsslInUse pq c) then
    [mkLogRecord "ERROR" "SSL required but not in use for connection %d"
       [LogZ (Z.of_nat i)]]
  else if negb (PQprepare pq c) then
    [mkLogRecord "ERROR" "Failed to prepare statement: %s" [LogS (PQerrorMessage pq c)]]
  else [].

(** The slots of [idx] that come up usable. *)
Definition usable_slots (pq : Libpq) (cfg : HydrantConfig) (idx : list nat) : Z :=
  Z.of_nat (length (List.filter (fun i => usable pq cfg (PQconnectdb pq i)) idx)).

(** The context right after the configuration [cfg] was stored in the
    zeroed allocation. *)
Definition configured (cfg : HydrantConfig) : HydrantContext :=
  set_healthy_connections 0 (set_config cfg zero_context).

(** The context that a successful [init_hydrant] returns. *)
Definition initialised (pq : Libpq) (now : Z) (cfg : HydrantConfig) : HydrantContext :=
  mkHydrantContext cfg false
    ((fun j => opened_slot pq cfg j zero_slot) <$> seq 0 MAX_POOL_SIZE)
    (usable_slots pq cfg (seq 0 MAX_POOL_SIZE))
    (replicate (Z.to_nat (batch_size cfg)) Byte.x00) 0
    (replicate 1000%nat (mkBatchStats 0 0 0)) 1000 0 2
    (mkStats 0 0 0 0 0 0 0%float now now).

Definition initialised_log (ctx : HydrantContext) : LogRecord :=
  mkLogRecord "INFO" "Hydrant initialized successfully with %zu healthy connections"
    [LogZ (healthy_connections ctx)].

Definition final_status_log (d : DetailedStatus) : LogRecord :=
  mkLogRecord "INFO" "Final hydrant status: %s" [LogStatus d].

Definition shutdown_log : LogRecord := mkLogRecord "INFO" "Shutdown requested" [].

(** The records that a worker logs. *)
Definition worker_status_log (ctx : HydrantContext) : LogRecord :=
  mkLogRecord "INFO" "Worker status: processed %zu batches, %zu errors"
    [LogZ (batches_processed (stats ctx)); LogZ (errors (stats ctx))].

Definition pool_degraded_log (ctx : HydrantContext) : LogRecord :=
  mkLogRecord "WARN" "Pool health degraded: %zu dead, %zu available"
    [LogZ (count_state is_dead ctx);
     LogZ (count_state (fun st => ConnectionState_eqb st CONN_AVAILABLE) ctx)].

(** Whether the pool is in the condition the worker warns about. *)
Definition pool_degraded (ctx : HydrantContext) : bool :=
  (count_state is_dead ctx >? 0)
  && (count_state (fun st => ConnectionState_eqb st CONN_AVAILABLE) ctx
      <? Z.quot (Z.of_nat MAX_POOL_SIZE) 2).


(** * Properties *)

(** ** Machine arithmetic *)

Lemma wrap_size_t_small (z : Z) : 0 <= z <= SIZE_MAX -> wrap_size_t z = z.
Proof.
  unfold wrap_size_t, SIZE_MAX, SIZE_WIDTH. intros H.
  apply Z.mod_small. lia.
Qed.


(** While a slot may still be recovered its counter is at most
    [MAX_RECOVERY_ATTEMPTS], and for such counters the backoff, a
    number of milliseconds divided by 1000 in integers, is zero. *)
Lemma recovery_backoff_zero (n : Z) :
  0 <= n <= MAX_RECOVERY_ATTEMPTS -> recovery_backoff n = 0.
Proof.
  unfold MAX_RECOVERY_ATTEMPTS. intros H.
  assert (n = 0 \/ n = 1 \/ n = 2 \/ n = 3) as [-> | [-> | [-> | ->]]] by lia;
    reflexivity.
Qed.

(** ** The pool functions do not touch the batch *)

Lemma keeps_ret {A : Type} (a : A) : keeps_batch (ret a).
Proof. intros s. reflexivity. Qed.

Lemma keeps_bind {A B : Type} (c : M A) (k : A -> M B) :
  keeps_batch c -> (forall a, keeps_batch (k a)) -> keeps_batch (bind c k).
Proof.
  intros Hc Hk s. unfold bind. specialize (Hc s).
  destruct (c s) as [a s1]. simpl in *. rewrite <- Hc. apply Hk.
Qed.

Lemma keeps_modify_ctx (f : HydrantContext -> HydrantContext) :
  (forall x, batch_view (f x) = batch_view x) -> keeps_batch (modify_ctx f).
Proof. intros Hf s. apply Hf. Qed.

Lemma keeps_structured_log (level format : string) (args : list log_arg) :
  keeps_batch (structured_log level format args).
Proof. intros s. reflexivity. Qed.

Lemma keeps_get_ctx {A : Type} (k : HydrantContext -> M A) :
  (forall x, keeps_batch (k x)) -> keeps_batch (bind get_ctx k).
Proof. intros Hk s. unfold bind, get_ctx. simpl. apply Hk. Qed.

Lemma keeps_when (b : bool) (c : M unit) : keeps_batch c -> keeps_batch (when b c).
Proof. intros Hc. destruct b; [exact Hc | apply keeps_ret]. Qed.

Ltac keeps_step :=
  match goal with
  | |- keeps_batch (ret _) => apply keeps_ret
  | |- keeps_batch (structured_log _ _ _) => apply keeps_structured_log
  | |- keeps_batch (modify_ctx _) => apply keeps_modify_ctx; reflexivity
  | |- keeps_batch (modify_slot _ _) => apply keeps_modify_ctx; reflexivity
  | |- keeps_batch (modify_stats _) => apply keeps_modify_ctx; reflexivity
  | |- keeps_batch (when _ _) => apply keeps_when
  | |- keeps_batch (bind get_ctx _) => apply keeps_get_ctx; intros ?
  | |- keeps_batch (bind _ _) => apply keeps_bind; [| intros ?]
  | |- keeps_batch (if ?c then _ else _) => destruct c
  | |- keeps_batch (match ?x with Some _ => _ | None => _ end) => destruct x
  | |- keeps_batch (let _ := _ in _) => cbv zeta
  end.

Lemma keeps_mark_connection_dead (i : nat) (error : string) :
  keeps_batch (mark_connection_dead i error).
Proof. unfold mark_connection_dead. repeat keeps_step. Qed.

Lemma keeps_mark_conn_dead (c : PGconn) (error : string) :
  keeps_batch (mark_conn_dead c error).
Proof.
  unfold mark_conn_dead. repeat (keeps_step || apply keeps_mark_connection_dead).
Qed.

Lemma keeps_recover_dead_connection (pq : Libpq) (now : Z) (i : nat) :
  keeps_batch (recover_dead_connection pq now i).
Proof. unfold recover_dead_connection. repeat keeps_step. Qed.

Lemma keeps_return_connection (pq : Libpq) (c : PGconn) (had_error : bool) :
  keeps_batch (return_connection pq c had_error).
Proof.
  unfold return_connection.
  repeat (keeps_step || apply keeps_mark_connection_dead).
Qed.

Lemma keeps_scan_available (pq : Libpq) (now : Z) (idx : list nat) :
  keeps_batch (scan_available pq now idx).
Proof.
  induction idx as [| i rest IH]; simpl; repeat (keeps_step || exact IH).
Qed.

Lemma keeps_scan_dead (pq : Libpq) (now : Z) (idx : list nat) :
  keeps_batch (scan_dead pq now idx).
Proof.
  induction idx as [| i rest IH]; simpl;
    repeat (keeps_step || exact IH || apply keeps_recover_dead_connection).
Qed.

Lemma keeps_run_releases (pq : Libpq) (rs : list release) :
  keeps_batch (run_releases pq rs).
Proof.
  induction rs as [| [c had_error] rest IH]; simpl;
    repeat (keeps_step || exact IH || apply keeps_return_connection).
Qed.

Lemma keeps_wait_loop (pq : Libpq) (now : Z) (wakes : list (list release)) :
  keeps_batch (wait_loop pq now wakes).
Proof.
  induction wakes as [| rs rest IH]; simpl;
    repeat (keeps_step || exact IH || apply keeps_run_releases
            || apply keeps_scan_available).
Qed.

Lemma keeps_get_connection (pq : Libpq) (now : Z) (wakes : list (list release)) :
  keeps_batch (get_connection pq now wakes).
Proof.
  unfold get_connection.
  repeat (keeps_step || apply keeps_scan_available || apply keeps_scan_dead
          || apply keeps_wait_loop).
Qed.

Lemma batch_view_pos (x y : HydrantContext) :
  batch_view x = batch_view y -> current_batch_pos x = current_batch_pos y.
Proof. unfold batch_view. intros H. injection H. auto. Qed.

Lemma batch_view_stats (x y : HydrantContext) :
  batch_view x = batch_view y ->
  total_bytes (stats x) = total_bytes (stats y)
  /\ batches_processed (stats x) = batches_processed (stats y)
  /\ errors (stats x) = errors (stats y).
Proof. unfold batch_view. intros H. injection H. auto. Qed.

(** ** Appending to the batch *)

(** The sum computed by [add_to_batch] does not wrap when the buffer
    and the data are C objects, whose sizes are at most [PTRDIFF_MAX]. *)
Lemma add_to_batch_sum (pos cap size : Z) :
  0 <= pos <= cap -> cap <= PTRDIFF_MAX -> 0 <= size <= PTRDIFF_MAX ->
  wrap_size_t (pos + size) = pos + size.
Proof.
  intros Hpos Hcap Hsize. apply wrap_size_t_small.
  unfold SIZE_MAX, PTRDIFF_MAX, SIZE_WIDTH in *. lia.
Qed.

Lemma add_to_batch_unfold (data : list Byte.byte) (size : Z) (s : Sys) :
  add_to_batch data size s =
  if wrap_size_t (current_batch_pos (sys_ctx s) + size) >? batch_size (config (sys_ctx s))
  then (false, s)
  else (true,
        mkSys (set_current_batch_pos
                 (wrap_size_t (current_batch_pos (sys_ctx s) + size))
                 (set_batch_buffer
                    (memcpy (batch_buffer (sys_ctx s)) (current_batch_pos (sys_ctx s))
                       data size)
                    (sys_ctx s)))
              (sys_stderr s)).
Proof.
  unfold add_to_batch, bind, get_ctx, ret, modify_ctx. simpl.
  destruct (wrap_size_t (current_batch_pos (sys_ctx s) + size)
            >? batch_size (config (sys_ctx s))); reflexivity.
Qed.

(** C5. [add_to_batch] returns true exactly when the position plus the
    size is at most the capacity; then the position has advanced by
    the size; when it returns false the context (buffer, position) and
    the log are unchanged; an append that fills the buffer exactly is
    accepted and every later non-empty append is refused. The position
    is within the capacity and the buffer and the data are C objects
    (at most [PTRDIFF_MAX] bytes). *)
Theorem add_to_batch_iff_fits (s : Sys) (data : list Byte.byte) (size : Z) :
  0 <= current_batch_pos (sys_ctx s) <= batch_size (config (sys_ctx s)) ->
  batch_size (config (sys_ctx s)) <= PTRDIFF_MAX ->
  0 <= size <= PTRDIFF_MAX ->
  let pos := current_batch_pos (sys_ctx s) in
  let cap := batch_size (config (sys_ctx s)) in
  let r := add_to_batch data size s in
  (fst r = true <-> pos + size <= cap)
  /\ (fst r = true ->
      current_batch_pos (sys_ctx (snd r)) = pos + size
      /\ batch_size (config (sys_ctx (snd r))) = cap)
  /\ (fst r = false -> snd r = s)
  /\ (pos + size = cap ->
      fst r = true
      /\ forall (data' : list Byte.byte) (size' : Z),
           0 < size' <= PTRDIFF_MAX ->
           add_to_batch data' size' (snd r) = (false, snd r)).
Proof.
  intros Hpos Hcap Hsize pos cap r.
  subst r. rewrite add_to_batch_unfold.
  fold pos cap. rewrite (add_to_batch_sum pos cap size Hpos Hcap Hsize).
  destruct (pos + size >? cap) eqn:E; simpl.
  - apply Z.gtb_lt in E.
    split; [split; [discriminate | lia] |].
    split; [discriminate |].
    split; [reflexivity | lia].
  - assert (Hle : pos + size <= cap).
    { destruct (Z.gtb_spec (pos + size) cap); [discriminate | assumption]. }
    split; [split; auto |].
    split; [intros _; split; reflexivity |].
    split; [discriminate |].
    intros Hfull. split; [reflexivity |].
    intros data' size' Hsize'.
    rewrite add_to_batch_unfold. simpl. fold cap.
    rewrite (add_to_batch_sum (pos + size) cap size') by lia.
    destruct (Z.gtb_spec (pos + size + size') cap); [reflexivity | lia].
Qed.

(** Outside these bounds the sum wraps: a size of [SIZE_MAX - 5], which
    no object has, added to position 10 gives 4 and is accepted. *)
Remark add_to_batch_sum_wraps :
  current_batch_pos (sys_ctx loaded) = 10
  /\ wrap_size_t (10 + (SIZE_MAX - 5)) = 4
  /\ fst (add_to_batch [] (SIZE_MAX - 5) loaded) = true.
Proof.
  assert (Hpos : current_batch_pos (sys_ctx loaded) = 10) by (vm_compute; reflexivity).
  split; [exact Hpos |]. split; [reflexivity |].
  rewrite add_to_batch_unfold, Hpos.
  replace (batch_size (config (sys_ctx loaded))) with 65536 by (vm_compute; reflexivity).
  reflexivity.
Qed.

Lemma add_to_batch_iff_fits_witness :
  (0 <= current_batch_pos (sys_ctx loaded) <= batch_size (config (sys_ctx loaded))
   /\ batch_size (config (sys_ctx loaded)) <= PTRDIFF_MAX
   /\ 0 <= 65526 <= PTRDIFF_MAX)
  /\ fst (add_to_batch filler 65526 loaded) = true
  /\ current_batch_pos
       (sys_ctx (snd (add_to_batch filler 65526 loaded))) = 65536
  /\ add_to_batch [Byte.x03] 1
       (snd (add_to_batch filler 65526 loaded))
     = (false, snd (add_to_batch filler 65526 loaded)).
Proof.
  assert (H1 : 0 <= current_batch_pos (sys_ctx loaded)
               <= batch_size (config (sys_ctx loaded)))
    by (vm_compute; split; discriminate).
  assert (H2 : batch_size (config (sys_ctx loaded)) <= PTRDIFF_MAX)
    by (vm_compute; discriminate).
  assert (H3 : 0 <= 65526 <= PTRDIFF_MAX) by (vm_compute; split; discriminate).
  assert (H4 : current_batch_pos (sys_ctx loaded) + 65526
               = batch_size (config (sys_ctx loaded)))
    by (vm_compute; reflexivity).
  assert (H5 : 0 < 1 <= PTRDIFF_MAX) by (vm_compute; split; [reflexivity | discriminate]).
  pose proof (add_to_batch_iff_fits loaded filler 65526 H1 H2 H3)
    as (_ & Hpos & _ & Hfull).
  destruct (Hfull H4) as [Htrue Hnext].
  split; [auto |].
  split; [exact Htrue |].
  split; [rewrite (proj1 (Hpos Htrue)); vm_compute; reflexivity |].
  exact (Hnext [Byte.x03] 1 H5).
Defined.

(** ** Marking a connection dead *)

Lemma mark_connection_dead_unfold (i : nat) (error : string) (s : Sys) :
  mark_connection_dead i error s =
  match pool (sys_ctx s) !! i with
  | None => (tt, s)
  | Some pc =>
      if is_dead (state pc) then (tt, s)
      else
        (tt,
         mkSys
           (set_pool
              (alter (set_last_error (snprintf MAX_ERROR_LENGTH error)) i
                 (alter (set_state CONN_DEAD) i (pool (sys_ctx s))))
              (set_healthy_connections
                 (wrap_size_t (healthy_connections (sys_ctx s) - 1)) (sys_ctx s)))
           (sys_stderr s ++ [dead_warning error]))
  end.
Proof.
  unfold mark_connection_dead, bind, get_ctx. simpl.
  destruct (pool (sys_ctx s) !! i) as [pc |]; [| reflexivity].
  destruct (state pc); reflexivity.
Qed.

(** C9. On a slot that is already DEAD or PERMANENT_FAILURE
    [mark_connection_dead] changes nothing: the slot (state and
    [last_error]), the healthy counter and the log are as before. On
    any other slot it decrements the counter, makes the slot DEAD with
    the given error and logs one WARN record. Calling it again after
    either case changes nothing. *)
Theorem mark_connection_dead_idempotent
    (s : Sys) (i : nat) (pc : PoolConnection) (error : string) :
  slot i s = Some pc ->
  let s' := snd (mark_connection_dead i error s) in
  (is_dead (state pc) = true -> s' = s)
  /\ (is_dead (state pc) = false ->
      healthy_connections (sys_ctx s')
      = wrap_size_t (healthy_connections (sys_ctx s) - 1)
      /\ slot i s'
         = Some (set_last_error (snprintf MAX_ERROR_LENGTH error)
                   (set_state CONN_DEAD pc))
      /\ sys_stderr s' = sys_stderr s ++ [dead_warning error])
  /\ (forall error' : string, snd (mark_connection_dead i error' s') = s').
Proof.
  intros Hpc. cbv zeta. unfold slot in *.
  rewrite mark_connection_dead_unfold, Hpc.
  destruct (is_dead (state pc)) eqn:Hdead; simpl.
  - split; [reflexivity |]. split; [discriminate |].
    intros error'. rewrite mark_connection_dead_unfold, Hpc, Hdead. reflexivity.
  - split; [discriminate |]. split.
    + intros _. split; [reflexivity |]. split; [| reflexivity].
      unfold slot. simpl.
      rewrite !list_lookup_alter_eq, Hpc. reflexivity.
    + intros error'. rewrite mark_connection_dead_unfold. simpl.
      rewrite !list_lookup_alter_eq, Hpc. reflexivity.
Qed.

Lemma mark_connection_dead_idempotent_witness :
  slot 0 dead0 = Some (mkPoolConnection 1000 CONN_DEAD 0 0 0 0 "boom")
  /\ snd (mark_connection_dead 0 "again" dead0) = dead0
  /\ snd (mark_connection_dead 0 "again" (snd (mark_connection_dead 0 "again" dead0)))
     = snd (mark_connection_dead 0 "again" dead0).
Proof.
  assert (H : slot 0 dead0 = Some (mkPoolConnection 1000 CONN_DEAD 0 0 0 0 "boom"))
    by (vm_compute; reflexivity).
  pose proof (mark_connection_dead_idempotent dead0 0 _ "again" H) as (Hd & _ & Hi).
  split; [exact H |].
  split; [apply Hd; reflexivity | apply Hi].
Defined.

(** ** The healthy counter *)

Lemma count_alter (p : PoolConnection -> bool) (f : PoolConnection -> PoolConnection)
    (l : list PoolConnection) :
  forall (n i : nat) (pc : PoolConnection),
    l !! i = Some pc -> (i < n)%nat ->
    Z.of_nat (length (List.filter p (take n (alter f i l))))
    = Z.of_nat (length (List.filter p (take n l)))
      - (if p pc then 1 else 0) + (if p (f pc) then 1 else 0).
Proof.
  induction l as [| x l IH]; intros n i pc Hi Hn; [discriminate |].
  destruct n as [| n]; [lia |].
  destruct i as [| i].
  - injection Hi as ->. cbn [alter list_alter take List.filter].
    destruct (p pc), (p (f pc)); cbn [length]; lia.
  - cbn [alter list_alter take List.filter].
    change (list_alter f i l) with (alter f i l).
    specialize (IH n i pc Hi ltac:(lia)).
    destruct (p x); cbn [length]; lia.
Qed.

Lemma healthy_slots_alter (ctx : HydrantContext) (i : nat) (pc : PoolConnection)
    (f : PoolConnection -> PoolConnection) :
  pool ctx !! i = Some pc -> (i < MAX_POOL_SIZE)%nat ->
  healthy_slots (set_pool (alter f i (pool ctx)) ctx)
  = healthy_slots ctx - healthy_bit pc + healthy_bit (f pc).
Proof.
  intros Hi Hn. unfold healthy_slots, count_state, healthy_bit. cbn [pool set_pool].
  rewrite (count_alter _ f (pool ctx) MAX_POOL_SIZE i pc Hi Hn).
  destruct (is_dead (state pc)), (is_dead (state (f pc))); reflexivity.
Qed.

Lemma healthy_slots_bounds (ctx : HydrantContext) :
  0 <= healthy_slots ctx <= Z.of_nat MAX_POOL_SIZE.
Proof.
  unfold healthy_slots, count_state. split; [lia |].
  apply Nat2Z.inj_le.
  etransitivity; [apply List.filter_length_le |].
  rewrite length_take. lia.
Qed.

Lemma healthy_slots_pos (ctx : HydrantContext) (i : nat) (pc : PoolConnection) :
  pool ctx !! i = Some pc -> (i < MAX_POOL_SIZE)%nat ->
  is_dead (state pc) = false -> 1 <= healthy_slots ctx.
Proof.
  intros Hi Hn Hdead.
  pose proof (healthy_slots_alter ctx i pc (set_state CONN_DEAD) Hi Hn) as H.
  pose proof (healthy_slots_bounds (set_pool (alter (set_state CONN_DEAD) i (pool ctx)) ctx)).
  unfold healthy_bit in H. rewrite Hdead in H. cbn in H. lia.
Qed.

(** [mark_connection_dead] keeps the counter equal to the number of
    healthy slots. *)
Lemma mark_connection_dead_keeps_invariant (i : nat) (error : string) (s : Sys) :
  (i < MAX_POOL_SIZE)%nat ->
  pool_invariant (sys_ctx s) ->
  pool_invariant (sys_ctx (snd (mark_connection_dead i error s))).
Proof.
  intros Hn Hinv. rewrite mark_connection_dead_unfold.
  destruct (pool (sys_ctx s) !! i) as [pc |] eqn:Hi; [| exact Hinv].
  destruct (is_dead (state pc)) eqn:Hdead; [exact Hinv |].
  unfold pool_invariant in *. cbn [snd sys_ctx].
  set (ctx1 := set_healthy_connections _ (sys_ctx s)).
  assert (Hi1 : pool ctx1 !! i = Some pc) by exact Hi.
  pose proof (healthy_slots_alter ctx1 i pc (set_state CONN_DEAD) Hi1 Hn) as H1.
  set (ctx2 := set_pool (alter (set_state CONN_DEAD) i (pool ctx1)) ctx1) in *.
  assert (Hi2 : pool ctx2 !! i = Some (set_state CONN_DEAD pc)).
  { subst ctx2. cbn [pool set_pool]. rewrite list_lookup_alter_eq, Hi1. reflexivity. }
  pose proof (healthy_slots_alter ctx2 i _
                (set_last_error (snprintf MAX_ERROR_LENGTH error)) Hi2 Hn) as H2.
  assert (Hsame : set_pool (alter (set_last_error (snprintf MAX_ERROR_LENGTH error)) i
                              (alter (set_state CONN_DEAD) i (pool (sys_ctx s)))) ctx1
                  = set_pool (alter (set_last_error (snprintf MAX_ERROR_LENGTH error)) i
                                (pool ctx2)) ctx2) by reflexivity.
  rewrite Hsame, H2, H1.
  unfold healthy_bit. rewrite Hdead. cbn [set_last_error set_state state is_dead].
  change (healthy_slots ctx1) with (healthy_slots (sys_ctx s)).
  change (healthy_connections (set_pool _ ctx2))
    with (wrap_size_t (healthy_connections (sys_ctx s) - 1)).
  pose proof (healthy_slots_pos (sys_ctx s) i pc Hi Hn Hdead).
  pose proof (healthy_slots_bounds (sys_ctx s)).
  rewrite Hinv. rewrite wrap_size_t_small; [lia |].
  unfold SIZE_MAX, SIZE_WIDTH, MAX_POOL_SIZE in *. lia.
Qed.

Lemma find_pool_connection_bound (ctx : HydrantContext) (c : PGconn) (i : nat) :
  find_pool_connection ctx c = Some i -> (i < MAX_POOL_SIZE)%nat.
Proof.
  unfold find_pool_connection. intros H.
  apply List.find_some in H as [Hin _].
  apply List.in_seq in Hin. lia.
Qed.

Lemma return_connection_unfold (pq : Libpq) (c : PGconn) (had_error : bool) (s : Sys) :
  return_connection pq c had_error s =
  match find_pool_connection (sys_ctx s) c with
  | None => (tt, s)
  | Some i =>
      match pool (sys_ctx s) !! i with
      | None => (tt, s)
      | Some pc =>
          let e := snprintf MAX_ERROR_LENGTH (PQerrorMessage pq c) in
          let after (f : PoolConnection -> PoolConnection) :=
            mkSys (set_pool (alter f i (pool (sys_ctx s))) (sys_ctx s)) (sys_stderr s) in
          if had_error then
            if failed_attempts pc + 1 >=? CONNECTION_DEAD_THRESHOLD then
              mark_connection_dead i e
                (after (set_last_error e ∘ set_failed_attempts (failed_attempts pc + 1)))
            else
              (tt, after (set_state CONN_AVAILABLE ∘ set_last_error e
                          ∘ set_failed_attempts (failed_attempts pc + 1)))
          else (tt, after (set_failed_attempts 0 ∘ set_state CONN_AVAILABLE))
      end
  end.
Proof.
  unfold return_connection, bind at 1, get_ctx. cbn [fst snd].
  destruct (find_pool_connection (sys_ctx s) c) as [i |]; [| reflexivity].
  destruct (pool (sys_ctx s) !! i) as [pc |]; [| reflexivity].
  cbv zeta. destruct had_error.
  - destruct (failed_attempts pc + 1 >=? CONNECTION_DEAD_THRESHOLD);
      unfold bind, modify_slot, modify_ctx;
      cbn [fst snd sys_ctx sys_stderr pool set_pool];
      rewrite !list_alter_alter_eq; reflexivity.
  - unfold bind, modify_slot, modify_ctx.
    cbn [fst snd sys_ctx sys_stderr pool set_pool].
    rewrite !list_alter_alter_eq. reflexivity.
Qed.

(** Given back without reaching the threshold, a connection whose slot
    is DEAD or PERMANENT_FAILURE makes the slot AVAILABLE and leaves
    the counter as it is: one more slot is healthy than the counter
    says. *)
Lemma return_connection_revives (pq : Libpq) (c : PGconn) (had_error : bool)
    (s : Sys) (i : nat) (pc : PoolConnection) :
  find_pool_connection (sys_ctx s) c = Some i ->
  pool (sys_ctx s) !! i = Some pc ->
  is_dead (state pc) = true ->
  had_error = false \/ failed_attempts pc + 1 < CONNECTION_DEAD_THRESHOLD ->
  let s' := snd (return_connection pq c had_error s) in
  option_map state (slot i s') = Some CONN_AVAILABLE
  /\ healthy_connections (sys_ctx s') = healthy_connections (sys_ctx s)
  /\ healthy_slots (sys_ctx s') = healthy_slots (sys_ctx s) + 1.
Proof.
  intros Hfind Hi Hdead Hcase s'.
  pose proof (find_pool_connection_bound _ _ _ Hfind) as Hn.
  assert (Hshape : exists f : PoolConnection -> PoolConnection,
             (forall x, state (f x) = CONN_AVAILABLE)
             /\ pool (sys_ctx s') = alter f i (pool (sys_ctx s))
             /\ healthy_connections (sys_ctx s') = healthy_connections (sys_ctx s)).
  { subst s'. rewrite return_connection_unfold, Hfind, Hi. cbv zeta.
    destruct had_error.
    - destruct Hcase as [Hfalse | Hfew]; [discriminate |].
      destruct (Z.geb_spec (failed_attempts pc + 1) CONNECTION_DEAD_THRESHOLD); [lia |].
      eexists. split; [| split; reflexivity]. reflexivity.
    - eexists. split; [| split; reflexivity]. reflexivity. }
  destruct Hshape as (f & Hf & Hpool & Hhealthy).
  unfold slot. rewrite Hpool, list_lookup_alter_eq, Hi. cbn. rewrite Hf.
  split; [reflexivity |]. split; [exact Hhealthy |].
  pose proof (healthy_slots_alter (sys_ctx s) i pc f Hi Hn) as H.
  unfold healthy_slots, count_state in *. rewrite Hpool.
  cbn [pool set_pool] in H. rewrite H.
  unfold healthy_bit. rewrite Hdead, Hf. cbn. lia.
Qed.

(** C6 (the code departs from it). After [init_hydrant] the counter is
    10 and ten slots are healthy. The connection of slot 0 is acquired,
    the slot is marked dead (counter 9, nine healthy slots) and the
    connection is given back with [had_error]: [return_connection]
    makes the slot AVAILABLE again without touching the counter, which
    stays at 9 while ten slots are healthy. [flush_batch] runs exactly
    these steps when a write fails. *)
Theorem return_connection_breaks_pool_invariant :
  let s1 := snd (get_connection pq_good 200 [] booted) in
  let s2 := snd (mark_connection_dead 0 "boom" s1) in
  let s3 := snd (return_connection pq_good 1000 true s2) in
  let s4 := snd (flush_batch (pq_puts (fun _ => -1)) 200 [] 0 0 loaded) in
  pool_invariant (sys_ctx booted)
  /\ fst (get_connection pq_good 200 [] booted) = Some 1000
  /\ pool_invariant (sys_ctx s1)
  /\ healthy_connections (sys_ctx s2) = 9 /\ healthy_slots (sys_ctx s2) = 9
  /\ option_map state (slot 0 s3) = Some CONN_AVAILABLE
  /\ healthy_connections (sys_ctx s3) = 9 /\ healthy_slots (sys_ctx s3) = 10
  /\ ~ pool_invariant (sys_ctx s3)
  /\ healthy_connections (sys_ctx s4) = 9 /\ healthy_slots (sys_ctx s4) = 10
  /\ ~ pool_invariant (sys_ctx s4).
Proof.
  unfold pool_invariant. vm_compute.
  repeat split; try reflexivity; intros H; discriminate H.
Qed.

(** ** Recovery backoff *)

(** A recovery that is due and fails to connect: the counter is
    incremented and the next attempt is scheduled [recovery_backoff]
    seconds later, which is no delay at all. *)
Lemma recover_dead_connection_connect_fails
    (pq : Libpq) (now : Z) (i : nat) (pc : PoolConnection) (s : Sys) :
  pool (sys_ctx s) !! i = Some pc ->
  next_recovery_attempt pc <= now ->
  0 <= recovery_attempts pc < MAX_RECOVERY_ATTEMPTS ->
  PQstatus pq (PQconnectdb pq i) = false ->
  let r := recover_dead_connection pq now i s in
  fst r = false
  /\ option_map recovery_attempts (slot i (snd r)) = Some (recovery_attempts pc + 1)
  /\ option_map next_recovery_attempt (slot i (snd r)) = Some now.
Proof.
  intros Hi Hdue Hra Hstatus r.
  assert (Hr : exists s' : Sys,
             r = (false, s')
             /\ pool (sys_ctx s')
                = alter (set_next_recovery_attempt
                           (now + recovery_backoff (recovery_attempts pc + 1))
                         ∘ set_last_error
                             (snprintf MAX_ERROR_LENGTH
                                (String.append "Recovery failed: "
                                   (PQerrorMessage pq (PQconnectdb pq i))))
                         ∘ set_recovery_attempts (recovery_attempts pc + 1)
                         ∘ set_conn (PQconnectdb pq i))
                    i (pool (sys_ctx s))).
  { subst r. unfold recover_dead_connection, bind at 1, get_ctx. cbn [fst snd].
    rewrite Hi.
    destruct (Z.ltb_spec now (next_recovery_attempt pc)); [lia |].
    destruct (Z.geb_spec (recovery_attempts pc) MAX_RECOVERY_ATTEMPTS); [lia |].
    rewrite Hstatus. cbn [negb].
    unfold bind, modify_slot, modify_stats, modify_ctx, structured_log, ret.
    cbn [fst snd sys_ctx sys_stderr pool set_pool set_stats].
    eexists. split; [reflexivity |].
    cbn [fst snd sys_ctx sys_stderr pool set_pool set_stats].
    rewrite !list_alter_alter_eq. reflexivity. }
  destruct Hr as (s' & -> & Hpool). split; [reflexivity |].
  unfold slot. cbn [snd]. rewrite Hpool, list_lookup_alter_eq, Hi. cbn.
  rewrite recovery_backoff_zero by lia.
  rewrite Z.add_0_r. split; reflexivity.
Qed.

(** C4 (the code departs from it). Slot 0 is dead and has never been
    recovered. A first attempt at time 1000 fails to connect: the
    counter becomes 1 and the next attempt is scheduled for time
    [1000 + (100 << 1) / 1000 = 1000], that is with no delay, where
    200 ms are asked for; a second attempt at the very same time is
    not refused and runs (the counter becomes 2). When it is the
    secure-transport check or the preparation of the statement that
    fails, no next attempt is scheduled at all
    ([next_recovery_attempt] keeps its value 0) and the second attempt
    runs at once as well. *)
Theorem recovery_retries_without_delay :
  let attempts (s : Sys) := option_map recovery_attempts (slot 0 s) in
  let next (s : Sys) := option_map next_recovery_attempt (slot 0 s) in
  let again (pq : Libpq) := 
    snd (recover_dead_connection pq 1000 0
           (snd (recover_dead_connection pq 1000 0 dead0))) in
  option_map state (slot 0 dead0) = Some CONN_DEAD
  /\ attempts dead0 = Some 0
  /\ RECOVERY_BACKOFF_BASE_MS * 2 ^ Z.min 1 MAX_BACKOFF_ATTEMPTS = 200
  /\ (let r := recover_dead_connection pq_down 1000 0 dead0 in
      fst r = false /\ attempts (snd r) = Some 1 /\ next (snd r) = Some 1000)
  /\ attempts (again pq_down) = Some 2
  /\ (let r := recover_dead_connection pq_no_ssl 1000 0 dead0 in
      fst r = false /\ attempts (snd r) = Some 1 /\ next (snd r) = Some 0)
  /\ attempts (again pq_no_ssl) = Some 2
  /\ (let r := recover_dead_connection pq_no_prepare 1000 0 dead0 in
      fst r = false /\ attempts (snd r) = Some 1 /\ next (snd r) = Some 0)
  /\ attempts (again pq_no_prepare) = Some 2.
Proof. vm_compute. repeat split; reflexivity. Qed.

(** ** Acquisition and the shutdown flag *)

(** C7, as stated, fails. Every slot is in use, shutdown has not been
    requested, and the wait on the condition variable times out: 
    [get_connection] returns the null pointer, and the flag is still
    unset afterwards. *)
Lemma get_connection_null_before_shutdown :
  shutdown_requested (sys_ctx exhausted) = false
  /\ map state (pool (sys_ctx exhausted)) = replicate 10 CONN_IN_USE
  /\ fst (get_connection pq_good 300 [] exhausted) = None
  /\ shutdown_requested (sys_ctx (snd (get_connection pq_good 300 [] exhausted))) = false.
Proof. vm_compute. repeat split; reflexivity. Qed.

Lemma blind_ret {A : Type} (a : A) : shutdown_blind (ret a).
Proof. intros b s. reflexivity. Qed.

Lemma blind_bind {A B : Type} (c : M A) (k : A -> M B) :
  shutdown_blind c -> (forall a, shutdown_blind (k a)) -> shutdown_blind (bind c k).
Proof.
  intros Hc Hk b s. unfold bind. rewrite Hc.
  destruct (c s) as [a s1]. simpl. apply Hk.
Qed.

Lemma blind_modify_ctx (f : HydrantContext -> HydrantContext) :
  (forall b x, f (set_shutdown_requested b x) = set_shutdown_requested b (f x)) ->
  shutdown_blind (modify_ctx f).
Proof.
  intros Hf b s. unfold modify_ctx, with_shutdown. simpl. rewrite Hf. reflexivity.
Qed.

Lemma blind_structured_log (level format : string) (args : list log_arg) :
  shutdown_blind (structured_log level format args).
Proof. intros b s. reflexivity. Qed.

Lemma blind_get_ctx {A : Type} (k : HydrantContext -> M A) :
  (forall x, shutdown_blind (k x)) ->
  (forall b x, k (set_shutdown_requested b x) = k x) ->
  shutdown_blind (bind get_ctx k).
Proof.
  intros Hk Hsame b s. unfold bind, get_ctx. simpl.
  rewrite Hsame. apply Hk.
Qed.

Lemma blind_when (b : bool) (c : M unit) : shutdown_blind c -> shutdown_blind (when b c).
Proof. intros Hc. destruct b; [exact Hc | apply blind_ret]. Qed.

(** One step of a proof of [shutdown_blind] along the structure of the
    computation. *)
Ltac blind_step :=
  match goal with
  | |- shutdown_blind (ret _) => apply blind_ret
  | |- shutdown_blind (structured_log _ _ _) => apply blind_structured_log
  | |- shutdown_blind (modify_ctx _) => apply blind_modify_ctx; reflexivity
  | |- shutdown_blind (modify_slot _ _) => apply blind_modify_ctx; reflexivity
  | |- shutdown_blind (modify_stats _) => apply blind_modify_ctx; reflexivity
  | |- shutdown_blind (when _ _) => apply blind_when
  | |- shutdown_blind (bind get_ctx _) => apply blind_get_ctx; [intros ? | reflexivity]
  | |- shutdown_blind (bind _ _) => apply blind_bind; [| intros ?]
  | |- shutdown_blind (if ?c then _ else _) => destruct c
  | |- shutdown_blind (match ?x with Some _ => _ | None => _ end) => destruct x
  | |- shutdown_blind (let _ := _ in _) => cbv zeta
  end.

Lemma blind_mark_connection_dead (i : nat) (error : string) :
  shutdown_blind (mark_connection_dead i error).
Proof. unfold mark_connection_dead. repeat blind_step. Qed.

Lemma blind_recover_dead_connection (pq : Libpq) (now : Z) (i : nat) :
  shutdown_blind (recover_dead_connection pq now i).
Proof. unfold recover_dead_connection. repeat blind_step. Qed.

Lemma blind_return_connection (pq : Libpq) (c : PGconn) (had_error : bool) :
  shutdown_blind (return_connection pq c had_error).
Proof.
  unfold return_connection.
  repeat (blind_step || apply blind_mark_connection_dead).
Qed.

Lemma blind_scan_available (pq : Libpq) (now : Z) (idx : list nat) :
  shutdown_blind (scan_available pq now idx).
Proof.
  induction idx as [| i rest IH]; simpl; repeat (blind_step || exact IH).
Qed.

Lemma blind_scan_dead (pq : Libpq) (now : Z) (idx : list nat) :
  shutdown_blind (scan_dead pq now idx).
Proof.
  induction idx as [| i rest IH]; simpl;
    repeat (blind_step || exact IH || apply blind_recover_dead_connection).
Qed.

Lemma blind_run_releases (pq : Libpq) (rs : list release) :
  shutdown_blind (run_releases pq rs).
Proof.
  induction rs as [| [c had_error] rest IH]; simpl;
    repeat (blind_step || exact IH || apply blind_return_connection).
Qed.

Lemma blind_wait_loop (pq : Libpq) (now : Z) (wakes : list (list release)) :
  shutdown_blind (wait_loop pq now wakes).
Proof.
  induction wakes as [| rs rest IH]; simpl;
    repeat (blind_step || exact IH || apply blind_run_releases
            || apply blind_scan_available).
Qed.

Lemma blind_get_connection (pq : Libpq) (now : Z) (wakes : list (list release)) :
  shutdown_blind (get_connection pq now wakes).
Proof.
  unfold get_connection.
  repeat (blind_step || apply blind_scan_available || apply blind_scan_dead
          || apply blind_wait_loop).
Qed.

Lemma passed_over_not_available (pq : Libpq) (now : Z) (pc : PoolConnection) :
  passed_over pq now pc = true ->
  ConnectionState_eqb (state pc) CONN_AVAILABLE && PQstatus pq (conn pc) = false.
Proof.
  unfold passed_over. intros H. apply andb_prop in H as [H _].
  apply negb_true_iff in H. exact H.
Qed.

Lemma scan_available_none (pq : Libpq) (now : Z) (idx : list nat) (s : Sys) :
  Forall (fun pc => passed_over pq now pc = true) (pool (sys_ctx s)) ->
  scan_available pq now idx s = (None, s).
Proof.
  intros Hall. induction idx as [| i rest IH]; [reflexivity |].
  simpl. unfold bind at 1, get_ctx. simpl.
  destruct (pool (sys_ctx s) !! i) as [pc |] eqn:Hi; [| exact IH].
  rewrite (passed_over_not_available pq now pc); [exact IH |].
  rewrite Forall_forall in Hall. apply Hall.
  apply list_elem_of_lookup. exists i. exact Hi.
Qed.

(** A recovery that is not yet due returns false and changes nothing. *)
Lemma recover_dead_connection_not_due
    (pq : Libpq) (now : Z) (i : nat) (pc : PoolConnection) (s : Sys) :
  pool (sys_ctx s) !! i = Some pc ->
  now < next_recovery_attempt pc ->
  recover_dead_connection pq now i s = (false, s).
Proof.
  intros Hi Hdue. unfold recover_dead_connection, bind at 1, get_ctx. simpl.
  rewrite Hi. destruct (Z.ltb_spec now (next_recovery_attempt pc)); [reflexivity | lia].
Qed.

Lemma scan_dead_none (pq : Libpq) (now : Z) (idx : list nat) (s : Sys) :
  Forall (fun pc => passed_over pq now pc = true) (pool (sys_ctx s)) ->
  scan_dead pq now idx s = (None, s).
Proof.
  intros Hall. induction idx as [| i rest IH]; [reflexivity |].
  simpl. unfold bind at 1, get_ctx. simpl.
  destruct (pool (sys_ctx s) !! i) as [pc |] eqn:Hi; [| exact IH].
  destruct (ConnectionState_eqb (state pc) CONN_DEAD) eqn:Hdead; [| exact IH].
  assert (Hpc : passed_over pq now pc = true).
  { rewrite Forall_forall in Hall. apply Hall.
    apply list_elem_of_lookup. exists i. exact Hi. }
  unfold passed_over in Hpc. rewrite Hdead in Hpc. simpl in Hpc.
  apply andb_prop in Hpc as [_ Hdue]. apply Z.ltb_lt in Hdue.
  unfold bind at 1.
  rewrite (recover_dead_connection_not_due pq now i pc s Hi Hdue).
  exact IH.
Qed.

(** Wake-ups during which nothing was released find nothing, and the
    expiry of the deadline ends the call with the null pointer. *)
Lemma wait_loop_spurious (pq : Libpq) (now : Z) (n : nat) (s : Sys) :
  Forall (fun pc => passed_over pq now pc = true) (pool (sys_ctx s)) ->
  wait_loop pq now (replicate n []) s = (None, s).
Proof.
  intros Hall. induction n as [| n IH]; [reflexivity |].
  cbn [replicate wait_loop run_releases]. unfold bind, ret.
  rewrite (scan_available_none pq now _ s Hall). exact IH.
Qed.

(** C7, amended. [get_connection] never reads the shutdown flag: run
    with the flag set or unset it returns the same handle and leaves
    the same state. When no slot is available with a good connection
    and no dead slot is due for recovery, and the wait expires (at
    once, or after wake-ups during which nothing was released), it
    returns the null pointer and leaves the state unchanged, whether
    or not shutdown has been requested: the wait is not renewed. *)
Theorem get_connection_ignores_shutdown (pq : Libpq) (now : Z) (s : Sys) :
  (forall (wakes : list (list release)) (b : bool),
      get_connection pq now wakes (with_shutdown b s)
      = (fst (get_connection pq now wakes s),
         with_shutdown b (snd (get_connection pq now wakes s))))
  /\ (Forall (fun pc => passed_over pq now pc = true) (pool (sys_ctx s)) ->
      forall (n : nat) (b : bool),
        get_connection pq now (replicate n []) (with_shutdown b s)
        = (None, with_shutdown b s)).
Proof.
  split.
  - intros wakes b. apply blind_get_connection.
  - intros Hall n b.
    assert (Hall' : Forall (fun pc => passed_over pq now pc = true)
                      (pool (sys_ctx (with_shutdown b s)))) by exact Hall.
    unfold get_connection, bind.
    rewrite (scan_available_none pq now _ _ Hall').
    rewrite (scan_dead_none pq now _ _ Hall').
    apply wait_loop_spurious. exact Hall'.
Qed.

Lemma get_connection_ignores_shutdown_witness :
  Forall (fun pc => passed_over pq_good 300 pc = true) (pool (sys_ctx exhausted))
  /\ get_connection pq_good 300 [] (with_shutdown false exhausted)
     = (None, with_shutdown false exhausted).
Proof.
  assert (H : Forall (fun pc => passed_over pq_good 300 pc = true)
                (pool (sys_ctx exhausted))).
  { vm_compute. repeat (constructor; [reflexivity |]). constructor. }
  split; [exact H |].
  exact (proj2 (get_connection_ignores_shutdown pq_good 300 exhausted) H 0%nat false).
Defined.

(** ** Flushing and the statistics *)

Lemma bind_bind_ret {A B C : Type} (c : M A) (d : M B) (x : C) (s : Sys) :
  bind c (fun _ => bind d (fun _ => ret x)) s
  = (x, snd (bind c (fun _ => d) s)).
Proof.
  unfold bind, ret. destruct (c s) as [a s1]. destruct (d s1). reflexivity.
Qed.

Lemma copy_loop_returns (pq : Libpq) (fuel : nat) :
  forall (c : PGconn) (k : nat) (tw rc : Z) (s : Sys),
    0 <= tw <= current_batch_pos (sys_ctx s) ->
    current_batch_pos (sys_ctx s) <= SIZE_MAX ->
    0 <= rc <= 5 ->
    (tw < current_batch_pos (sys_ctx s) ->
     6 * (current_batch_pos (sys_ctx s) - tw) + COPY_CHUNK_SIZE * (7 - rc)
     <= COPY_CHUNK_SIZE * Z.of_nat fuel) ->
    (1 <= fuel)%nat ->
    exists (tw' : Z) (ok : bool) (s' : Sys),
      copy_loop pq fuel c k tw rc s = (Some (tw', ok), s')
      /\ batch_view (sys_ctx s') = batch_view (sys_ctx s)
      /\ tw <= tw' <= current_batch_pos (sys_ctx s)
      /\ (ok = true -> tw' = current_batch_pos (sys_ctx s)).
Proof.
  induction fuel as [| fuel IH]; intros c k tw rc s Htw Hmax Hrc Hfuel Hpos; [lia |].
  cbn [copy_loop]. unfold bind at 1, get_ctx. cbn [fst snd].
  set (pos := current_batch_pos (sys_ctx s)) in *.
  destruct (Z.ltb_spec tw pos) as [Hlt | Hge].
  2:{ exists tw, true, s. unfold ret. repeat split; try lia. }
  specialize (Hfuel Hlt). cbv zeta.
  unfold COPY_CHUNK_SIZE in *.
  destruct (PQputCopyData pq k =? 1) eqn:Hput.
  - (* the chunk was written *)
    set (chunk := if pos - tw >? 8 * 1024 then 8 * 1024 else pos - tw).
    assert (Hchunk : 0 < chunk <= pos - tw /\ chunk <= 8 * 1024
                     /\ (chunk < pos - tw -> chunk = 8 * 1024)).
    { subst chunk. destruct (Z.gtb_spec (pos - tw) (8 * 1024)); lia. }
    rewrite (wrap_size_t_small (tw + chunk)) by lia.
    unfold bind at 1.
    destruct (when _ _ s) as [u s1] eqn:Hwhen.
    assert (Hs1 : sys_ctx s1 = sys_ctx s).
    { unfold when in Hwhen.
      destruct (_ =? 0) in Hwhen; inversion Hwhen; reflexivity. }
    destruct (IH c (S k) (tw + chunk) 0 s1) as (tw' & ok & s' & Hrun & Hview & Hle & Hok).
    + rewrite Hs1. fold pos. lia.
    + rewrite Hs1. exact Hmax.
    + lia.
    + rewrite Hs1. fold pos. intros Hmore.
      assert (chunk = 8 * 1024) by lia. lia.
    + assert (chunk < pos - tw \/ chunk = pos - tw) as [Hmore | Hlast] by lia; lia.
    + exists tw', ok, s'. rewrite Hrun. rewrite Hs1 in *. fold pos in Hle, Hok.
      repeat split; try assumption; lia.
  - destruct (PQputCopyData pq k =? 0) eqn:Hblock.
    + (* back-pressure *)
      rewrite (wrap_size_t_small (rc + 1)) by (unfold SIZE_MAX, SIZE_WIDTH; lia).
      unfold max_retries_copy.
      destruct (Z.gtb_spec (rc + 1) 5) as [Hmany | Hfew].
      * rewrite bind_bind_ret.
        eexists tw, false, _. split; [reflexivity |].
        split; [| split; [lia | discriminate]].
        cut (keeps_batch (bind (structured_log "ERROR" "%s"
               [LogS "Max retries exceeded waiting for buffer space"])
               (fun _ => mark_conn_dead c "Max retries exceeded waiting for buffer space"))).
        { intros Hk. apply (Hk s). }
        apply keeps_bind; [apply keeps_structured_log | intros _; apply keeps_mark_conn_dead].
      * destruct (IH c (S k) tw (rc + 1) s) as (tw' & ok & s' & Hrun & Hview & Hle & Hok);
          try (fold pos); try lia.
        exists tw', ok, s'. rewrite Hrun. fold pos in Hle, Hok.
        repeat split; try assumption; lia.
    + (* error *)
      rewrite bind_bind_ret.
      eexists tw, false, _. split; [reflexivity |].
      split; [| split; [lia | discriminate]].
      cut (keeps_batch (bind (structured_log "ERROR" "Failed to write batch data: %s"
               [LogS (PQerrorMessage pq c)])
               (fun _ => mark_conn_dead c (PQerrorMessage pq c)))).
      { intros Hk. apply (Hk s). }
      apply keeps_bind; [apply keeps_structured_log | intros _; apply keeps_mark_conn_dead].
Qed.




Lemma copy_fuel_enough (pos : Z) :
  0 <= pos ->
  6 * (pos - 0) + COPY_CHUNK_SIZE * (7 - 0) <= COPY_CHUNK_SIZE * Z.of_nat (copy_fuel pos)
  /\ (1 <= copy_fuel pos)%nat.
Proof.
  intros Hpos. unfold copy_fuel, COPY_CHUNK_SIZE.
  pose proof (Z.div_mod pos (8 * 1024) ltac:(lia)) as Hdiv.
  pose proof (Z.mod_pos_bound pos (8 * 1024) ltac:(lia)) as Hmod.
  assert (0 <= pos / (8 * 1024)) by (apply Z.div_pos; lia).
  split; lia.
Qed.

Lemma flush_batch_copy_path (pq : Libpq) (now : Z) (wakes : list (list release))
    (p0 f0 : Z) (s s1 : Sys) (c : PGconn) :
  0 < current_batch_pos (sys_ctx s) <= SIZE_MAX ->
  get_connection pq now wakes s = (Some c, s1) ->
  PQexec pq c "BEGIN" = true ->
  PQexecPrepared pq c = true ->
  let pos := current_batch_pos (sys_ctx s) in
  exists (tw : Z) (ok : bool) (s' : Sys),
    flush_batch pq now wakes p0 f0 s
    = (Some (ok, tw, if ok then 0 else pos - tw), s')
    /\ 0 <= tw <= pos
    /\ (ok = true -> tw = pos)
    /\ current_batch_pos (sys_ctx s') = 0
    /\ batches_processed (sys_stats s')
       = wrap_size_t (batches_processed (sys_stats s) + 1)
    /\ total_bytes (sys_stats s') = wrap_size_t (total_bytes (sys_stats s) + tw)
    /\ errors (sys_stats s')
       = if negb ok && (tw <? pos) then wrap_size_t (errors (sys_stats s) + 1)
         else errors (sys_stats s).
Proof.
  intros Hpos Hget Hbegin Hcopy pos.
  pose proof (keeps_get_connection pq now wakes s) as Hview1.
  rewrite Hget in Hview1. cbn [snd] in Hview1.
  pose proof (batch_view_pos _ _ Hview1) as Hpos1. fold pos in Hpos1.
  destruct (copy_fuel_enough pos ltac:(lia)) as [Hfuel Hone].
  destruct (copy_loop_returns pq (copy_fuel pos) c 0 0 0 s1)
    as (tw & written & s2 & Hloop & Hview2 & Htw & Hwritten);
    rewrite ?Hpos1; try lia.
  pose proof (batch_view_pos _ _ Hview2) as Hpos2. rewrite Hpos1 in Hpos2, Htw, Hwritten.
  unfold flush_batch, bind at 1, get_ctx. cbn [fst snd]. fold pos.
  destruct (Z.eqb_spec pos 0) as [Hzero | _]; [lia |].
  unfold bind at 1. rewrite Hget, Hbegin, Hcopy. cbn [negb].
  unfold bind at 1. rewrite Hloop.
  set (finish := if written then _ else _).
  assert (Hfinish : exists (ok : bool) (s3 : Sys),
             finish s2 = (ok, s3) /\ sys_ctx s3 = sys_ctx s2
             /\ (ok = true -> written = true)).
  { subst finish. destruct written; [| exists false, s2; repeat split; discriminate].
    destruct (negb (PQputCopyEnd pq c =? 1));
      [eexists false, _; repeat split; discriminate |].
    destruct (negb (PQexec pq c "COMMIT"));
      [eexists false, _; repeat split; discriminate |].
    exists true, s2. repeat split. }
  destruct Hfinish as (ok & s3 & Hfin & Hctx3 & Hok).
  unfold bind at 1. rewrite Hfin.
  unfold bind at 1, get_ctx. cbn [fst snd].
  rewrite Hctx3, Hpos2.
  assert (Hfailed : (if negb ok then wrap_size_t (pos - tw) else 0)
                    = if ok then 0 else pos - tw).
  { destruct ok; [reflexivity |]. apply wrap_size_t_small. lia. }
  rewrite Hfailed.
  unfold bind at 1, modify_stats at 1, modify_ctx at 1. cbn [fst snd].
  unfold bind at 1, modify_stats at 1, modify_ctx at 1. cbn [fst snd].
  unfold bind at 1.
  destruct (when _ _ _) as [u s4] eqn:Hwhen.
  unfold bind at 1.
  pose proof (keeps_return_connection pq c (negb ok) s4) as Hview5.
  destruct (return_connection pq c (negb ok) s4) as [u' s5]. cbn [snd] in Hview5.
  unfold bind, modify_ctx, ret. cbn [fst snd].
  exists tw, ok. eexists. split; [reflexivity |].
  split; [lia |]. split; [intros ->; apply Hwritten, Hok; reflexivity |].
  split; [reflexivity |].
  destruct (batch_view_stats _ _ Hview5) as (Htb & Hbp & Her).
  destruct (batch_view_stats _ _ Hview2) as (Htb2 & Hbp2 & Her2).
  destruct (batch_view_stats _ _ Hview1) as (Htb1 & Hbp1 & Her1).
  unfold sys_stats. cbn [sys_ctx stats set_current_batch_pos].
  rewrite Htb, Hbp, Her.
  unfold when in Hwhen.
  assert (Hcond : ((if ok then 0 else pos - tw) >? 0) = negb ok && (tw <? pos)).
  { destruct ok; cbn [negb andb]; [reflexivity |].
    destruct (Z.gtb_spec (pos - tw) 0), (Z.ltb_spec tw pos); try reflexivity; lia. }
  rewrite Hcond in Hwhen.
  destruct (negb ok && (tw <? pos)); inversion Hwhen; subst s4; cbn;
    rewrite Hctx3; cbn; rewrite Htb2, Hbp2, Her2, Htb1, Hbp1, Her1; repeat split.
Qed.



Lemma update_batch_stats_counters (now processed failed stray : Z) (s : Sys) :
  let r := update_batch_stats now processed failed stray s in
  batches_processed (sys_stats (snd r))
  = wrap_size_t (batches_processed (sys_stats s) + 1)
  /\ total_bytes (sys_stats (snd r)) = wrap_size_t (total_bytes (sys_stats s) + processed)
  /\ errors (sys_stats (snd r)) = wrap_size_t (errors (sys_stats s) + failed)
  /\ fst r
     = if wrap_size_t (batches_processed (sys_stats s) + 1) >? 1
       then [current_batch (sys_ctx s); wrap_size_t (current_batch (sys_ctx s) - 1)]
       else [].
Proof.
  unfold update_batch_stats, bind, modify_ctx, modify_stats, get_ctx, ret, sys_stats.
  cbn.
  destruct (wrap_size_t (batches_processed (stats (sys_ctx s)) + 1) >? 1);
    cbn; repeat split.
Qed.

(** Whenever the flush gets as far as the chunked write, the pair
    flush, [update_batch_stats] counts the batch twice. *)
Lemma flush_and_update_copy_path (pq : Libpq) (now : Z) (wakes : list (list release))
    (stray : Z) (s s1 : Sys) (c : PGconn) :
  0 < current_batch_pos (sys_ctx s) <= SIZE_MAX ->
  get_connection pq now wakes s = (Some c, s1) ->
  PQexec pq c "BEGIN" = true ->
  PQexecPrepared pq c = true ->
  exists (tw : Z) (ok : bool),
    fst (flush_batch pq now wakes 0 0 s)
    = Some (ok, tw, if ok then 0 else current_batch_pos (sys_ctx s) - tw)
    /\ (let s' := snd (flush_and_update pq now wakes stray s) in
        batches_processed (sys_stats s')
        = wrap_size_t (wrap_size_t (batches_processed (sys_stats s) + 1) + 1)
        /\ total_bytes (sys_stats s')
           = wrap_size_t (wrap_size_t (total_bytes (sys_stats s) + tw) + tw)).
Proof.
  intros Hpos Hget Hbegin Hcopy.
  destruct (flush_batch_copy_path pq now wakes 0 0 s s1 c Hpos Hget Hbegin Hcopy)
    as (tw & ok & s' & Hflush & _ & _ & _ & Hbp & Htb & _).
  exists tw, ok. rewrite Hflush. split; [reflexivity |].
  unfold flush_and_update, bind. rewrite Hflush.
  pose proof (update_batch_stats_counters now tw
                (if ok then 0 else current_batch_pos (sys_ctx s) - tw) stray s')
    as (Hbp' & Htb' & _).
  destruct (update_batch_stats _ _ _ _ s') as [reads s''].
  unfold ret. cbn [snd fst] in *.
  rewrite Hbp', Htb', Hbp, Htb. split; reflexivity.
Qed.

(** C2 (the code departs from it). With ten bytes in the buffer,
    [flush_batch] returns with the buffer position still at 10 when no
    connection can be acquired and when [BEGIN] fails; the position is
    reset only on the paths that reach the end of the function. *)
Theorem flush_batch_keeps_position_on_early_return :
  current_batch_pos (sys_ctx loaded) = 10
  /\ (let r := flush_batch pq_down 200 [] 0 0 loaded in
      fst r = Some (false, 0, 0) /\ current_batch_pos (sys_ctx (snd r)) = 10)
  /\ (let r := flush_batch pq_no_begin 200 [] 0 0 loaded in
      fst r = Some (false, 0, 0) /\ current_batch_pos (sys_ctx (snd r)) = 10)
  /\ (let r := flush_batch (pq_puts (fun _ => -1)) 200 [] 0 0 loaded in
      fst r = Some (false, 0, 10) /\ current_batch_pos (sys_ctx (snd r)) = 0).
Proof. vm_compute. repeat split; reflexivity. Qed.

(** C3 (the code departs from it). When no connection can be acquired
    the two output objects are not assigned: entered with 5 and 7 they
    still hold 5 and 7 on return. When [BEGIN] fails they are both 0
    although the ten bytes of the buffer were not shipped, and
    [request_shutdown] then reports that 0 bytes were lost. *)
Theorem flush_batch_outputs_on_early_return :
  current_batch_pos (sys_ctx loaded) = 10
  /\ fst (flush_batch pq_down 200 [] 5 7 loaded) = Some (false, 5, 7)
  /\ fst (flush_batch pq_no_begin 200 [] 5 7 loaded) = Some (false, 0, 0)
  /\ nth_error
       (sys_stderr (snd (request_shutdown (host_batch_size "65536") pq_no_begin 200 []
                           loaded))) 4
     = Some (mkLogRecord "ERROR" "Failed to flush final batch: %zu bytes lost" [LogZ 0]).
Proof. vm_compute. repeat split; reflexivity. Qed.

(** C1 (the code departs from it). One flush of ten bytes that the
    database accepts, followed by [update_batch_stats] with the counts
    the flush returned, counts two batches and twenty bytes, not one
    batch and ten bytes; when the first write fails, the error counter
    moves from 0 to 11 (one for the flush and the ten failed bytes
    added by [update_batch_stats]), not to 1. *)
Theorem flush_and_update_counts_twice :
  batches_processed (sys_stats loaded) = 0
  /\ total_bytes (sys_stats loaded) = 0
  /\ errors (sys_stats loaded) = 0
  /\ fst (flush_batch pq_good 200 [] 0 0 loaded) = Some (true, 10, 0)
  /\ (let r := flush_and_update pq_good 200 [] 0 loaded in
      fst r = Some true
      /\ batches_processed (sys_stats (snd r)) = 2
      /\ total_bytes (sys_stats (snd r)) = 20
      /\ errors (sys_stats (snd r)) = 0)
  /\ fst (flush_batch (pq_puts (fun _ => -1)) 200 [] 0 0 loaded) = Some (false, 0, 10)
  /\ (let r := flush_and_update (pq_puts (fun _ => -1)) 200 [] 0 loaded in
      fst r = Some false
      /\ batches_processed (sys_stats (snd r)) = 2
      /\ total_bytes (sys_stats (snd r)) = 0
      /\ errors (sys_stats (snd r)) = 11).
Proof. vm_compute. repeat split; reflexivity. Qed.

(** C10 (the code departs from it). The first [update_batch_stats]
    after a flush runs with [current_batch = 0] and
    [batches_processed = 1]: it reads the time stamp at index
    [current_batch - 1], which in [size_t] is [2^64 - 1], outside the
    ring of 1000 records. *)
Theorem update_batch_stats_reads_before_ring :
  let s := snd (flush_batch pq_good 200 [] 0 0 loaded) in
  current_batch (sys_ctx s) = 0
  /\ batches_processed (sys_stats s) = 1
  /\ batch_stats_size (sys_ctx s) = 1000
  /\ Z.of_nat (length (batch_stats (sys_ctx s))) = 1000
  /\ fst (update_batch_stats 200 10 0 0 s) = [0; SIZE_MAX]
  /\ ~ Forall (fun i => 0 <= i < batch_stats_size (sys_ctx s))
         (fst (update_batch_stats 200 10 0 0 s)).
Proof.
  cbv zeta.
  assert (E : fst (update_batch_stats 200 10 0 0
                     (snd (flush_batch pq_good 200 [] 0 0 loaded)))
              = [0; SIZE_MAX]) by (vm_compute; reflexivity).
  rewrite E.
  repeat split; try (vm_compute; reflexivity).
  intros H. inversion H as [| ? ? _ H2]; subst.
  inversion H2 as [| ? ? [_ H3] _]; subst.
  revert H3. vm_compute. intros H3. discriminate H3.
Qed.

(** ** The batch size read from the environment *)

(** C8, as stated, fails. With [HYDRANT_BATCH_SIZE=32768] (32 KiB) the
    capacity after the load and the clamp is the default 1 MiB, not
    the bound 64 KiB, and nothing is logged; with
    [HYDRANT_BATCH_SIZE=33554432] (32 MiB) it is 1 MiB as well, not
    10 MiB. The whole of [init_hydrant] logs a single record, at INFO. *)
Lemma out_of_range_batch_size_is_not_clamped :
  (let r := init_config (host_batch_size "32768") None sys0 in
   fst r = true
   /\ batch_size (config (sys_ctx (snd r))) = 1048576
   /\ batch_size (config (sys_ctx (snd r))) <> MIN_BATCH_SIZE
   /\ sys_stderr (snd r) = [])
  /\ (let r := init_config (host_batch_size "33554432") None sys0 in
      fst r = true
      /\ batch_size (config (sys_ctx (snd r))) = 1048576
      /\ batch_size (config (sys_ctx (snd r))) <> MAX_BATCH_SIZE
      /\ sys_stderr (snd r) = [])
  /\ (let r := init_hydrant (host_batch_size "32768") pq_good 100 None sys0 in
      option_map (fun ctx => batch_size (config ctx)) (fst r) = Some 1048576
      /\ map log_level (sys_stderr (snd r)) = ["INFO"%string]).
Proof.
  vm_compute.
  repeat split; try reflexivity; intros H; discriminate H.
Qed.

Lemma init_config_env_unfold (host : Host) (s : Sys) (url : string) :
  config_alloc_ok host = true ->
  getenv host "HYDRANT_DB_URL" = Some url ->
  init_config host None s =
  (true,
   snd (clamp_batch_size
    (mkSys
       (set_config
          (set_db_conn_string (Some url)
             (match getenv host "HYDRANT_BATCH_SIZE" with
              | Some v =>
                  if (wrap_size_t (atol v) >=? MIN_BATCH_SIZE)
                     && (wrap_size_t (atol v) <=? MAX_BATCH_SIZE)
                  then set_batch_size (wrap_size_t (atol v))
                         (mkHydrantConfig None DEFAULT_BATCH_SIZE 3 100 true)
                  else mkHydrantConfig None DEFAULT_BATCH_SIZE 3 100 true
              | None => mkHydrantConfig None DEFAULT_BATCH_SIZE 3 100 true
              end))
          (sys_ctx s))
       (sys_stderr s)))).
Proof.
  intros Halloc Hurl.
  unfold init_config, load_config, bind. rewrite Halloc, Hurl. simpl.
  unfold ret, modify_ctx. simpl.
  destruct (clamp_batch_size _) as [[] s']. reflexivity.
Qed.

(** [clamp_batch_size] leaves a batch size that is already within the
    bounds, and logs nothing. *)
Lemma clamp_batch_size_in_range (s : Sys) :
  MIN_BATCH_SIZE <= batch_size (config (sys_ctx s)) <= MAX_BATCH_SIZE ->
  clamp_batch_size s = (tt, s).
Proof.
  intros [Hmin Hmax].
  unfold clamp_batch_size, bind, get_ctx, when. simpl.
  destruct (Z.ltb_spec (batch_size (config (sys_ctx s))) MIN_BATCH_SIZE); [lia |].
  unfold ret. simpl.
  destruct (Z.gtb_spec (batch_size (config (sys_ctx s))) MAX_BATCH_SIZE); [lia |].
  reflexivity.
Qed.

Lemma atol_range (v : string) : LONG_MIN <= atol v <= LONG_MAX.
Proof. unfold atol, LONG_MIN, LONG_MAX. lia. Qed.

(** C8, amended. When the configuration is loaded from the environment
    and [HYDRANT_BATCH_SIZE] holds a value below 64 KiB or above
    10 MiB, the value is ignored: the capacity after the load and the
    clamp is the 1 MiB default and no record is logged. A value within
    the bounds is taken as it is. In every case the capacity lies in
    [64 KiB, 10 MiB]. *)
Theorem batch_size_from_environment (host : Host) (s : Sys) (url v : string) :
  config_alloc_ok host = true ->
  getenv host "HYDRANT_DB_URL" = Some url ->
  getenv host "HYDRANT_BATCH_SIZE" = Some v ->
  let r := init_config host None s in
  let capacity := batch_size (config (sys_ctx (snd r))) in
  fst r = true
  /\ (atol v < MIN_BATCH_SIZE \/ MAX_BATCH_SIZE < atol v ->
      capacity = DEFAULT_BATCH_SIZE)
  /\ (MIN_BATCH_SIZE <= atol v <= MAX_BATCH_SIZE -> capacity = atol v)
  /\ MIN_BATCH_SIZE <= capacity <= MAX_BATCH_SIZE
  /\ sys_stderr (snd r) = sys_stderr s.
Proof.
  intros Halloc Hurl Hv. cbv zeta.
  rewrite (init_config_env_unfold host s url Halloc Hurl), Hv.
  pose proof (atol_range v) as Hrange.
  unfold LONG_MIN, LONG_MAX in Hrange.
  assert (Hdefault : MIN_BATCH_SIZE <= DEFAULT_BATCH_SIZE <= MAX_BATCH_SIZE)
    by (unfold MIN_BATCH_SIZE, DEFAULT_BATCH_SIZE, MAX_BATCH_SIZE; lia).
  destruct (Z_lt_le_dec (atol v) 0) as [Hneg | Hpos].
  - (* a negative value converts to a [size_t] above every bound *)
    assert (Hw : wrap_size_t (atol v) = atol v + 2 ^ 64).
    { unfold wrap_size_t, SIZE_WIDTH.
      symmetry. apply (Z.mod_unique_pos _ _ (-1)); lia. }
    rewrite Hw.
    destruct (Z.leb_spec (atol v + 2 ^ 64) MAX_BATCH_SIZE) as [Hle | Hgt];
      [unfold MAX_BATCH_SIZE in Hle; lia |].
    rewrite andb_false_r.
    rewrite clamp_batch_size_in_range by (simpl; exact Hdefault).
    simpl. unfold MIN_BATCH_SIZE, MAX_BATCH_SIZE in *.
    repeat split; try reflexivity; try lia.
  - rewrite (wrap_size_t_small (atol v))
      by (unfold SIZE_MAX, SIZE_WIDTH; lia).
    destruct (Z.geb_spec (atol v) MIN_BATCH_SIZE) as [Hge | Hlt];
      destruct (Z.leb_spec (atol v) MAX_BATCH_SIZE) as [Hle | Hgt]; simpl andb;
      rewrite clamp_batch_size_in_range by (simpl; lia);
      simpl; repeat split; try reflexivity; try lia.
Qed.

Lemma batch_size_from_environment_witness :
  (config_alloc_ok (host_batch_size "32768") = true
   /\ getenv (host_batch_size "32768") "HYDRANT_DB_URL" = Some "postgres://db"%string
   /\ getenv (host_batch_size "32768") "HYDRANT_BATCH_SIZE" = Some "32768"%string)
  /\ batch_size (config (sys_ctx (snd (init_config (host_batch_size "32768") None sys0))))
     = DEFAULT_BATCH_SIZE.
Proof.
  pose proof (batch_size_from_environment (host_batch_size "32768") sys0
                "postgres://db" "32768" eq_refl eq_refl eq_refl)
    as (_ & Hout & _).
  split; [repeat split |].
  apply Hout. left. vm_compute. reflexivity.
Defined.

(** ** Escaping of log messages *)

Lemma len_append (a b : string) : len (String.append a b) = len a + len b.
Proof.
  unfold len. induction a as [| c a IH]; simpl String.length; [lia |].
  simpl in IH. lia.
Qed.

Lemma len_escape_char (c : ascii) :
  len (escape_char c) = 1 \/ len (escape_char c) = 2 \/ len (escape_char c) = 6.
Proof.
  unfold escape_char.
  repeat match goal with |- context [if ?b then _ else _] => destruct b end;
    cbn; auto.
Qed.

Lemma geb_false (a b : Z) : (a >=? b) = false -> a < b.
Proof. rewrite Z.geb_leb. intros H. apply Z.leb_gt in H. exact H. Qed.

Lemma json_escape_from_bound (src : string) :
  forall di n : Z,
    1 <= n <= PTRDIFF_MAX -> 0 <= di <= n - 1 ->
    di + len (json_escape_from src di n) <= n - 1.
Proof.
  induction src as [| c rest IH]; intros di n Hn Hdi; [unfold len; cbn; lia |].
  cbn [json_escape_from].
  assert (Hmax : PTRDIFF_MAX + 6 <= SIZE_MAX) by (vm_compute; discriminate).
  rewrite (wrap_size_t_small (n - 1)) by lia.
  destruct ((char_code c =? 0) || negb (di <? n - 1)) eqn:Hstop; [unfold len; cbn; lia |].
  apply orb_false_elim in Hstop as [_ Hroom].
  apply negb_false_iff, Z.ltb_lt in Hroom.
  rewrite (wrap_size_t_small (di + 2)), (wrap_size_t_small (di + 6)) by lia.
  repeat match goal with
         | |- context [if ?b then _ else _] => destruct b eqn:?
         end;
    try (unfold len; cbn; lia);
    repeat match goal with
           | H : (_ >=? _) = false |- _ => apply geb_false in H
           end;
    try (unfold len in *; cbn [String.length];
         match goal with
         | |- context [json_escape_from rest ?d n] =>
             specialize (IH d n Hn ltac:(lia)); lia
         end).
  rewrite len_append. specialize (IH (di + 6) n Hn ltac:(lia)).
  change (len (unicode_escape c)) with 6. lia.
Qed.

Lemma json_escape_from_fits (src : string) :
  forall di n : Z,
    1 <= n <= PTRDIFF_MAX -> 0 <= di ->
    di + len (escape_all src) <= n - 1 ->
    json_escape_from src di n = escape_all src.
Proof.
  induction src as [| c rest IH]; intros di n Hn Hdi Hfit; [reflexivity |].
  cbn [json_escape_from escape_all] in *.
  assert (Hmax : PTRDIFF_MAX + 6 <= SIZE_MAX) by (vm_compute; discriminate).
  destruct (char_code c =? 0) eqn:Hnul; [reflexivity |].
  rewrite len_append in Hfit.
  assert (Hrest : 0 <= len (escape_all rest)) by (unfold len; lia).
  pose proof (len_escape_char c) as Hlen.
  rewrite (wrap_size_t_small (n - 1)) by lia.
  destruct (Z.ltb_spec di (n - 1)) as [Hroom | Hfull]; [| lia].
  cbn [orb negb].
  rewrite (wrap_size_t_small (di + 2)), (wrap_size_t_small (di + 6)) by lia.
  unfold escape_char in *.
  repeat match goal with
         | |- context [if char_code c =? ?k then _ else _] =>
             destruct (char_code c =? k) eqn:?
         | |- context [if char_code c <? ?k then _ else _] =>
             destruct (char_code c <? k) eqn:?
         end;
    try (change (len (unicode_escape c)) with 6 in Hfit);
    unfold len in Hfit; cbn [String.length] in Hfit;
    repeat match goal with
           | |- context [if ?a >=? n then _ else _] =>
               destruct (Z.geb_spec a n); [lia |]
           end;
    cbn [String.append]; repeat f_equal; apply IH; unfold len; lia.
Qed.

Lemma json_escape_from_prefix (src : string) :
  forall di n : Z,
    exists k : nat,
      (k <= String.length src)%nat
      /\ json_escape_from src di n = escape_all (String.substring 0 k src).
Proof.
  induction src as [| c rest IH]; intros di n; [exists 0%nat; split; [lia | reflexivity] |].
  assert (Hstop : exists k : nat,
             (k <= String.length (String c rest))%nat
             /\ EmptyString = escape_all (String.substring 0 k (String c rest))).
  { exists 0%nat. split; [cbn; lia | reflexivity]. }
  assert (Hgo : forall d, (char_code c =? 0) = false ->
             exists k : nat,
               (k <= String.length (String c rest))%nat
               /\ String.append (escape_char c) (json_escape_from rest d n)
                  = escape_all (String.substring 0 k (String c rest))).
  { intros d Hnul. destruct (IH d n) as (k & Hk & Heq).
    exists (S k). split; [cbn; lia |].
    cbn [String.substring escape_all]. rewrite Hnul, Heq. reflexivity. }
  cbn [json_escape_from].
  destruct (char_code c =? 0) eqn:Hnul; [exact Hstop |].
  destruct (negb (di <? wrap_size_t (n - 1))); [exact Hstop |].
  cbn [orb].
  unfold escape_char in Hgo.
  repeat match goal with
         | |- context [if char_code c =? ?k then _ else _] =>
             destruct (char_code c =? k) eqn:?
         | |- context [if char_code c <? ?k then _ else _] =>
             destruct (char_code c <? k) eqn:?
         | |- context [if ?a >=? n then _ else _] =>
             destruct (a >=? n); [exact Hstop |]
         end;
    match goal with
    | |- context [json_escape_from rest ?d n] => exact (Hgo d eq_refl)
    end.
Qed.

Lemma string_all_append (p : ascii -> bool) (a b : string) :
  string_all p (String.append a b) = string_all p a && string_all p b.
Proof.
  induction a as [| c a IH]; [reflexivity |].
  cbn [String.append string_all]. rewrite IH, andb_assoc. reflexivity.
Qed.

Lemma hex_digit_printable (n : Z) : 0 <= n < 16 -> printable (hex_digit n) = true.
Proof.
  intros H. rewrite <- (Z2Nat.id n) by lia.
  assert (Hk : (Z.to_nat n < 16)%nat) by lia.
  revert Hk. generalize (Z.to_nat n). intros k Hk.
  do 16 (destruct k as [| k]; [reflexivity |]). lia.
Qed.

Lemma escape_char_printable (c : ascii) : string_all printable (escape_char c) = true.
Proof.
  assert (Hc : 0 <= char_code c) by (unfold char_code; lia).
  unfold escape_char.
  destruct (Z.eqb_spec (char_code c) 34) as [H34 |];
    [cbn; unfold printable; rewrite H34; reflexivity |].
  repeat match goal with
         | |- context [if char_code c =? ?k then _ else _] =>
             destruct (char_code c =? k); [reflexivity |]
         end.
  destruct (Z.ltb_spec (char_code c) 32) as [Hlow | Hhigh].
  - unfold unicode_escape. cbn [string_all].
    rewrite !hex_digit_printable; [reflexivity | |].
    + apply Z.mod_pos_bound. lia.
    + split; [apply Z.div_pos; lia | apply Z.div_lt_upper_bound; lia].
  - cbn. unfold printable. destruct (Z.leb_spec 32 (char_code c)); [reflexivity | lia].
Qed.

Lemma escape_all_printable (src : string) : string_all printable (escape_all src) = true.
Proof.
  induction src as [| c rest IH]; [reflexivity |].
  cbn [escape_all]. destruct (char_code c =? 0); [reflexivity |].
  rewrite string_all_append, escape_char_printable, IH. reflexivity.
Qed.

Lemma string_all_substring (p : ascii -> bool) (s : string) :
  forall k : nat, string_all p s = true -> string_all p (String.substring 0 k s) = true.
Proof.
  induction s as [| c rest IH]; intros k H; [destruct k; reflexivity |].
  destruct k as [| k]; [reflexivity |].
  cbn [String.substring string_all] in *.
  apply andb_prop in H as [Hc Hrest]. rewrite Hc, (IH k Hrest). reflexivity.
Qed.

Lemma length_substring_le (s : string) :
  forall k : nat, (String.length (String.substring 0 k s) <= k)%nat.
Proof.
  induction s as [| c rest IH]; intros k; [destruct k; cbn; lia |].
  destruct k as [| k]; [cbn; lia |].
  cbn [String.substring String.length]. specialize (IH k). lia.
Qed.

Lemma short_escape_len (src : string) :
  string_all short_escape src = true ->
  len (escape_all src) <= 2 * len src.
Proof.
  induction src as [| c rest IH]; intros H; [unfold len; cbn; lia |].
  cbn [string_all] in H. apply andb_prop in H as [Hc Hrest].
  cbn [escape_all]. specialize (IH Hrest).
  assert (Hlen : len (String c rest) = 1 + len rest) by (unfold len; cbn [String.length]; lia).
  destruct (char_code c =? 0); [unfold len in *; cbn [String.length] in *; lia |].
  rewrite len_append, Hlen.
  assert (len (escape_char c) <= 2); [| lia].
  unfold short_escape, printable in Hc. unfold escape_char.
  repeat match goal with
         | |- context [if char_code c =? ?k then _ else _] =>
             destruct (char_code c =? k) eqn:?; [unfold len; cbn; lia |]
         end.
  destruct (Z.ltb_spec (char_code c) 32) as [Hlow | Hhigh]; [| unfold len; cbn; lia].
  destruct (Z.leb_spec 32 (char_code c)); [lia |]. discriminate Hc.
Qed.

(** The escape of a text that has no zero character stops nowhere
    before its end. *)
Lemma short_escape_no_zero (src : string) :
  string_all short_escape src = true ->
  string_all (fun c => negb (char_code c =? 0)) src = true.
Proof.
  induction src as [| c rest IH]; intros H; [reflexivity |].
  cbn [string_all] in *. apply andb_prop in H as [Hc Hrest].
  rewrite (IH Hrest), andb_true_r.
  unfold short_escape, printable in Hc.
  destruct (Z.eqb_spec (char_code c) 0) as [H0 |]; [| reflexivity].
  rewrite H0 in Hc. discriminate Hc.
Qed.

Lemma substring_whole (s : string) :
  forall k : nat, (String.length s <= k)%nat -> String.substring 0 k s = s.
Proof.
  induction s as [| c rest IH]; intros k H; [destruct k; reflexivity |].
  destruct k as [| k]; [cbn in H; lia |].
  cbn [String.substring String.length] in *. rewrite IH by lia. reflexivity.
Qed.

(** X1. The escaped text and its terminating zero fit in [dest]. *)
Theorem json_escape_fits_buffer (src : string) (dest_size : Z) :
  1 <= dest_size <= PTRDIFF_MAX ->
  len (json_escape src dest_size) <= dest_size - 1.
Proof.
  intros Hn. pose proof (json_escape_from_bound src 0 dest_size Hn ltac:(lia)) as H.
  unfold json_escape. lia.
Qed.

Lemma json_escape_fits_buffer_witness :
  1 <= 4 <= PTRDIFF_MAX /\ len (json_escape sample_text 4) <= 4 - 1.
Proof.
  assert (H : 1 <= 4 <= PTRDIFF_MAX) by (vm_compute; split; discriminate).
  split; [exact H | exact (json_escape_fits_buffer sample_text 4 H)].
Defined.

(** X2. What [json_escape] writes is the escape of a prefix of the
    source, so that no escape sequence is cut; it is the escape of the
    whole source when that fits. *)
Theorem json_escape_cuts_between_characters (src : string) (dest_size : Z) :
  (exists k : nat,
      (k <= String.length src)%nat
      /\ json_escape src dest_size = escape_all (String.substring 0 k src))
  /\ (1 <= dest_size <= PTRDIFF_MAX ->
      len (escape_all src) <= dest_size - 1 ->
      json_escape src dest_size = escape_all src).
Proof.
  split.
  - apply json_escape_from_prefix.
  - intros Hn Hfit. apply json_escape_from_fits; lia.
Qed.

Lemma json_escape_cuts_between_characters_witness :
  (1 <= 5 <= PTRDIFF_MAX /\ len (escape_all sample_text) <= 5 - 1)
  /\ json_escape sample_text 5 = escape_all sample_text.
Proof.
  assert (H1 : 1 <= 5 <= PTRDIFF_MAX) by (vm_compute; split; discriminate).
  assert (H2 : len (escape_all sample_text) <= 5 - 1) by (vm_compute; discriminate).
  split; [split; assumption |].
  exact (proj2 (json_escape_cuts_between_characters sample_text 5) H1 H2).
Defined.

(** X3. The escaped text holds no control character. *)
Theorem json_escape_output_printable (src : string) (dest_size : Z) :
  string_all printable (json_escape src dest_size) = true.
Proof.
  destruct (json_escape_from_prefix src 0 dest_size) as (k & _ & Heq).
  unfold json_escape. rewrite Heq. apply escape_all_printable.
Qed.

(** X4. A log message whose only control characters are line feeds,
    carriage returns and tabs is escaped in full. *)
Theorem escaped_message_keeps_text (message : string) :
  string_all short_escape message = true ->
  escaped_message message = escape_all (snprintf MAX_ERROR_LENGTH message)
  /\ (len message <= MAX_ERROR_LENGTH - 1 -> escaped_message message = escape_all message).
Proof.
  intros Hshort.
  assert (Hcut : escaped_message message
                 = escape_all (snprintf MAX_ERROR_LENGTH message)).
  { unfold escaped_message, json_escape.
    apply json_escape_from_fits.
    - vm_compute. split; discriminate.
    - lia.
    - unfold snprintf, MAX_ERROR_LENGTH.
      pose proof (short_escape_len (String.substring 0 (Z.to_nat (1 * 1024 - 1)) message)
                    (string_all_substring _ _ _ Hshort)) as Hlen.
      pose proof (length_substring_le message (Z.to_nat (1 * 1024 - 1))) as Hle.
      unfold len in *. lia. }
  split; [exact Hcut |].
  intros Hlen. rewrite Hcut. unfold snprintf.
  rewrite substring_whole; [reflexivity |]. unfold len in Hlen. lia.
Qed.

Lemma escaped_message_keeps_text_witness :
  string_all short_escape sample_text = true
  /\ escaped_message sample_text = escape_all sample_text.
Proof.
  assert (H : string_all short_escape sample_text = true) by reflexivity.
  split; [exact H |].
  apply (proj2 (escaped_message_keeps_text sample_text H)).
  vm_compute. discriminate.
Defined.

(** ** The batch buffer and the ring of batch records *)

Lemma memcpy_parts (dest src : list Byte.byte) (off n : Z) :
  0 <= off -> 0 <= n -> Z.of_nat (length src) = n ->
  off + n <= Z.of_nat (length dest) ->
  length (memcpy dest off src n) = length dest
  /\ take (Z.to_nat off) (memcpy dest off src n) = take (Z.to_nat off) dest
  /\ take (Z.to_nat n) (drop (Z.to_nat off) (memcpy dest off src n)) = src
  /\ drop (Z.to_nat (off + n)) (memcpy dest off src n) = drop (Z.to_nat (off + n)) dest.
Proof.
  intros Hoff Hn Hsrc Hfit. unfold memcpy.
  assert (Hchunk : take (Z.to_nat n) src = src) by (apply take_ge; lia).
  rewrite Hchunk.
  assert (Hlen1 : length (take (Z.to_nat off) dest) = Z.to_nat off)
    by (rewrite length_take; lia).
  repeat split.
  - rewrite !length_app, length_drop, Hlen1. lia.
  - rewrite take_app_length'; [reflexivity | symmetry; exact Hlen1].
  - rewrite drop_app_length'; [| symmetry; exact Hlen1].
    rewrite take_app_length'; [reflexivity | lia].
  - rewrite app_assoc. rewrite drop_app_length'.
    + f_equal. lia.
    + rewrite length_app, Hlen1. lia.
Qed.

(** X5. An accepted append copies the data at the old position and
    leaves the rest of the buffer as it was. *)
Theorem add_to_batch_stores_data (s : Sys) (data : list Byte.byte) (size : Z) :
  let ctx := sys_ctx s in
  let pos := current_batch_pos ctx in
  0 <= pos ->
  Z.of_nat (length data) = size ->
  pos + size <= batch_size (config ctx) ->
  batch_size (config ctx) = Z.of_nat (length (batch_buffer ctx)) ->
  batch_size (config ctx) <= PTRDIFF_MAX ->
  let r := add_to_batch data size s in
  let buffer' := batch_buffer (sys_ctx (snd r)) in
  fst r = true
  /\ length buffer' = length (batch_buffer ctx)
  /\ take (Z.to_nat pos) buffer' = take (Z.to_nat pos) (batch_buffer ctx)
  /\ take (Z.to_nat size) (drop (Z.to_nat pos) buffer') = data
  /\ drop (Z.to_nat (pos + size)) buffer'
     = drop (Z.to_nat (pos + size)) (batch_buffer ctx).
Proof.
  intros ctx pos Hpos Hsize Hfit Hcap Hmax r buffer'.
  subst r buffer'. rewrite add_to_batch_unfold. fold ctx. fold pos.
  rewrite wrap_size_t_small
    by (unfold SIZE_MAX, PTRDIFF_MAX, SIZE_WIDTH in *; lia).
  destruct (Z.gtb_spec (pos + size) (batch_size (config ctx))); [lia |].
  cbn [fst snd sys_ctx batch_buffer set_current_batch_pos set_batch_buffer].
  split; [reflexivity |].
  apply memcpy_parts; lia.
Qed.

Lemma add_to_batch_stores_data_witness :
  (0 <= current_batch_pos (sys_ctx small)
   /\ Z.of_nat (length [Byte.x01; Byte.x02]) = 2
   /\ current_batch_pos (sys_ctx small) + 2 <= batch_size (config (sys_ctx small))
   /\ batch_size (config (sys_ctx small))
      = Z.of_nat (length (batch_buffer (sys_ctx small)))
   /\ batch_size (config (sys_ctx small)) <= PTRDIFF_MAX)
  /\ take (Z.to_nat 2)
       (drop (Z.to_nat (current_batch_pos (sys_ctx small)))
          (batch_buffer (sys_ctx (snd (add_to_batch [Byte.x01; Byte.x02] 2 small)))))
     = [Byte.x01; Byte.x02].
Proof.
  assert (H1 : 0 <= current_batch_pos (sys_ctx small)) by (vm_compute; discriminate).
  assert (H2 : Z.of_nat (length [Byte.x01; Byte.x02]) = 2) by reflexivity.
  assert (H3 : current_batch_pos (sys_ctx small) + 2 <= batch_size (config (sys_ctx small)))
    by (vm_compute; discriminate).
  assert (H4 : batch_size (config (sys_ctx small))
               = Z.of_nat (length (batch_buffer (sys_ctx small)))) by reflexivity.
  assert (H5 : batch_size (config (sys_ctx small)) <= PTRDIFF_MAX)
    by (vm_compute; discriminate).
  split; [auto |].
  exact (proj1 (proj2 (proj2 (proj2
           (add_to_batch_stores_data small [Byte.x01; Byte.x02] 2 H1 H2 H3 H4 H5))))).
Defined.

Lemma update_batch_stats_ring_step (now processed failed stray : Z) (s : Sys) :
  let ctx := sys_ctx s in
  0 <= current_batch ctx < batch_stats_size ctx ->
  batch_stats_size ctx = Z.of_nat (length (batch_stats ctx)) ->
  batch_stats_size ctx <= PTRDIFF_MAX ->
  let ctx' := sys_ctx (snd (update_batch_stats now processed failed stray s)) in
  batch_stats ctx'
  = <[Z.to_nat (current_batch ctx) := mkBatchStats processed failed now]> (batch_stats ctx)
  /\ batch_stats ctx' !! Z.to_nat (current_batch ctx)
     = Some (mkBatchStats processed failed now)
  /\ current_batch ctx' = (current_batch ctx + 1) mod batch_stats_size ctx
  /\ 0 <= current_batch ctx' < batch_stats_size ctx'
  /\ batch_stats_size ctx' = batch_stats_size ctx
  /\ batch_stats_size ctx' = Z.of_nat (length (batch_stats ctx')).
Proof.
  intros ctx Hcb Hsize Hmax ctx'.
  assert (Hring : batch_stats ctx'
                  = <[Z.to_nat (current_batch ctx) := mkBatchStats processed failed now]>
                      (batch_stats ctx)
                  /\ current_batch ctx' = (current_batch ctx + 1) mod batch_stats_size ctx
                  /\ batch_stats_size ctx' = batch_stats_size ctx).
  { assert (Hstore : ring_store (batch_stats ctx) (current_batch ctx)
                       (mkBatchStats processed failed now)
                     = <[Z.to_nat (current_batch ctx) := mkBatchStats processed failed now]>
                         (batch_stats ctx)).
    { unfold ring_store.
      destruct (Z.leb_spec 0 (current_batch ctx)); [| lia].
      destruct (Z.ltb_spec (current_batch ctx) (Z.of_nat (length (batch_stats ctx))));
        [reflexivity | lia]. }
    rewrite <- Hstore.
    rewrite <- (wrap_size_t_small (current_batch ctx + 1))
      by (unfold SIZE_MAX, PTRDIFF_MAX, SIZE_WIDTH in *; lia).
    subst ctx' ctx.
    unfold update_batch_stats, bind, modify_ctx, modify_stats, get_ctx, ret.
    cbn.
    destruct (wrap_size_t (batches_processed (stats (sys_ctx s)) + 1) >? 1);
      cbn; repeat split. }
  destruct Hring as (Hstats & Hnext & Hsame).
  rewrite Hstats, Hnext, Hsame.
  split; [reflexivity |].
  split; [apply list_lookup_insert_eq; lia |].
  split; [reflexivity |].
  split; [apply Z.mod_pos_bound; lia |].
  split; [reflexivity |].
  rewrite length_insert. exact Hsize.
Qed.

(** X6. With the ring position inside the ring, [update_batch_stats]
    stores the record of the batch at that position, leaves the other
    records and the size of the ring alone, and advances the position
    by one modulo the size of the ring, so that it stays inside. *)
Theorem update_batch_stats_ring (now processed failed stray : Z) (s : Sys) :
  let ctx := sys_ctx s in
  0 <= current_batch ctx < batch_stats_size ctx ->
  batch_stats_size ctx = Z.of_nat (length (batch_stats ctx)) ->
  batch_stats_size ctx <= PTRDIFF_MAX ->
  let ctx' := sys_ctx (snd (update_batch_stats now processed failed stray s)) in
  batch_stats ctx'
  = <[Z.to_nat (current_batch ctx) := mkBatchStats processed failed now]> (batch_stats ctx)
  /\ batch_stats ctx' !! Z.to_nat (current_batch ctx)
     = Some (mkBatchStats processed failed now)
  /\ current_batch ctx' = (current_batch ctx + 1) mod batch_stats_size ctx
  /\ 0 <= current_batch ctx' < batch_stats_size ctx'
  /\ batch_stats_size ctx' = batch_stats_size ctx
  /\ batch_stats_size ctx' = Z.of_nat (length (batch_stats ctx')).
Proof. apply update_batch_stats_ring_step. Qed.

Lemma update_batch_stats_ring_witness :
  (0 <= current_batch (sys_ctx small) < batch_stats_size (sys_ctx small)
   /\ batch_stats_size (sys_ctx small) = Z.of_nat (length (batch_stats (sys_ctx small)))
   /\ batch_stats_size (sys_ctx small) <= PTRDIFF_MAX)
  /\ batch_stats (sys_ctx (snd (update_batch_stats 500 7 0 0 small)))
       !! Z.to_nat (current_batch (sys_ctx small))
     = Some (mkBatchStats 7 0 500).
Proof.
  assert (H1 : 0 <= current_batch (sys_ctx small) < batch_stats_size (sys_ctx small))
    by (vm_compute; split; [discriminate | reflexivity]).
  assert (H2 : batch_stats_size (sys_ctx small)
               = Z.of_nat (length (batch_stats (sys_ctx small)))) by reflexivity.
  assert (H3 : batch_stats_size (sys_ctx small) <= PTRDIFF_MAX)
    by (vm_compute; discriminate).
  split; [auto |].
  exact (proj1 (proj2 (update_batch_stats_ring 500 7 0 0 small H1 H2 H3))).
Defined.

(** X7. The ring position advances by one per recorded batch, modulo
    the size of the ring: after as many batches as the ring has
    records it is back where it was. *)
Theorem update_batch_stats_all_position (calls : list (Z * Z * Z * Z)) (s : Sys) :
  0 <= current_batch (sys_ctx s) < batch_stats_size (sys_ctx s) ->
  batch_stats_size (sys_ctx s) = Z.of_nat (length (batch_stats (sys_ctx s))) ->
  batch_stats_size (sys_ctx s) <= PTRDIFF_MAX ->
  let ctx' := sys_ctx (update_batch_stats_all calls s) in
  current_batch ctx'
  = (current_batch (sys_ctx s) + Z.of_nat (length calls)) mod batch_stats_size (sys_ctx s)
  /\ batch_stats_size ctx' = batch_stats_size (sys_ctx s)
  /\ length (batch_stats ctx') = length (batch_stats (sys_ctx s))
  /\ (Z.of_nat (length calls) = batch_stats_size (sys_ctx s) ->
      current_batch ctx' = current_batch (sys_ctx s)).
Proof.
  revert s. induction calls as [| [[[now processed] failed] stray] calls IH];
    intros s Hcb Hsize Hmax; cbv zeta.
  - cbn [update_batch_stats_all fold_left length].
    rewrite Z.add_0_r, Z.mod_small by lia.
    repeat split.
  - cbn [update_batch_stats_all fold_left].
    destruct (update_batch_stats_ring_step now processed failed stray s Hcb Hsize Hmax)
      as (Hring & _ & Hnext & Hin & Hsame & Hlen).
    set (s1 := snd (update_batch_stats now processed failed stray s)) in *.
    specialize (IH s1 Hin Hlen ltac:(lia)). cbv zeta in IH.
    destruct IH as (Hpos & Hsz & Hl & _).
    fold (update_batch_stats_all calls s1).
    assert (Hgoal : current_batch (sys_ctx (update_batch_stats_all calls s1))
                    = (current_batch (sys_ctx s) + Z.of_nat (length ((now, processed, failed, stray) :: calls)))
                      mod batch_stats_size (sys_ctx s)).
    { rewrite Hpos, Hnext, Hsame.
      rewrite Zplus_mod_idemp_l. f_equal. cbn [length]. lia. }
    split; [exact Hgoal |].
    split; [lia |].
    split; [rewrite Hl, Hring, length_insert; reflexivity |].
    intros Hfull. rewrite Hgoal, Hfull.
    rewrite <- (Z.mul_1_l (batch_stats_size (sys_ctx s))) at 1.
    rewrite Z.mod_add by lia. apply Z.mod_small. lia.
Qed.

Lemma update_batch_stats_all_position_witness :
  (0 <= current_batch (sys_ctx small) < batch_stats_size (sys_ctx small)
   /\ batch_stats_size (sys_ctx small) = Z.of_nat (length (batch_stats (sys_ctx small)))
   /\ batch_stats_size (sys_ctx small) <= PTRDIFF_MAX)
  /\ current_batch
       (sys_ctx (update_batch_stats_all
                   [(1, 8, 0, 0); (2, 8, 0, 0); (3, 8, 0, 0); (4, 8, 0, 0)] small))
     = current_batch (sys_ctx small).
Proof.
  assert (H1 : 0 <= current_batch (sys_ctx small) < batch_stats_size (sys_ctx small))
    by (vm_compute; split; [discriminate | reflexivity]).
  assert (H2 : batch_stats_size (sys_ctx small)
               = Z.of_nat (length (batch_stats (sys_ctx small)))) by reflexivity.
  assert (H3 : batch_stats_size (sys_ctx small) <= PTRDIFF_MAX)
    by (vm_compute; discriminate).
  split; [auto |].
  apply (update_batch_stats_all_position
           [(1, 8, 0, 0); (2, 8, 0, 0); (3, 8, 0, 0); (4, 8, 0, 0)] small H1 H2 H3).
  reflexivity.
Defined.

(** ** What a flush ships *)

(** The flush in terms of the outcome of its chunked write. *)
Lemma flush_batch_copy_result (pq : Libpq) (now : Z) (wakes : list (list release))
    (p0 f0 : Z) (s s1 s2 : Sys) (c : PGconn) (tw : Z) (written : bool) :
  0 < current_batch_pos (sys_ctx s) <= SIZE_MAX ->
  get_connection pq now wakes s = (Some c, s1) ->
  PQexec pq c "BEGIN" = true ->
  PQexecPrepared pq c = true ->
  copy_loop pq (copy_fuel (current_batch_pos (sys_ctx s))) c 0 0 0 s1
  = (Some (tw, written), s2) ->
  0 <= tw <= current_batch_pos (sys_ctx s) ->
  batch_view (sys_ctx s2) = batch_view (sys_ctx s1) ->
  let pos := current_batch_pos (sys_ctx s) in
  let ok := written && (PQputCopyEnd pq c =? 1) && PQexec pq c "COMMIT" in
  exists s' : Sys,
    flush_batch pq now wakes p0 f0 s
    = (Some (ok, tw, if ok then 0 else pos - tw), s')
    /\ current_batch_pos (sys_ctx s') = 0
    /\ batches_processed (sys_stats s')
       = wrap_size_t (batches_processed (sys_stats s) + 1)
    /\ total_bytes (sys_stats s') = wrap_size_t (total_bytes (sys_stats s) + tw)
    /\ errors (sys_stats s')
       = (if negb ok && (tw <? pos) then wrap_size_t (errors (sys_stats s) + 1)
          else errors (sys_stats s))
    /\ (forall r, In r (sys_stderr s2) -> In r (sys_stderr s')).
Proof.
  intros Hpos Hget Hbegin Hcopy Hloop Htw Hview2 pos ok.
  fold pos in Hloop, Htw, Hpos.
  pose proof (keeps_get_connection pq now wakes s) as Hview1.
  rewrite Hget in Hview1. cbn [snd] in Hview1.
  pose proof (batch_view_pos _ _ Hview1) as Hpos1. fold pos in Hpos1.
  pose proof (batch_view_pos _ _ Hview2) as Hpos2. rewrite Hpos1 in Hpos2.
  unfold flush_batch, bind at 1, get_ctx. cbn [fst snd]. fold pos.
  destruct (Z.eqb_spec pos 0) as [Hzero | _]; [lia |].
  unfold bind at 1. rewrite Hget, Hbegin, Hcopy. cbn [negb].
  unfold bind at 1. rewrite Hloop.
  set (finish := if written then _ else _).
  assert (Hfinish : exists s3 : Sys,
             finish s2 = (ok, s3) /\ sys_ctx s3 = sys_ctx s2
             /\ (forall r, In r (sys_stderr s2) -> In r (sys_stderr s3))).
  { subst finish ok. destruct written; [| exists s2; repeat split; auto].
    cbn [andb].
    destruct (PQputCopyEnd pq c =? 1); cbn [negb andb];
      [| eexists; split; [reflexivity |]; split; [reflexivity |];
         intros r Hr; cbn; apply in_or_app; left; exact Hr].
    destruct (PQexec pq c "COMMIT"); cbn [negb];
      [exists s2; repeat split; auto |].
    eexists; split; [reflexivity |]; split; [reflexivity |].
    intros r Hr; cbn; apply in_or_app; left; exact Hr. }
  destruct Hfinish as (s3 & Hfin & Hctx3 & Hlog3).
  unfold bind at 1. rewrite Hfin.
  unfold bind at 1, get_ctx. cbn [fst snd].
  rewrite Hctx3, Hpos2.
  assert (Hfailed : (if negb ok then wrap_size_t (pos - tw) else 0)
                    = if ok then 0 else pos - tw).
  { destruct ok; [reflexivity |]. apply wrap_size_t_small. lia. }
  rewrite Hfailed.
  unfold bind at 1, modify_stats at 1, modify_ctx at 1. cbn [fst snd].
  unfold bind at 1, modify_stats at 1, modify_ctx at 1. cbn [fst snd].
  unfold bind at 1.
  destruct (when _ _ _) as [u s4] eqn:Hwhen.
  unfold bind at 1.
  pose proof (keeps_return_connection pq c (negb ok) s4) as Hview5.
  assert (Hlog5 : forall r, In r (sys_stderr s4) ->
                    In r (sys_stderr (snd (return_connection pq c (negb ok) s4)))).
  { intros r Hr. rewrite return_connection_unfold.
    destruct (find_pool_connection (sys_ctx s4) c) as [i |]; [| exact Hr].
    destruct (pool (sys_ctx s4) !! i) as [pc |]; [| exact Hr].
    cbv zeta. destruct (negb ok); [| exact Hr].
    destruct (failed_attempts pc + 1 >=? CONNECTION_DEAD_THRESHOLD); [| exact Hr].
    rewrite mark_connection_dead_unfold.
    destruct (pool _ !! i) as [pc' |]; [| exact Hr].
    destruct (is_dead (state pc')); [exact Hr |].
    cbn. apply in_or_app. left. exact Hr. }
  destruct (return_connection pq c (negb ok) s4) as [u' s5]. cbn [snd] in Hview5, Hlog5.
  unfold bind, modify_ctx, ret. cbn [fst snd].
  eexists. split; [reflexivity |].
  split; [reflexivity |].
  destruct (batch_view_stats _ _ Hview5) as (Htb & Hbp & Her).
  destruct (batch_view_stats _ _ Hview2) as (Htb2 & Hbp2 & Her2).
  destruct (batch_view_stats _ _ Hview1) as (Htb1 & Hbp1 & Her1).
  unfold sys_stats. cbn [sys_ctx sys_stderr stats set_current_batch_pos].
  rewrite Htb, Hbp, Her.
  unfold when in Hwhen.
  assert (Hcond : ((if ok then 0 else pos - tw) >? 0) = negb ok && (tw <? pos)).
  { destruct ok; cbn [negb andb]; [reflexivity |].
    destruct (Z.gtb_spec (pos - tw) 0), (Z.ltb_spec tw pos); try reflexivity; lia. }
  rewrite Hcond in Hwhen.
  assert (Hlog4 : sys_stderr s4 = sys_stderr s3)
    by (destruct (negb ok && (tw <? pos)); inversion Hwhen; reflexivity).
  destruct (negb ok && (tw <? pos)); inversion Hwhen; subst s4; cbn;
    rewrite Hctx3; cbn; rewrite Htb2, Hbp2, Her2, Htb1, Hbp1, Her1;
    repeat split; intros r Hr; apply Hlog5; cbn; apply Hlog3; exact Hr.
Qed.

Lemma copy_loop_all_written (pq : Libpq) (fuel : nat) :
  forall (c : PGconn) (k : nat) (tw rc : Z) (s : Sys),
    (forall j : nat, PQputCopyData pq j = 1) ->
    0 <= tw <= current_batch_pos (sys_ctx s) ->
    current_batch_pos (sys_ctx s) <= SIZE_MAX ->
    (tw < current_batch_pos (sys_ctx s) ->
     6 * (current_batch_pos (sys_ctx s) - tw) + COPY_CHUNK_SIZE * 7
     <= COPY_CHUNK_SIZE * Z.of_nat fuel) ->
    (1 <= fuel)%nat ->
    exists s' : Sys,
      copy_loop pq fuel c k tw rc s = (Some (current_batch_pos (sys_ctx s), true), s')
      /\ sys_ctx s' = sys_ctx s.
Proof.
  induction fuel as [| fuel IH]; intros c k tw rc s Hput Htw Hmax Hfuel Hone; [lia |].
  cbn [copy_loop]. unfold bind at 1, get_ctx. cbn [fst snd].
  set (pos := current_batch_pos (sys_ctx s)) in *.
  destruct (Z.ltb_spec tw pos) as [Hlt | Hge].
  2:{ exists s. unfold ret. assert (tw = pos) as -> by lia. split; reflexivity. }
  specialize (Hfuel Hlt). cbv zeta. unfold COPY_CHUNK_SIZE in *.
  rewrite Hput. cbn [Z.eqb Pos.eqb].
  set (chunk := if pos - tw >? 8 * 1024 then 8 * 1024 else pos - tw).
  assert (Hchunk : 0 < chunk <= pos - tw /\ (chunk < pos - tw -> chunk = 8 * 1024)).
  { subst chunk. destruct (Z.gtb_spec (pos - tw) (8 * 1024)); lia. }
  rewrite (wrap_size_t_small (tw + chunk)) by lia.
  unfold bind at 1.
  destruct (when _ _ s) as [u s1] eqn:Hwhen.
  assert (Hs1 : sys_ctx s1 = sys_ctx s).
  { unfold when in Hwhen. destruct (_ =? 0) in Hwhen; inversion Hwhen; reflexivity. }
  destruct (IH c (S k) (tw + chunk) 0 s1 Hput) as (s' & Hrun & Hctx).
  - rewrite Hs1. fold pos. lia.
  - rewrite Hs1. exact Hmax.
  - rewrite Hs1. fold pos. intros Hmore. assert (chunk = 8 * 1024) by lia. lia.
  - assert (chunk < pos - tw \/ chunk = pos - tw) as [Hmore | Hlast] by lia; lia.
  - exists s'. rewrite Hrun, Hctx, Hs1. split; reflexivity.
Qed.


(** X8. When the database accepts everything, a flush ships the whole
    buffer: it returns true with [processed] the number of bytes that
    were in the buffer and [failed] zero, empties the buffer and
    counts one batch and no error. *)
Theorem flush_batch_ships_everything (pq : Libpq) (now : Z)
    (wakes : list (list release)) (p0 f0 : Z) (s s1 : Sys) (c : PGconn) :
  0 < current_batch_pos (sys_ctx s) <= SIZE_MAX ->
  get_connection pq now wakes s = (Some c, s1) ->
  PQexec pq c "BEGIN" = true ->
  PQexecPrepared pq c = true ->
  (forall k : nat, PQputCopyData pq k = 1) ->
  PQputCopyEnd pq c = 1 ->
  PQexec pq c "COMMIT" = true ->
  exists s' : Sys,
    flush_batch pq now wakes p0 f0 s
    = (Some (true, current_batch_pos (sys_ctx s), 0), s')
    /\ current_batch_pos (sys_ctx s') = 0
    /\ batches_processed (sys_stats s')
       = wrap_size_t (batches_processed (sys_stats s) + 1)
    /\ total_bytes (sys_stats s')
       = wrap_size_t (total_bytes (sys_stats s) + current_batch_pos (sys_ctx s))
    /\ errors (sys_stats s') = errors (sys_stats s).
Proof.
  intros Hpos Hget Hbegin Hcopy Hput Hend Hcommit.
  pose proof (keeps_get_connection pq now wakes s) as Hview1.
  rewrite Hget in Hview1. cbn [snd] in Hview1.
  pose proof (batch_view_pos _ _ Hview1) as Hpos1.
  destruct (copy_fuel_enough (current_batch_pos (sys_ctx s)) ltac:(lia)) as [Hfuel Hone].
  destruct (copy_loop_all_written pq (copy_fuel (current_batch_pos (sys_ctx s)))
              c 0 0 0 s1 Hput) as (s2 & Hloop & Hctx2);
    rewrite ?Hpos1; try lia.
  rewrite Hpos1 in Hloop.
  destruct (flush_batch_copy_result pq now wakes p0 f0 s s1 s2 c _ true
              Hpos Hget Hbegin Hcopy Hloop ltac:(lia) ltac:(rewrite Hctx2; reflexivity))
    as (s' & Hflush & Hzero & Hbp & Htb & Her & _).
  rewrite Hend, Hcommit in *. cbn in Hflush, Her.
  exists s'. repeat split; assumption.
Qed.


Lemma small_loaded_position :
  0 < current_batch_pos (sys_ctx small_loaded) <= SIZE_MAX.
Proof. vm_compute. split; [reflexivity | discriminate]. Qed.


Lemma small_loaded_acquires_good :
  get_connection pq_good 200 [] small_loaded
  = (Some 1000, snd (get_connection pq_good 200 [] small_loaded)).
Proof.
  assert (H : fst (get_connection pq_good 200 [] small_loaded) = Some 1000)
    by reflexivity.
  destruct (get_connection pq_good 200 [] small_loaded) as [r s1].
  cbn [fst snd] in *. rewrite H. reflexivity.
Qed.

Lemma flush_batch_ships_everything_witness :
  (0 < current_batch_pos (sys_ctx small_loaded) <= SIZE_MAX
   /\ PQexec pq_good 1000 "BEGIN" = true
   /\ PQexecPrepared pq_good 1000 = true
   /\ (forall k : nat, PQputCopyData pq_good k = 1)
   /\ PQputCopyEnd pq_good 1000 = 1
   /\ PQexec pq_good 1000 "COMMIT" = true)
  /\ fst (flush_batch pq_good 200 [] 0 0 small_loaded)
     = Some (true, current_batch_pos (sys_ctx small_loaded), 0).
Proof.
  split; [repeat split; try reflexivity; apply small_loaded_position |].
  destruct (flush_batch_ships_everything pq_good 200 [] 0 0 small_loaded _ 1000
              small_loaded_position small_loaded_acquires_good
              eq_refl eq_refl (fun _ => eq_refl) eq_refl eq_refl)
    as (s' & Hflush & _).
  rewrite Hflush. reflexivity.
Defined.






(** ** The connection pool *)

Lemma find_seq_first (f : nat -> bool) (n : nat) :
  forall a : nat,
    match List.find f (seq a n) with
    | Some i =>
        (a <= i < a + n)%nat /\ f i = true
        /\ forall j : nat, (a <= j < i)%nat -> f j = false
    | None => forall j : nat, (a <= j < a + n)%nat -> f j = false
    end.
Proof.
  induction n as [| n IH]; intros a; cbn [seq List.find]; [intros j Hj; lia |].
  destruct (f a) eqn:Hfa.
  - split; [lia |]. split; [exact Hfa |]. intros j Hj. lia.
  - specialize (IH (S a)). destruct (List.find f (seq (S a) n)) as [i |].
    + destruct IH as (Hi & Hfi & Hmin). split; [lia |]. split; [exact Hfi |].
      intros j Hj. destruct (Nat.eq_dec j a) as [-> | Hne]; [exact Hfa |].
      apply Hmin. lia.
    + intros j Hj. destruct (Nat.eq_dec j a) as [-> | Hne]; [exact Hfa |].
      apply IH. lia.
Qed.

(** X12. [find_pool_connection] gives the first slot of the pool that
    holds the connection, and nothing exactly when no slot holds it. *)
Theorem find_pool_connection_first (ctx : HydrantContext) (c : PGconn) :
  match find_pool_connection ctx c with
  | Some i =>
      (i < MAX_POOL_SIZE)%nat
      /\ (exists pc, pool ctx !! i = Some pc /\ conn pc = c)
      /\ (forall (j : nat) (pc : PoolConnection),
             (j < i)%nat -> pool ctx !! j = Some pc -> conn pc <> c)
  | None =>
      forall (j : nat) (pc : PoolConnection),
        (j < MAX_POOL_SIZE)%nat -> pool ctx !! j = Some pc -> conn pc <> c
  end.
Proof.
  unfold find_pool_connection.
  set (f := fun i : nat => match pool ctx !! i with
                           | Some pc => conn pc =? c
                           | None => false
                           end).
  pose proof (find_seq_first f MAX_POOL_SIZE 0) as H.
  assert (Hneq : forall j pc, f j = false -> pool ctx !! j = Some pc -> conn pc <> c).
  { intros j pc Hf Hj. subst f. cbn in Hf. rewrite Hj in Hf.
    apply Z.eqb_neq. exact Hf. }
  destruct (List.find f (seq 0 MAX_POOL_SIZE)) as [i |].
  - destruct H as (Hi & Hfi & Hmin). split; [lia |]. split.
    + subst f. cbn in Hfi. destruct (pool ctx !! i) as [pc |]; [| discriminate].
      exists pc. split; [reflexivity | apply Z.eqb_eq; exact Hfi].
    + intros j pc Hj Hpc. apply (Hneq j pc); [apply Hmin; lia | exact Hpc].
  - intros j pc Hj Hpc. apply (Hneq j pc); [apply H; lia | exact Hpc].
Qed.

Lemma recover_dead_connection_unfold (pq : Libpq) (now : Z) (i : nat) (s : Sys) :
  recover_dead_connection pq now i s =
  match pool (sys_ctx s) !! i with
  | None => (false, s)
  | Some pc =>
      if now <? next_recovery_attempt pc then (false, s)
      else if recovery_attempts pc >=? MAX_RECOVERY_ATTEMPTS then
        (false,
         if ConnectionState_eqb (state pc) CONN_PERMANENT_FAILURE then s
         else mkSys (with_slot i (set_state CONN_PERMANENT_FAILURE) id (sys_ctx s))
                (sys_stderr s ++ [permanent_failure_log pc]))
      else
        let c := PQconnectdb pq i in
        let log := sys_stderr s ++ [recovery_attempt_log pc] in
        let ra := recovery_attempts pc + 1 in
        if negb (PQstatus pq c) then
          (false,
           mkSys
             (with_slot i
                (set_next_recovery_attempt (now + recovery_backoff ra)
                 ∘ set_last_error
                     (snprintf MAX_ERROR_LENGTH
                        (String.append "Recovery failed: " (PQerrorMessage pq c)))
                 ∘ set_recovery_attempts ra ∘ set_conn c)
                (fun st => set_connection_failures
                             (wrap_size_t (connection_failures st + 1)) st)
                (sys_ctx s))
             log)
        else if require_ssl (config (sys_ctx s)) && negb (PQsslInUse pq c) then
          (false,
           mkSys
             (with_slot i
                (set_recovery_attempts ra
                 ∘ set_last_error
                     (snprintf MAX_ERROR_LENGTH
                        "Recovery failed: SSL required but not in use")
                 ∘ set_conn c)
                id (sys_ctx s))
             log)
        else if negb (PQprepare pq c) then
          (false,
           mkSys
             (with_slot i
                (set_recovery_attempts ra
                 ∘ set_last_error
                     (snprintf MAX_ERROR_LENGTH
                        (String.append "Failed to prepare statement: "
                           (PQerrorMessage pq c)))
                 ∘ set_conn c)
                id (sys_ctx s))
             log)
        else
          (true,
           mkSys
             (set_healthy_connections
                (wrap_size_t (healthy_connections (sys_ctx s) + 1))
                (with_slot i
                   (set_state CONN_AVAILABLE ∘ set_next_recovery_attempt 0
                    ∘ set_recovery_attempts 0 ∘ set_failed_attempts 0 ∘ set_conn c)
                   (fun st => set_connection_resets
                                (wrap_size_t (connection_resets st + 1)) st)
                   (sys_ctx s)))
             (log ++ [recovered_log]))
  end.
Proof.
  unfold recover_dead_connection, bind at 1, get_ctx. cbn [fst snd].
  destruct (pool (sys_ctx s) !! i) as [pc |]; [| reflexivity].
  destruct (now <? next_recovery_attempt pc); [reflexivity |].
  destruct (recovery_attempts pc >=? MAX_RECOVERY_ATTEMPTS).
  { destruct (ConnectionState_eqb (state pc) CONN_PERMANENT_FAILURE);
      destruct s as [ctx log]; destruct ctx; reflexivity. }
  cbv zeta. unfold with_slot.
  destruct (negb (PQstatus pq (PQconnectdb pq i))).
  { unfold bind, modify_slot, modify_stats, modify_ctx, structured_log, ret.
    cbn [fst snd sys_ctx sys_stderr pool set_pool set_stats stats].
    rewrite !list_alter_alter_eq. reflexivity. }
  destruct (require_ssl (config (sys_ctx s)) && negb (PQsslInUse pq (PQconnectdb pq i))).
  { unfold bind, modify_slot, modify_stats, modify_ctx, structured_log, ret.
    cbn [fst snd sys_ctx sys_stderr pool set_pool set_stats stats].
    rewrite !list_alter_alter_eq.
    destruct s as [ctx log]; destruct ctx as [? ? ? ? ? ? ? ? ? ? []]; reflexivity. }
  destruct (negb (PQprepare pq (PQconnectdb pq i))).
  { unfold bind, modify_slot, modify_stats, modify_ctx, structured_log, ret.
    cbn [fst snd sys_ctx sys_stderr pool set_pool set_stats stats].
    rewrite !list_alter_alter_eq.
    destruct s as [ctx log]; destruct ctx as [? ? ? ? ? ? ? ? ? ? []]; reflexivity. }
  unfold bind, modify_slot, modify_stats, modify_ctx, structured_log, ret.
  cbn [fst snd sys_ctx sys_stderr pool set_pool set_stats stats set_healthy_connections
       healthy_connections].
  rewrite !list_alter_alter_eq. reflexivity.
Qed.

Lemma recover_dead_connection_shape (pq : Libpq) (now : Z) (i : nat) (s : Sys)
    (pc : PoolConnection) :
  pool (sys_ctx s) !! i = Some pc ->
  exists f : PoolConnection -> PoolConnection,
    pool (sys_ctx (snd (recover_dead_connection pq now i s)))
    = alter f i (pool (sys_ctx s))
    /\ (if fst (recover_dead_connection pq now i s) then
          state (f pc) = CONN_AVAILABLE
          /\ conn (f pc) = PQconnectdb pq i
          /\ PQstatus pq (PQconnectdb pq i) = true
          /\ healthy_connections (sys_ctx (snd (recover_dead_connection pq now i s)))
             = wrap_size_t (healthy_connections (sys_ctx s) + 1)
        else
          healthy_connections (sys_ctx (snd (recover_dead_connection pq now i s)))
          = healthy_connections (sys_ctx s)
          /\ (state (f pc) = state pc \/ state (f pc) = CONN_PERMANENT_FAILURE)).
Proof.
  intros Hi. rewrite recover_dead_connection_unfold, Hi.
  assert (Hid : pool (sys_ctx s) = alter id i (pool (sys_ctx s)))
    by (symmetry; apply list_alter_id; reflexivity).
  destruct (now <? next_recovery_attempt pc);
    [exists id; cbn; split; [exact Hid | auto] |].
  destruct (recovery_attempts pc >=? MAX_RECOVERY_ATTEMPTS).
  { destruct (ConnectionState_eqb (state pc) CONN_PERMANENT_FAILURE);
      [exists id; cbn; split; [exact Hid | auto] |].
    eexists. cbn. split; [reflexivity |]. cbn. auto. }
  cbv zeta.
  destruct (PQstatus pq (PQconnectdb pq i)) eqn:Hstatus; cbn [negb];
    [| eexists; cbn; split; [reflexivity |]; cbn; auto].
  destruct (require_ssl (config (sys_ctx s)) && negb (PQsslInUse pq (PQconnectdb pq i)));
    [eexists; cbn; split; [reflexivity |]; cbn; auto |].
  destruct (negb (PQprepare pq (PQconnectdb pq i)));
    [eexists; cbn; split; [reflexivity |]; cbn; auto |].
  eexists. cbn. split; [reflexivity |]. cbn. auto.
Qed.

Lemma scan_available_cons (pq : Libpq) (now : Z) (i : nat) (rest : list nat) (s : Sys) :
  scan_available pq now (i :: rest) s =
  match pool (sys_ctx s) !! i with
  | Some pc =>
      if ConnectionState_eqb (state pc) CONN_AVAILABLE && PQstatus pq (conn pc) then
        (Some (conn pc),
         mkSys
           (set_pool
              (alter (set_last_used now ∘ set_state CONN_IN_USE) i (pool (sys_ctx s)))
              (sys_ctx s))
           (sys_stderr s))
      else scan_available pq now rest s
  | None => scan_available pq now rest s
  end.
Proof.
  cbn [scan_available]. unfold bind at 1, get_ctx. cbn [fst snd].
  destruct (pool (sys_ctx s) !! i) as [pc |]; [| reflexivity].
  destruct (ConnectionState_eqb (state pc) CONN_AVAILABLE && PQstatus pq (conn pc));
    [| reflexivity].
  unfold bind, modify_slot, modify_ctx, ret.
  cbn [fst snd sys_ctx sys_stderr pool set_pool].
  rewrite list_alter_alter_eq. reflexivity.
Qed.

Lemma scan_available_shape (pq : Libpq) (now : Z) (idx : list nat) (s : Sys) :
  match fst (scan_available pq now idx s) with
  | None => snd (scan_available pq now idx s) = s
  | Some c =>
      exists (i : nat) (pc : PoolConnection),
        In i idx /\ pool (sys_ctx s) !! i = Some pc
        /\ state pc = CONN_AVAILABLE /\ conn pc = c /\ PQstatus pq c = true
        /\ snd (scan_available pq now idx s)
           = mkSys
               (set_pool
                  (alter (set_last_used now ∘ set_state CONN_IN_USE) i
                     (pool (sys_ctx s)))
                  (sys_ctx s))
               (sys_stderr s)
  end.
Proof.
  induction idx as [| i rest IH]; [reflexivity |].
  assert (Hrest :
            match fst (scan_available pq now rest s) with
            | None => snd (scan_available pq now rest s) = s
            | Some c =>
                exists (i0 : nat) (pc : PoolConnection),
                  In i0 (i :: rest) /\ pool (sys_ctx s) !! i0 = Some pc
                  /\ state pc = CONN_AVAILABLE /\ conn pc = c /\ PQstatus pq c = true
                  /\ snd (scan_available pq now rest s)
                     = mkSys
                         (set_pool
                            (alter (set_last_used now ∘ set_state CONN_IN_USE) i0
                               (pool (sys_ctx s)))
                            (sys_ctx s))
                         (sys_stderr s)
            end).
  { destruct (fst (scan_available pq now rest s)); [| exact IH].
    destruct IH as (i0 & pc & Hin & H). exists i0, pc. split; [right; exact Hin | exact H]. }
  rewrite scan_available_cons.
  destruct (pool (sys_ctx s) !! i) as [pc |] eqn:Hi; [| exact Hrest].
  destruct (ConnectionState_eqb (state pc) CONN_AVAILABLE) eqn:Hst; [| exact Hrest].
  destruct (PQstatus pq (conn pc)) eqn:Hok; [| exact Hrest].
  cbn [andb fst snd].
  exists i, pc. split; [left; reflexivity |]. split; [exact Hi |].
  split; [destruct (state pc); try discriminate; reflexivity |].
  split; [reflexivity |]. split; [exact Hok | reflexivity].
Qed.

Lemma healthy_slots_same_pool (x y : HydrantContext) :
  pool x = pool y -> healthy_slots x = healthy_slots y.
Proof. intros H. unfold healthy_slots, count_state. rewrite H. reflexivity. Qed.

Lemma pool_invariant_alter (x y : HydrantContext) (i : nat) (pc : PoolConnection)
    (f : PoolConnection -> PoolConnection) :
  (i < MAX_POOL_SIZE)%nat ->
  pool x !! i = Some pc ->
  pool y = alter f i (pool x) ->
  healthy_connections y = healthy_connections x ->
  is_dead (state (f pc)) = is_dead (state pc) ->
  pool_invariant x -> pool_invariant y.
Proof.
  intros Hn Hi Hpool Hhealthy Hdead Hinv. unfold pool_invariant in *.
  rewrite Hhealthy, Hinv.
  rewrite (healthy_slots_same_pool y (set_pool (alter f i (pool x)) x)) by exact Hpool.
  rewrite (healthy_slots_alter x i pc f Hi Hn).
  unfold healthy_bit. rewrite Hdead. lia.
Qed.


Lemma scan_dead_cons (pq : Libpq) (now : Z) (i : nat) (rest : list nat) (s : Sys) :
  scan_dead pq now (i :: rest) s =
  match pool (sys_ctx s) !! i with
  | Some pc =>
      if ConnectionState_eqb (state pc) CONN_DEAD then
        let r := recover_dead_connection pq now i s in
        if fst r then
          (match alter (set_last_used now ∘ set_state CONN_IN_USE) i
                   (pool (sys_ctx (snd r))) !! i with
           | Some pc' => Some (conn pc')
           | None => None
           end,
           mkSys
             (set_pool
                (alter (set_last_used now ∘ set_state CONN_IN_USE) i
                   (pool (sys_ctx (snd r))))
                (sys_ctx (snd r)))
             (sys_stderr (snd r)))
        else scan_dead pq now rest (snd r)
      else scan_dead pq now rest s
  | None => scan_dead pq now rest s
  end.
Proof.
  cbn [scan_dead]. unfold bind at 1, get_ctx. cbn [fst snd].
  destruct (pool (sys_ctx s) !! i) as [pc |]; [| reflexivity].
  destruct (ConnectionState_eqb (state pc) CONN_DEAD); [| reflexivity].
  cbv zeta. unfold bind at 1.
  destruct (recover_dead_connection pq now i s) as [[|] s1]; [| reflexivity].
  unfold bind, modify_slot, modify_ctx, get_ctx, ret.
  cbn [fst snd sys_ctx sys_stderr pool set_pool].
  rewrite list_alter_alter_eq. reflexivity.
Qed.

Lemma state_eqb_dead (st : ConnectionState) :
  ConnectionState_eqb st CONN_DEAD = true <-> st = CONN_DEAD.
Proof. destruct st; cbn; split; intros H; try discriminate; reflexivity. Qed.

Lemma scan_dead_props (pq : Libpq) (now : Z) (idx : list nat) :
  forall s : Sys,
    (forall i, In i idx -> (i < MAX_POOL_SIZE)%nat) ->
    (forall (j : nat) (pc : PoolConnection),
        pool (sys_ctx s) !! j = Some pc -> state pc <> CONN_DEAD ->
        pool (sys_ctx (snd (scan_dead pq now idx s))) !! j = Some pc)
    /\ length (pool (sys_ctx (snd (scan_dead pq now idx s)))) = length (pool (sys_ctx s))
    /\ (pool_invariant (sys_ctx s) ->
        pool_invariant (sys_ctx (snd (scan_dead pq now idx s))))
    /\ (forall c : PGconn,
           fst (scan_dead pq now idx s) = Some c ->
           exists (i : nat) (pc pc' : PoolConnection),
             (i < MAX_POOL_SIZE)%nat
             /\ pool (sys_ctx s) !! i = Some pc /\ state pc = CONN_DEAD
             /\ pool (sys_ctx (snd (scan_dead pq now idx s))) !! i = Some pc'
             /\ conn pc' = c /\ state pc' = CONN_IN_USE /\ last_used pc' = now
             /\ PQstatus pq c = true).
Proof.
  induction idx as [| i rest IH]; intros s Hidx.
  { cbn. repeat split; auto. intros c H. discriminate H. }
  assert (Hrest : forall i0, In i0 rest -> (i0 < MAX_POOL_SIZE)%nat)
    by (intros i0 H0; apply Hidx; right; exact H0).
  rewrite scan_dead_cons.
  destruct (pool (sys_ctx s) !! i) as [pc |] eqn:Hi; [| apply IH; exact Hrest].
  destruct (ConnectionState_eqb (state pc) CONN_DEAD) eqn:Hdead;
    [| apply IH; exact Hrest].
  apply state_eqb_dead in Hdead.
  assert (Hn : (i < MAX_POOL_SIZE)%nat) by (apply Hidx; left; reflexivity).
  cbv zeta.
  destruct (recover_dead_connection_shape pq now i s pc Hi) as (f & Hpool & Hcase).
  set (s1 := snd (recover_dead_connection pq now i s)) in *.
  destruct (fst (recover_dead_connection pq now i s)).
  - (* recovered: the slot is handed out *)
    destruct Hcase as (Hst & Hconn & Hok & Hhealthy).
    cbn [fst snd sys_ctx pool set_pool].
    rewrite Hpool, list_alter_alter_eq.
    split; [| split; [| split]].
    + intros j pc0 Hj Hnd. destruct (Nat.eq_dec i j) as [<- | Hne].
      * rewrite Hi in Hj. injection Hj as <-. contradiction.
      * rewrite list_lookup_alter_ne by exact Hne. exact Hj.
    + apply length_alter.
    + intros Hinv. unfold pool_invariant in *.
      cbn [healthy_connections set_pool].
      rewrite (healthy_slots_same_pool _
                 (set_pool (alter ((set_last_used now ∘ set_state CONN_IN_USE) ∘ f) i
                              (pool (sys_ctx s))) (sys_ctx s))) by reflexivity.
      pose proof (healthy_slots_alter (sys_ctx s) i pc
                    ((set_last_used now ∘ set_state CONN_IN_USE) ∘ f) Hi Hn) as Hcount.
      pose proof (healthy_slots_bounds
                    (set_pool (alter ((set_last_used now ∘ set_state CONN_IN_USE) ∘ f) i
                                 (pool (sys_ctx s))) (sys_ctx s))) as Hb.
      pose proof (healthy_slots_bounds (sys_ctx s)) as Hb0.
      unfold healthy_bit in Hcount. rewrite Hdead in Hcount. cbn in Hcount.
      rewrite Hcount in *. rewrite Hhealthy, Hinv.
      rewrite wrap_size_t_small; [lia |].
      unfold SIZE_MAX, SIZE_WIDTH, MAX_POOL_SIZE in *. lia.
    + intros c Hc. rewrite list_lookup_alter_eq, Hi in Hc. cbn in Hc.
      injection Hc as <-.
      exists i, pc, ((set_last_used now ∘ set_state CONN_IN_USE) (f pc)).
      rewrite list_lookup_alter_eq, Hi. cbn.
      repeat split; try reflexivity; [exact Hn | exact Hdead |]. rewrite Hconn. exact Hok.
  - (* not recovered: on to the next slots *)
    destruct Hcase as (Hhealthy & Hstate).
    destruct (IH s1 Hrest) as (Hkeep & Hlen & Hinv1 & Hsome).
    split; [| split; [| split]].
    + intros j pc0 Hj Hnd. apply Hkeep; [| exact Hnd].
      rewrite Hpool. destruct (Nat.eq_dec i j) as [<- | Hne].
      * rewrite Hi in Hj. injection Hj as <-. contradiction.
      * rewrite list_lookup_alter_ne by exact Hne. exact Hj.
    + rewrite Hlen, Hpool. apply length_alter.
    + intros Hinv. apply Hinv1.
      apply (pool_invariant_alter (sys_ctx s) _ i pc f Hn Hi Hpool Hhealthy);
        [| exact Hinv].
      destruct Hstate as [-> | ->]; [reflexivity | rewrite Hdead; reflexivity].
    + intros c Hc. destruct (Hsome c Hc) as (i1 & pc1 & pc' & Hn1 & Hi1 & Hd1 & Hrest').
      rewrite Hpool in Hi1. destruct (Nat.eq_dec i i1) as [<- | Hne].
      * exists i, pc, pc'. split; [exact Hn |]. split; [exact Hi |].
        split; [exact Hdead | exact Hrest'].
      * rewrite list_lookup_alter_ne in Hi1 by exact Hne.
        exists i1, pc1, pc'. split; [exact Hn1 |]. split; [exact Hi1 |].
        split; [exact Hd1 | exact Hrest'].
Qed.

Lemma get_connection_unfold (pq : Libpq) (now : Z) (wakes : list (list release)) (s : Sys) :
  get_connection pq now wakes s =
  match fst (scan_available pq now (seq 0 MAX_POOL_SIZE) s) with
  | Some c => (Some c, snd (scan_available pq now (seq 0 MAX_POOL_SIZE) s))
  | None =>
      match fst (scan_dead pq now (seq 0 MAX_POOL_SIZE)
                   (snd (scan_available pq now (seq 0 MAX_POOL_SIZE) s))) with
      | Some c =>
          (Some c,
           snd (scan_dead pq now (seq 0 MAX_POOL_SIZE)
                  (snd (scan_available pq now (seq 0 MAX_POOL_SIZE) s))))
      | None =>
          wait_loop pq now wakes
            (snd (scan_dead pq now (seq 0 MAX_POOL_SIZE)
                    (snd (scan_available pq now (seq 0 MAX_POOL_SIZE) s))))
      end
  end.
Proof.
  unfold get_connection, bind, ret.
  destruct (scan_available pq now (seq 0 MAX_POOL_SIZE) s) as [[c |] s1];
    cbn [fst snd]; [reflexivity |].
  destruct (scan_dead pq now (seq 0 MAX_POOL_SIZE) s1) as [[c |] s2];
    cbn [fst snd]; reflexivity.
Qed.

Lemma scan_available_handed_out (pq : Libpq) (now : Z) (s : Sys) (c : PGconn) :
  fst (scan_available pq now (seq 0 MAX_POOL_SIZE) s) = Some c ->
  handed_out pq now c (snd (scan_available pq now (seq 0 MAX_POOL_SIZE) s)).
Proof.
  intros Hc. pose proof (scan_available_shape pq now (seq 0 MAX_POOL_SIZE) s) as H.
  rewrite Hc in H. destruct H as (i & pc & Hin & Hi & Hst & Hconn & Hok & Hs').
  rewrite Hs'. apply List.in_seq in Hin.
  exists i, ((set_last_used now ∘ set_state CONN_IN_USE) pc).
  cbn [sys_ctx pool set_pool]. rewrite list_lookup_alter_eq, Hi. cbn.
  repeat split; try assumption; lia.
Qed.

Lemma wait_loop_cons (pq : Libpq) (now : Z) (rs : list release)
    (rest : list (list release)) (s : Sys) :
  wait_loop pq now (rs :: rest) s =
  match fst (scan_available pq now (seq 0 MAX_POOL_SIZE) (snd (run_releases pq rs s))) with
  | Some c =>
      (Some c,
       snd (scan_available pq now (seq 0 MAX_POOL_SIZE) (snd (run_releases pq rs s))))
  | None =>
      wait_loop pq now rest
        (snd (scan_available pq now (seq 0 MAX_POOL_SIZE) (snd (run_releases pq rs s))))
  end.
Proof.
  cbn [wait_loop]. unfold bind, ret.
  destruct (run_releases pq rs s) as [[] s1]. cbn [fst snd].
  destruct (scan_available pq now (seq 0 MAX_POOL_SIZE) s1) as [[c |] s2];
    cbn [fst snd]; reflexivity.
Qed.

Lemma wait_loop_handed_out (pq : Libpq) (now : Z) (wakes : list (list release)) :
  forall (s : Sys) (c : PGconn),
    fst (wait_loop pq now wakes s) = Some c ->
    handed_out pq now c (snd (wait_loop pq now wakes s)).
Proof.
  induction wakes as [| rs rest IH]; intros s c; [intros H; discriminate H |].
  rewrite wait_loop_cons.
  pose proof (scan_available_handed_out pq now (snd (run_releases pq rs s))) as Hscan.
  destruct (fst (scan_available pq now (seq 0 MAX_POOL_SIZE) (snd (run_releases pq rs s))))
    as [c1 |].
  - cbn [fst snd]. intros Hc. injection Hc as <-. apply Hscan. reflexivity.
  - apply IH.
Qed.

(** X13. Whatever happens during the wait, a connection that
    [get_connection] returns sits in a slot of the pool that is now
    IN_USE and stamped with the time of the call, and [PQstatus] has
    accepted it. *)
Theorem get_connection_result_in_use
    (pq : Libpq) (now : Z) (wakes : list (list release)) (s : Sys) (c : PGconn) :
  fst (get_connection pq now wakes s) = Some c ->
  exists (i : nat) (pc' : PoolConnection),
    (i < MAX_POOL_SIZE)%nat
    /\ pool (sys_ctx (snd (get_connection pq now wakes s))) !! i = Some pc'
    /\ conn pc' = c /\ state pc' = CONN_IN_USE /\ last_used pc' = now
    /\ PQstatus pq c = true.
Proof.
  rewrite get_connection_unfold.
  pose proof (scan_available_handed_out pq now s) as H1.
  destruct (fst (scan_available pq now (seq 0 MAX_POOL_SIZE) s)) as [c1 |].
  { cbn [fst snd]. intros Hc. injection Hc as <-. apply H1. reflexivity. }
  set (s1 := snd (scan_available pq now (seq 0 MAX_POOL_SIZE) s)) in *.
  destruct (scan_dead_props pq now (seq 0 MAX_POOL_SIZE) s1) as (_ & _ & _ & H2).
  { intros i Hin. apply List.in_seq in Hin. lia. }
  destruct (fst (scan_dead pq now (seq 0 MAX_POOL_SIZE) s1)) as [c2 |].
  { cbn [fst snd]. intros Hc. injection Hc as <-.
    destruct (H2 c2 eq_refl) as (i & pc & pc' & Hn & _ & _ & Hrest).
    exists i, pc'. split; [exact Hn | exact Hrest]. }
  apply wait_loop_handed_out.
Qed.

Lemma get_connection_result_in_use_witness :
  exists (i : nat) (pc' : PoolConnection),
    (i < MAX_POOL_SIZE)%nat
    /\ pool (sys_ctx (snd (get_connection pq_good 200 [] booted))) !! i = Some pc'
    /\ conn pc' = 1000 /\ state pc' = CONN_IN_USE /\ last_used pc' = 200
    /\ PQstatus pq_good 1000 = true.
Proof.
  apply (get_connection_result_in_use pq_good 200 [] booted 1000). reflexivity.
Defined.





Lemma pool_invariant_revive (x y : HydrantContext) (i : nat) (pc : PoolConnection)
    (f : PoolConnection -> PoolConnection) :
  (i < MAX_POOL_SIZE)%nat ->
  pool x !! i = Some pc ->
  pool y = alter f i (pool x) ->
  healthy_connections y = wrap_size_t (healthy_connections x + 1) ->
  is_dead (state pc) = true ->
  is_dead (state (f pc)) = false ->
  pool_invariant x -> pool_invariant y.
Proof.
  intros Hn Hi Hpool Hhealthy Hdead Hlive Hinv. unfold pool_invariant in *.
  rewrite (healthy_slots_same_pool y (set_pool (alter f i (pool x)) x)) by exact Hpool.
  pose proof (healthy_slots_alter x i pc f Hi Hn) as Hcount.
  pose proof (healthy_slots_bounds (set_pool (alter f i (pool x)) x)) as Hb.
  pose proof (healthy_slots_bounds x) as Hb0.
  unfold healthy_bit in Hcount. rewrite Hdead, Hlive in Hcount.
  rewrite Hcount in *. rewrite Hhealthy, Hinv.
  rewrite wrap_size_t_small; [lia |].
  unfold SIZE_MAX, SIZE_WIDTH, MAX_POOL_SIZE in *. lia.
Qed.

(** X16. Called on a slot that is DEAD or PERMANENT_FAILURE,
    [recover_dead_connection] keeps the counter of healthy connections
    equal to the number of healthy slots, whatever the database
    answers. *)
Theorem recover_dead_connection_keeps_pool_invariant
    (pq : Libpq) (now : Z) (i : nat) (s : Sys) (pc : PoolConnection) :
  (i < MAX_POOL_SIZE)%nat ->
  pool (sys_ctx s) !! i = Some pc ->
  is_dead (state pc) = true ->
  pool_invariant (sys_ctx s) ->
  pool_invariant (sys_ctx (snd (recover_dead_connection pq now i s))).
Proof.
  intros Hn Hi Hdead Hinv.
  destruct (recover_dead_connection_shape pq now i s pc Hi) as (f & Hpool & Hcase).
  destruct (fst (recover_dead_connection pq now i s)).
  - destruct Hcase as (Hst & _ & _ & Hhealthy).
    apply (pool_invariant_revive (sys_ctx s) _ i pc f Hn Hi Hpool Hhealthy Hdead);
      [| exact Hinv].
    rewrite Hst. reflexivity.
  - destruct Hcase as (Hhealthy & Hstate).
    apply (pool_invariant_alter (sys_ctx s) _ i pc f Hn Hi Hpool Hhealthy);
      [| exact Hinv].
    destruct Hstate as [-> | ->]; [reflexivity | rewrite Hdead; reflexivity].
Qed.

Lemma recover_dead_connection_keeps_pool_invariant_witness :
  pool_invariant (sys_ctx dead0)
  /\ pool_invariant (sys_ctx (snd (recover_dead_connection pq_good 200 0 dead0)))
  /\ pool_invariant (sys_ctx (snd (recover_dead_connection pq_down 200 0 dead0))).
Proof.
  assert (Hinv : pool_invariant (sys_ctx dead0)) by (vm_compute; reflexivity).
  assert (Hi : pool (sys_ctx dead0) !! 0%nat
               = Some (mkPoolConnection 1000 CONN_DEAD 0 0 0 0 "boom"))
    by (vm_compute; reflexivity).
  assert (Hn : (0 < MAX_POOL_SIZE)%nat) by (unfold MAX_POOL_SIZE; lia).
  split; [exact Hinv |]. split.
  - exact (recover_dead_connection_keeps_pool_invariant pq_good 200 0 dead0 _
             Hn Hi eq_refl Hinv).
  - exact (recover_dead_connection_keeps_pool_invariant pq_down 200 0 dead0 _
             Hn Hi eq_refl Hinv).
Defined.

(** X17. [recover_dead_connection] reports success exactly when the slot
    is due, has attempts left, and the fresh connection is up, secure
    where the configuration asks for it, and has taken the prepared
    statement. *)
Theorem recover_dead_connection_succeeds_iff
    (pq : Libpq) (now : Z) (i : nat) (s : Sys) (pc : PoolConnection) :
  pool (sys_ctx s) !! i = Some pc ->
  fst (recover_dead_connection pq now i s) = true
  <-> next_recovery_attempt pc <= now
      /\ recovery_attempts pc < MAX_RECOVERY_ATTEMPTS
      /\ usable pq (config (sys_ctx s)) (PQconnectdb pq i) = true.
Proof.
  intros Hi. rewrite recover_dead_connection_unfold, Hi. unfold usable.
  destruct (Z.ltb_spec now (next_recovery_attempt pc)).
  { cbn. split; [intros Hx; discriminate Hx | intros (Hx & _); lia]. }
  destruct (Z.geb_spec (recovery_attempts pc) MAX_RECOVERY_ATTEMPTS).
  { cbn. split; [intros Hx; discriminate Hx | intros (_ & Hx & _); lia]. }
  cbv zeta.
  destruct (PQstatus pq (PQconnectdb pq i)); cbn [negb andb fst];
    [| split; [intros Hx; discriminate Hx | intros (_ & _ & Hx); discriminate Hx]].
  destruct (require_ssl (config (sys_ctx s)) && negb (PQsslInUse pq (PQconnectdb pq i)));
    cbn [negb andb fst];
    [split; [intros Hx; discriminate Hx | intros (_ & _ & Hx); discriminate Hx] |].
  destruct (PQprepare pq (PQconnectdb pq i)); cbn [negb andb fst];
    [| split; [intros Hx; discriminate Hx | intros (_ & _ & Hx); discriminate Hx]].
  split; [intros _; repeat split; lia | reflexivity].
Qed.

Lemma recover_dead_connection_succeeds_iff_witness :
  fst (recover_dead_connection pq_good 200 0 dead0) = true
  <-> 0 <= 200
      /\ 0 < MAX_RECOVERY_ATTEMPTS
      /\ usable pq_good (config (sys_ctx dead0)) (PQconnectdb pq_good 0) = true.
Proof.
  apply (recover_dead_connection_succeeds_iff pq_good 200 0 dead0
           (mkPoolConnection 1000 CONN_DEAD 0 0 0 0 "boom")).
  vm_compute. reflexivity.
Defined.

(** A successful recovery installs the fresh connection, makes the
    slot AVAILABLE with its three counters at zero, leaves the time of
    last use and the last error message as they were, counts one more
    healthy connection and one more reset, and logs the attempt and the
    success. *)
Theorem recover_dead_connection_success
    (pq : Libpq) (now : Z) (i : nat) (s : Sys) (pc : PoolConnection) :
  pool (sys_ctx s) !! i = Some pc ->
  fst (recover_dead_connection pq now i s) = true ->
  let s' := snd (recover_dead_connection pq now i s) in
  pool (sys_ctx s') !! i
  = Some (mkPoolConnection (PQconnectdb pq i) CONN_AVAILABLE (last_used pc) 0 0 0
            (last_error pc))
  /\ healthy_connections (sys_ctx s')
     = wrap_size_t (healthy_connections (sys_ctx s) + 1)
  /\ connection_resets (stats (sys_ctx s'))
     = wrap_size_t (connection_resets (stats (sys_ctx s)) + 1)
  /\ connection_failures (stats (sys_ctx s')) = connection_failures (stats (sys_ctx s))
  /\ sys_stderr s' = sys_stderr s ++ [recovery_attempt_log pc; recovered_log].
Proof.
  intros Hi. rewrite recover_dead_connection_unfold, Hi.
  destruct (now <? next_recovery_attempt pc); [intros H; discriminate H |].
  destruct (recovery_attempts pc >=? MAX_RECOVERY_ATTEMPTS); [intros H; discriminate H |].
  cbv zeta.
  destruct (negb (PQstatus pq (PQconnectdb pq i))); [intros H; discriminate H |].
  destruct (require_ssl (config (sys_ctx s)) && negb (PQsslInUse pq (PQconnectdb pq i)));
    [intros H; discriminate H |].
  destruct (negb (PQprepare pq (PQconnectdb pq i))); [intros H; discriminate H |].
  intros _. unfold with_slot.
  cbn [snd sys_ctx sys_stderr pool set_pool set_stats set_healthy_connections
       healthy_connections stats].
  rewrite list_lookup_alter_eq, Hi, <- app_assoc.
  destruct (stats (sys_ctx s)). repeat split; reflexivity.
Qed.

Lemma recover_dead_connection_success_witness :
  let s' := snd (recover_dead_connection pq_good 200 0 dead0) in
  pool (sys_ctx s') !! 0%nat = Some (mkPoolConnection 1000 CONN_AVAILABLE 0 0 0 0 "boom")
  /\ healthy_connections (sys_ctx s') = 10.
Proof.
  pose proof (recover_dead_connection_success pq_good 200 0 dead0
                (mkPoolConnection 1000 CONN_DEAD 0 0 0 0 "boom") eq_refl eq_refl)
    as (Hslot & Hhealthy & _).
  split; [exact Hslot | exact Hhealthy].
Defined.

(** X18. An attempt that does not succeed replaces the connection of the
    slot all the same, counts one more recovery attempt, and leaves the
    state of the slot and the counter of healthy connections alone;
    only a refused connection is counted as a connection failure. *)
Theorem recover_dead_connection_failed_attempt
    (pq : Libpq) (now : Z) (i : nat) (s : Sys) (pc : PoolConnection) :
  pool (sys_ctx s) !! i = Some pc ->
  next_recovery_attempt pc <= now ->
  recovery_attempts pc < MAX_RECOVERY_ATTEMPTS ->
  usable pq (config (sys_ctx s)) (PQconnectdb pq i) = false ->
  let r := recover_dead_connection pq now i s in
  fst r = false
  /\ option_map conn (slot i (snd r)) = Some (PQconnectdb pq i)
  /\ option_map recovery_attempts (slot i (snd r)) = Some (recovery_attempts pc + 1)
  /\ option_map state (slot i (snd r)) = Some (state pc)
  /\ healthy_connections (sys_ctx (snd r)) = healthy_connections (sys_ctx s)
  /\ connection_failures (stats (sys_ctx (snd r)))
     = (if PQstatus pq (PQconnectdb pq i) then connection_failures (stats (sys_ctx s))
        else wrap_size_t (connection_failures (stats (sys_ctx s)) + 1))
  /\ sys_stderr (snd r) = sys_stderr s ++ [recovery_attempt_log pc].
Proof.
  intros Hi Hdue Hra Huse. unfold slot.
  rewrite recover_dead_connection_unfold, Hi. unfold usable in Huse.
  destruct (Z.ltb_spec now (next_recovery_attempt pc)); [lia |].
  destruct (Z.geb_spec (recovery_attempts pc) MAX_RECOVERY_ATTEMPTS); [lia |].
  cbv zeta. unfold with_slot.
  destruct (PQstatus pq (PQconnectdb pq i)); cbn [negb andb] in *.
  - destruct (require_ssl (config (sys_ctx s)) && negb (PQsslInUse pq (PQconnectdb pq i)));
      cbn [negb andb] in *.
    + cbn [fst snd sys_ctx sys_stderr pool set_pool set_stats healthy_connections stats].
      rewrite list_lookup_alter_eq, Hi. repeat split; reflexivity.
    + rewrite Huse.
      cbn [negb fst snd sys_ctx sys_stderr pool set_pool set_stats healthy_connections
           stats].
      rewrite list_lookup_alter_eq, Hi. repeat split; reflexivity.
  - cbn [fst snd sys_ctx sys_stderr pool set_pool set_stats healthy_connections stats].
    rewrite list_lookup_alter_eq, Hi. destruct (stats (sys_ctx s)).
    repeat split; reflexivity.
Qed.

Lemma recover_dead_connection_failed_attempt_witness :
  let r := recover_dead_connection pq_no_ssl 200 0 dead0 in
  fst r = false
  /\ option_map conn (slot 0 (snd r)) = Some 3000
  /\ option_map recovery_attempts (slot 0 (snd r)) = Some 1
  /\ option_map state (slot 0 (snd r)) = Some CONN_DEAD.
Proof.
  assert (Hdue : 0 <= 200) by lia.
  assert (Hra : 0 < MAX_RECOVERY_ATTEMPTS) by (unfold MAX_RECOVERY_ATTEMPTS; lia).
  pose proof (recover_dead_connection_failed_attempt pq_no_ssl 200 0 dead0
                (mkPoolConnection 1000 CONN_DEAD 0 0 0 0 "boom")
                eq_refl Hdue Hra eq_refl)
    as (H1 & H2 & H3 & H4 & _).
  repeat split; assumption.
Defined.

(** X19. Once the recovery attempts of a slot are used up, a call that
    is due gives the slot up: it reports failure without connecting,
    the slot becomes PERMANENT_FAILURE with everything else in it
    unchanged, and from then on [recover_dead_connection] changes
    nothing at all, at whatever time and with whatever database it is
    called. *)
Theorem recover_dead_connection_gives_up
    (pq : Libpq) (now : Z) (i : nat) (s : Sys) (pc : PoolConnection) :
  pool (sys_ctx s) !! i = Some pc ->
  next_recovery_attempt pc <= now ->
  MAX_RECOVERY_ATTEMPTS <= recovery_attempts pc ->
  let r := recover_dead_connection pq now i s in
  fst r = false
  /\ slot i (snd r) = Some (set_state CONN_PERMANENT_FAILURE pc)
  /\ healthy_connections (sys_ctx (snd r)) = healthy_connections (sys_ctx s)
  /\ sys_stderr (snd r)
     = (if ConnectionState_eqb (state pc) CONN_PERMANENT_FAILURE then sys_stderr s
        else sys_stderr s ++ [permanent_failure_log pc])
  /\ forall (pq' : Libpq) (now' : Z),
       recover_dead_connection pq' now' i (snd r) = (false, snd r).
Proof.
  intros Hi Hdue Hra. unfold slot. cbv zeta.
  rewrite (recover_dead_connection_unfold pq now), Hi.
  destruct (Z.ltb_spec now (next_recovery_attempt pc)); [lia |].
  destruct (Z.geb_spec (recovery_attempts pc) MAX_RECOVERY_ATTEMPTS); [| lia].
  cbn [fst snd].
  destruct (ConnectionState_eqb (state pc) CONN_PERMANENT_FAILURE) eqn:Hst.
  - assert (Hpc : set_state CONN_PERMANENT_FAILURE pc = pc).
    { destruct pc as [? st ? ? ? ? ?]. cbn in Hst.
      destruct st; try discriminate Hst. reflexivity. }
    rewrite Hpc. repeat split; try assumption; try reflexivity.
    intros pq' now'. rewrite recover_dead_connection_unfold, Hi.
    destruct (now' <? next_recovery_attempt pc); [reflexivity |].
    destruct (Z.geb_spec (recovery_attempts pc) MAX_RECOVERY_ATTEMPTS); [| lia].
    rewrite Hst. reflexivity.
  - unfold with_slot.
    cbn [sys_ctx sys_stderr pool set_pool set_stats healthy_connections stats].
    rewrite list_lookup_alter_eq, Hi. repeat split; try reflexivity.
    intros pq' now'. rewrite recover_dead_connection_unfold.
    cbn [sys_ctx sys_stderr pool set_pool set_stats healthy_connections stats].
    rewrite list_lookup_alter_eq, Hi. cbn [option_map fmap option_fmap].
    cbn [set_state next_recovery_attempt recovery_attempts state ConnectionState_eqb].
    destruct (now' <? next_recovery_attempt pc); [reflexivity |].
    destruct (Z.geb_spec (recovery_attempts pc) MAX_RECOVERY_ATTEMPTS); [| lia].
    reflexivity.
Qed.

Lemma recover_dead_connection_gives_up_witness :
  let r := recover_dead_connection pq_good 200 0 worn_out in
  fst r = false
  /\ option_map state (slot 0 (snd r)) = Some CONN_PERMANENT_FAILURE
  /\ recover_dead_connection pq_good 5000 0 (snd r) = (false, snd r).
Proof.
  assert (Hdue : 200 <= 200) by lia.
  assert (Hra : MAX_RECOVERY_ATTEMPTS <= 3) by (unfold MAX_RECOVERY_ATTEMPTS; lia).
  pose proof (recover_dead_connection_gives_up pq_good 200 0 worn_out
                (mkPoolConnection 2000 CONN_DEAD 0 0 3 200
                   "Recovery failed: connection refused")
                eq_refl Hdue Hra)
    as (H1 & H2 & _ & _ & H5).
  split; [exact H1 |]. split; [rewrite H2; reflexivity | apply H5].
Defined.

(** X20. [mark_connection_dead] on a slot of the pool keeps the counter
    of healthy connections equal to the number of healthy slots. *)
Theorem mark_connection_dead_preserves_pool_invariant
    (i : nat) (error : string) (s : Sys) :
  (i < MAX_POOL_SIZE)%nat ->
  pool_invariant (sys_ctx s) ->
  pool_invariant (sys_ctx (snd (mark_connection_dead i error s))).
Proof. apply mark_connection_dead_keeps_invariant. Qed.

Lemma mark_connection_dead_preserves_pool_invariant_witness :
  pool_invariant (sys_ctx booted)
  /\ pool_invariant (sys_ctx (snd (mark_connection_dead 4 "boom" booted))).
Proof.
  assert (Hinv : pool_invariant (sys_ctx booted)) by (vm_compute; reflexivity).
  assert (Hn : (4 < MAX_POOL_SIZE)%nat) by (unfold MAX_POOL_SIZE; lia).
  split; [exact Hinv |].
  exact (mark_connection_dead_preserves_pool_invariant 4 "boom" booted Hn Hinv).
Defined.



(** What [return_connection] does to the slot of a connection that
    is neither DEAD nor PERMANENT_FAILURE. Without an error the slot is
    AVAILABLE again and its count of failures is reset; with an error
    the count goes up by one, and the slot is AVAILABLE again unless
    the count reaches [CONNECTION_DEAD_THRESHOLD], in which case the
    slot is DEAD, one healthy connection less is counted and the
    warning is logged. The connection itself stays in the slot. *)
Theorem return_connection_effect
    (pq : Libpq) (c : PGconn) (had_error : bool) (s : Sys) (i : nat)
    (pc : PoolConnection) :
  find_pool_connection (sys_ctx s) c = Some i ->
  pool (sys_ctx s) !! i = Some pc ->
  is_dead (state pc) = false ->
  let s' := snd (return_connection pq c had_error s) in
  let fatal := had_error && (failed_attempts pc + 1 >=? CONNECTION_DEAD_THRESHOLD) in
  option_map state (slot i s') = Some (if fatal then CONN_DEAD else CONN_AVAILABLE)
  /\ option_map failed_attempts (slot i s')
     = Some (if had_error then failed_attempts pc + 1 else 0)
  /\ option_map conn (slot i s') = Some (conn pc)
  /\ healthy_connections (sys_ctx s')
     = (if fatal then wrap_size_t (healthy_connections (sys_ctx s) - 1)
        else healthy_connections (sys_ctx s))
  /\ sys_stderr s'
     = (if fatal
        then sys_stderr s
             ++ [dead_warning (snprintf MAX_ERROR_LENGTH (PQerrorMessage pq c))]
        else sys_stderr s).
Proof.
  intros Hfind Hi Hlive. unfold slot. cbv zeta.
  rewrite return_connection_unfold, Hfind, Hi. cbv zeta.
  destruct had_error;
    [destruct (failed_attempts pc + 1 >=? CONNECTION_DEAD_THRESHOLD) |];
    cbn [andb].
  - rewrite mark_connection_dead_unfold.
    cbn [sys_ctx sys_stderr pool set_pool].
    rewrite list_lookup_alter_eq, Hi.
    cbn [option_map fmap option_fmap compose set_last_error set_failed_attempts state].
    rewrite Hlive.
    cbn [snd sys_ctx sys_stderr pool set_pool healthy_connections
         set_healthy_connections].
    rewrite !list_alter_alter_eq, list_lookup_alter_eq, Hi.
    repeat split; reflexivity.
  - cbn [snd sys_ctx sys_stderr pool set_pool healthy_connections].
    rewrite list_lookup_alter_eq, Hi. repeat split; reflexivity.
  - cbn [snd sys_ctx sys_stderr pool set_pool healthy_connections].
    rewrite list_lookup_alter_eq, Hi. repeat split; reflexivity.
Qed.

Lemma return_connection_effect_witness :
  let s' := snd (return_connection pq_good 1002 true exhausted) in
  option_map state (slot 2 s') = Some CONN_AVAILABLE
  /\ option_map failed_attempts (slot 2 s') = Some 1.
Proof.
  pose proof (return_connection_effect pq_good 1002 true exhausted 2
                (mkPoolConnection 1002 CONN_IN_USE 200 0 0 0 "")
                eq_refl eq_refl eq_refl)
    as (H1 & H2 & _).
  split; [exact H1 | exact H2].
Defined.

(** ** Configuration, start-up and shutdown *)

Lemma default_batch_size_in_range :
  MIN_BATCH_SIZE <= DEFAULT_BATCH_SIZE <= MAX_BATCH_SIZE.
Proof. unfold MIN_BATCH_SIZE, DEFAULT_BATCH_SIZE, MAX_BATCH_SIZE. lia. Qed.

Lemma load_config_some
    (host : Host) (config_path : option string) (s : Sys) (cfg : HydrantConfig) :
  fst (load_config host config_path s) = Some cfg ->
  snd (load_config host config_path s) = s
  /\ MIN_BATCH_SIZE <= batch_size cfg <= MAX_BATCH_SIZE
  /\ max_retries cfg = 3 /\ retry_delay_ms cfg = 100 /\ require_ssl cfg = true
  /\ match config_path with
     | None =>
         db_conn_string cfg = getenv host "HYDRANT_DB_URL" /\ db_conn_string cfg <> None
     | Some _ => db_conn_string cfg = None /\ batch_size cfg = DEFAULT_BATCH_SIZE
     end.
Proof.
  pose proof default_batch_size_in_range as Hdefault.
  unfold load_config.
  destruct (config_alloc_ok host); cbn [negb]; [| intros H; discriminate H].
  destruct config_path as [path |].
  - destruct (fopen_ok host); cbn [negb]; [| intros H; discriminate H].
    destruct (yaml_parser_initialize_ok host); cbn [negb]; [| intros H; discriminate H].
    destruct (yaml_parser_load_ok host); cbn [negb]; [| intros H; discriminate H].
    destruct (yaml_root_is_mapping host); cbn [negb]; [| intros H; discriminate H].
    intros H. injection H as <-. cbn. repeat split; try reflexivity; apply Hdefault.
  - cbv zeta.
    destruct (getenv host "HYDRANT_DB_URL") as [url |]; [| intros H; discriminate H].
    intros H. injection H as <-. cbn [ret snd].
    split; [reflexivity |].
    destruct (getenv host "HYDRANT_BATCH_SIZE") as [v |].
    + destruct (Z.geb_spec (wrap_size_t (atol v)) MIN_BATCH_SIZE);
        destruct (Z.leb_spec (wrap_size_t (atol v)) MAX_BATCH_SIZE);
        cbn; repeat split; try reflexivity; try lia; try apply Hdefault;
        intros H'; discriminate H'.
    + cbn. repeat split; try reflexivity; try apply Hdefault.
      intros H'; discriminate H'.
Qed.

(** X22. A configuration that [load_config] returns leaves the process
    as it was and holds the defaults (3 retries, 100 ms, secure
    transport required) with a batch size within the bounds. Read from
    the environment it carries the value of [HYDRANT_DB_URL]; read from
    a file it carries the default batch size and no connection string
    at all, whatever the file says. *)
Theorem load_config_defaults
    (host : Host) (config_path : option string) (s : Sys) (cfg : HydrantConfig) :
  fst (load_config host config_path s) = Some cfg ->
  snd (load_config host config_path s) = s
  /\ MIN_BATCH_SIZE <= batch_size cfg <= MAX_BATCH_SIZE
  /\ max_retries cfg = 3 /\ retry_delay_ms cfg = 100 /\ require_ssl cfg = true
  /\ match config_path with
     | None =>
         db_conn_string cfg = getenv host "HYDRANT_DB_URL" /\ db_conn_string cfg <> None
     | Some _ => db_conn_string cfg = None /\ batch_size cfg = DEFAULT_BATCH_SIZE
     end.
Proof. apply load_config_some. Qed.

Lemma load_config_defaults_witness :
  let host := host_with [("HYDRANT_DB_URL", "postgres://db")]%string in
  let r := load_config host (Some "hydrant.yaml"%string) sys0 in
  fst r = Some (mkHydrantConfig None DEFAULT_BATCH_SIZE 3 100 true)
  /\ snd r = sys0.
Proof.
  intros host r.
  assert (H : fst r = Some (mkHydrantConfig None DEFAULT_BATCH_SIZE 3 100 true))
    by (vm_compute; reflexivity).
  split; [exact H |].
  apply (load_config_defaults host (Some "hydrant.yaml"%string) sys0 _ H).
Defined.

(** When [load_config] returns the null pointer the context is
    untouched and, unless it was the allocation of the configuration
    that failed, exactly one record was logged, at ERROR. *)
Theorem load_config_failure_logged
    (host : Host) (config_path : option string) (s : Sys) :
  fst (load_config host config_path s) = None ->
  sys_ctx (snd (load_config host config_path s)) = sys_ctx s
  /\ exists log : list LogRecord,
       sys_stderr (snd (load_config host config_path s)) = sys_stderr s ++ log
       /\ map log_level log
          = (if config_alloc_ok host then ["ERROR"%string] else []).
Proof.
  unfold load_config.
  destruct (config_alloc_ok host); cbn [negb].
  2:{ intros _. split; [reflexivity |]. exists []. rewrite app_nil_r. auto. }
  destruct config_path as [path |].
  - destruct (fopen_ok host); cbn [negb];
      [| intros _; split; [reflexivity | eexists; split; reflexivity]].
    destruct (yaml_parser_initialize_ok host); cbn [negb];
      [| intros _; split; [reflexivity | eexists; split; reflexivity]].
    destruct (yaml_parser_load_ok host); cbn [negb];
      [| intros _; split; [reflexivity | eexists; split; reflexivity]].
    destruct (yaml_root_is_mapping host); cbn [negb];
      [| intros _; split; [reflexivity | eexists; split; reflexivity]].
    intros H. discriminate H.
  - cbv zeta.
    destruct (getenv host "HYDRANT_DB_URL") as [url |]; [intros H; discriminate H |].
    intros _. split; [reflexivity | eexists; split; reflexivity].
Qed.

Lemma load_config_failure_logged_witness :
  sys_ctx (snd (load_config (host_with []) None sys0)) = sys_ctx sys0
  /\ exists log : list LogRecord,
       sys_stderr (snd (load_config (host_with []) None sys0)) = sys_stderr sys0 ++ log
       /\ map log_level log = ["ERROR"%string].
Proof.
  apply (load_config_failure_logged (host_with []) None sys0). reflexivity.
Defined.

(** X23. The clamp of [init_hydrant] brings any batch size into the
    bounds, changes nothing else in the context, and logs one warning
    exactly when the size was out of the bounds. *)
Theorem clamp_batch_size_clamps (s : Sys) :
  let size := batch_size (config (sys_ctx s)) in
  let s' := snd (clamp_batch_size s) in
  sys_ctx s'
  = set_config
      (set_batch_size (Z.max MIN_BATCH_SIZE (Z.min MAX_BATCH_SIZE size))
         (config (sys_ctx s)))
      (sys_ctx s)
  /\ MIN_BATCH_SIZE <= batch_size (config (sys_ctx s')) <= MAX_BATCH_SIZE
  /\ sys_stderr s'
     = sys_stderr s
       ++ (if size <? MIN_BATCH_SIZE then [below_minimum_log size]
           else if size >? MAX_BATCH_SIZE then [above_maximum_log size]
           else []).
Proof.
  cbv zeta. unfold clamp_batch_size, bind, get_ctx, when. cbn [fst snd].
  destruct s as [ctx log]. destruct ctx as [cfg ? ? ? ? ? ? ? ? ? ?].
  destruct cfg as [url size ? ? ?]. cbn [sys_ctx sys_stderr config batch_size].
  assert (Hbounds : MIN_BATCH_SIZE <= MAX_BATCH_SIZE)
    by (unfold MIN_BATCH_SIZE, MAX_BATCH_SIZE; lia).
  set (clamped := Z.max MIN_BATCH_SIZE (Z.min MAX_BATCH_SIZE size)).
  destruct (Z.ltb_spec size MIN_BATCH_SIZE) as [Hlt | Hge].
  - assert (Hv : clamped = MIN_BATCH_SIZE) by (subst clamped; lia).
    rewrite Hv. unfold structured_log, modify_ctx, ret.
    cbn [fst snd sys_ctx sys_stderr config batch_size set_config set_batch_size].
    destruct (Z.gtb_spec MIN_BATCH_SIZE MAX_BATCH_SIZE) as [Hgt | Hle]; [lia |].
    cbn [fst snd sys_ctx sys_stderr config batch_size set_config set_batch_size].
    repeat split; try reflexivity; lia.
  - unfold ret. cbn [fst snd sys_ctx sys_stderr config batch_size].
    destruct (Z.gtb_spec size MAX_BATCH_SIZE) as [Hgt | Hle].
    + assert (Hv : clamped = MAX_BATCH_SIZE) by (subst clamped; lia).
      rewrite Hv. unfold structured_log, modify_ctx, ret.
      cbn [fst snd sys_ctx sys_stderr config batch_size set_config set_batch_size].
      repeat split; try reflexivity; lia.
    + assert (Hv : clamped = size) by (subst clamped; lia).
      rewrite Hv, app_nil_r.
      cbn [fst snd sys_ctx sys_stderr config batch_size set_config set_batch_size].
      repeat split; try reflexivity; lia.
Qed.

Lemma init_slot_unfold (pq : Libpq) (i : nat) (s : Sys) :
  init_slot pq i s =
  (tt,
   mkSys
     (set_healthy_connections
        (if usable pq (config (sys_ctx s)) (PQconnectdb pq i)
         then wrap_size_t (healthy_connections (sys_ctx s) + 1)
         else healthy_connections (sys_ctx s))
        (set_pool (alter (opened_slot pq (config (sys_ctx s)) i) i (pool (sys_ctx s)))
           (sys_ctx s)))
     (sys_stderr s ++ init_slot_log pq (config (sys_ctx s)) i)).
Proof.
  destruct s as [ctx log]. destruct ctx as [cfg sd pl h bb pos bs bss cb wc st].
  unfold init_slot, init_slot_log, opened_slot, usable, bind, get_ctx. cbn [fst snd sys_ctx
    sys_stderr config pool healthy_connections].
  destruct (PQstatus pq (PQconnectdb pq i)); cbn [negb andb];
    [destruct (require_ssl cfg && negb (PQsslInUse pq (PQconnectdb pq i)));
     cbn [negb andb]; [| destruct (PQprepare pq (PQconnectdb pq i)); cbn [negb andb]] |];
    unfold modify_slot, modify_ctx, structured_log, bind, ret;
    cbn [fst snd sys_ctx sys_stderr config pool healthy_connections set_pool
         set_healthy_connections];
    rewrite ?app_nil_r, !list_alter_alter_eq;
    do 3 f_equal;
    (apply list_alter_ext; [intros [? ? ? ? ? ? ?] _; reflexivity | reflexivity]).
Qed.

Lemma usable_slots_cons (pq : Libpq) (cfg : HydrantConfig) (i : nat) (rest : list nat) :
  usable_slots pq cfg (i :: rest)
  = (if usable pq cfg (PQconnectdb pq i) then 1 else 0) + usable_slots pq cfg rest.
Proof.
  unfold usable_slots. cbn [List.filter].
  destruct (usable pq cfg (PQconnectdb pq i)); cbn [length]; lia.
Qed.

Lemma usable_slots_bounds (pq : Libpq) (cfg : HydrantConfig) (idx : list nat) :
  0 <= usable_slots pq cfg idx <= Z.of_nat (length idx).
Proof.
  unfold usable_slots. split; [lia |].
  apply Nat2Z.inj_le, List.filter_length_le.
Qed.

Lemma init_pool_spec (pq : Libpq) :
  forall (n k : nat) (s : Sys),
    0 <= healthy_connections (sys_ctx s) ->
    healthy_connections (sys_ctx s) + Z.of_nat n <= SIZE_MAX ->
    (forall j : nat,
        pool (sys_ctx (snd (init_pool pq (seq k n) s))) !! j
        = (if (k <=? j)%nat && (j <? k + n)%nat
           then opened_slot pq (config (sys_ctx s)) j <$> pool (sys_ctx s) !! j
           else pool (sys_ctx s) !! j))
    /\ healthy_connections (sys_ctx (snd (init_pool pq (seq k n) s)))
       = healthy_connections (sys_ctx s) + usable_slots pq (config (sys_ctx s)) (seq k n)
    /\ sys_ctx (snd (init_pool pq (seq k n) s))
       = set_healthy_connections
           (healthy_connections (sys_ctx (snd (init_pool pq (seq k n) s))))
           (set_pool (pool (sys_ctx (snd (init_pool pq (seq k n) s)))) (sys_ctx s))
    /\ sys_stderr (snd (init_pool pq (seq k n) s))
       = sys_stderr s ++ flat_map (init_slot_log pq (config (sys_ctx s))) (seq k n).
Proof.
  induction n as [| n IH]; intros k s Hpos Hmax.
  { cbn [seq init_pool ret snd flat_map]. unfold usable_slots. cbn [List.filter length].
    rewrite app_nil_r, Z.add_0_r. split; [| split; [reflexivity | split; [| reflexivity]]].
    - intros j. rewrite Nat.add_0_r.
      destruct (Nat.leb_spec k j), (Nat.ltb_spec j k); try reflexivity. lia.
    - destruct (sys_ctx s). reflexivity. }
  cbn [seq init_pool]. unfold bind. rewrite init_slot_unfold.
  set (cfg := config (sys_ctx s)).
  set (h1 := if usable pq cfg (PQconnectdb pq k)
             then wrap_size_t (healthy_connections (sys_ctx s) + 1)
             else healthy_connections (sys_ctx s)).
  set (s1 := mkSys _ _).
  assert (Hh1 : h1 = healthy_connections (sys_ctx s)
                     + (if usable pq cfg (PQconnectdb pq k) then 1 else 0)).
  { subst h1. destruct (usable pq cfg (PQconnectdb pq k)); [| lia].
    apply wrap_size_t_small. lia. }
  assert (Hcfg1 : config (sys_ctx s1) = cfg) by reflexivity.
  assert (Hheal1 : healthy_connections (sys_ctx s1) = h1) by reflexivity.
  assert (Hpool1 : pool (sys_ctx s1) = alter (opened_slot pq cfg k) k (pool (sys_ctx s)))
    by reflexivity.
  assert (Hlog1 : sys_stderr s1 = sys_stderr s ++ init_slot_log pq cfg k) by reflexivity.
  destruct (IH (S k) s1) as (Hlook & Hheal & Hctx & Hlog).
  { rewrite Hheal1, Hh1. destruct (usable pq cfg (PQconnectdb pq k)); lia. }
  { rewrite Hheal1, Hh1. destruct (usable pq cfg (PQconnectdb pq k)); lia. }
  rewrite Hcfg1 in *.
  split; [| split; [| split]].
  - intros j. rewrite Hlook, Hpool1.
    destruct (Nat.eq_dec k j) as [<- | Hne].
    + rewrite list_lookup_alter_eq.
      destruct (Nat.leb_spec (S k) k); [lia |]. cbn [andb].
      destruct (Nat.leb_spec k k); [| lia].
      destruct (Nat.ltb_spec k (k + S n)); [| lia]. reflexivity.
    + rewrite list_lookup_alter_ne by exact Hne.
      destruct (Nat.leb_spec (S k) j), (Nat.leb_spec k j),
        (Nat.ltb_spec j (S k + n)), (Nat.ltb_spec j (k + S n));
        cbn [andb]; try reflexivity; lia.
  - rewrite Hheal, Hheal1, Hh1, usable_slots_cons. lia.
  - rewrite Hctx at 1. destruct (sys_ctx s). reflexivity.
  - rewrite Hlog, Hlog1. cbn [flat_map]. rewrite app_assoc. reflexivity.
Qed.

Lemma init_pool_zero (pq : Libpq) (cfg : HydrantConfig) (log : list LogRecord) :
  let s' := snd (init_pool pq (seq 0 MAX_POOL_SIZE) (mkSys (configured cfg) log)) in
  sys_ctx s'
  = set_healthy_connections (usable_slots pq cfg (seq 0 MAX_POOL_SIZE))
      (set_pool ((fun j => opened_slot pq cfg j zero_slot) <$> seq 0 MAX_POOL_SIZE)
         (configured cfg))
  /\ sys_stderr s' = log ++ flat_map (init_slot_log pq cfg) (seq 0 MAX_POOL_SIZE).
Proof.
  destruct (init_pool_spec pq MAX_POOL_SIZE 0 (mkSys (configured cfg) log))
    as (Hlook & Hheal & Hctx & Hlog).
  { cbn. lia. }
  { unfold SIZE_MAX, SIZE_WIDTH, MAX_POOL_SIZE. cbn. lia. }
  cbv zeta. split; [| exact Hlog].
  rewrite Hctx, Hheal. cbn [sys_ctx configured healthy_connections set_healthy_connections
                            config set_config zero_context].
  rewrite Z.add_0_l. f_equal. f_equal.
  apply list_eq. intros j. rewrite Hlook.
  cbn [sys_ctx configured pool set_healthy_connections config set_config zero_context].
  rewrite list_lookup_fmap. cbn [Nat.leb andb Nat.add].
  destruct (Nat.ltb_spec j MAX_POOL_SIZE) as [Hlt | Hge].
  - rewrite lookup_replicate_2, lookup_seq_lt by exact Hlt. reflexivity.
  - rewrite lookup_seq_ge by exact Hge.
    apply lookup_replicate_None. exact Hge.
Qed.

Lemma init_config_shape (host : Host) (config_path : option string) (s : Sys) :
  fst (init_config host config_path s) = true ->
  exists cfg : HydrantConfig,
    fst (load_config host config_path s) = Some cfg
    /\ snd (init_config host config_path s)
       = mkSys (set_config cfg (sys_ctx s)) (sys_stderr s).
Proof.
  unfold init_config, bind.
  pose proof (load_config_some host config_path s) as Hload.
  destruct (load_config host config_path s) as [[cfg |] s1]; cbn [fst snd] in *.
  2:{ unfold structured_log, ret. cbn. intros H. discriminate H. }
  destruct (Hload cfg eq_refl) as (-> & Hrange & _).
  intros _. exists cfg. split; [reflexivity |].
  unfold modify_ctx at 1. cbn [fst snd sys_ctx sys_stderr].
  rewrite clamp_batch_size_in_range by (cbn; exact Hrange).
  reflexivity.
Qed.

Lemma create_workers_true (host : Host) (idx : list nat) (s : Sys) :
  fst (create_workers host idx s) = true -> snd (create_workers host idx s) = s.
Proof.
  induction idx as [| i rest IH]; [reflexivity |].
  cbn [create_workers]. destruct (pthread_create_ok host i); [exact IH |].
  unfold bind, structured_log, ret. cbn. intros H. discriminate H.
Qed.

Lemma start_workers_true (host : Host) (n : nat) (s : Sys) :
  fst (start_workers host n s) = true ->
  snd (start_workers host n s)
  = mkSys (set_worker_count (Z.of_nat n) (sys_ctx s)) (sys_stderr s).
Proof.
  unfold start_workers. destruct (workers_alloc_ok host); cbn [negb].
  2:{ unfold bind, structured_log, ret. cbn. intros H. discriminate H. }
  unfold bind, modify_ctx. cbn [fst snd sys_ctx sys_stderr].
  apply create_workers_true.
Qed.

Lemma init_hydrant_shape (host : Host) (pq : Libpq) (now : Z)
    (config_path : option string) (s : Sys) (ctx : HydrantContext) :
  fst (init_hydrant host pq now config_path s) = Some ctx ->
  exists cfg : HydrantConfig,
    fst (load_config host config_path (mkSys zero_context (sys_stderr s))) = Some cfg
    /\ ctx = initialised pq now cfg
    /\ healthy_connections ctx <> 0
    /\ snd (init_hydrant host pq now config_path s)
       = mkSys ctx
           (sys_stderr s ++ flat_map (init_slot_log pq cfg) (seq 0 MAX_POOL_SIZE)
            ++ [initialised_log ctx]).
Proof.
  intros Hfst.
  destruct (init_hydrant host pq now config_path s) as [r s'] eqn:Heq.
  cbn [fst snd] in *. subst r. revert Heq.
  unfold init_hydrant.
  destruct (ctx_alloc_ok host); cbn [negb];
    [| unfold bind, structured_log, ret; cbn; intros H; discriminate H].
  unfold bind at 1. unfold modify_ctx at 1. cbn [fst snd sys_ctx sys_stderr].
  unfold bind at 1.
  pose proof (init_config_shape host config_path (mkSys zero_context (sys_stderr s)))
    as Hcfg.
  destruct (init_config host config_path (mkSys zero_context (sys_stderr s)))
    as [[|] s1]; cbn [fst snd negb] in *; [| intros H; discriminate H].
  destruct (Hcfg eq_refl) as (cfg & Hload & ->). clear Hcfg.
  cbn [sys_ctx sys_stderr].
  destruct (sync_init_ok host); cbn [negb];
    [| rewrite bind_bind_ret; intros H; discriminate H].
  unfold bind at 1. unfold modify_ctx at 1. cbn [fst snd sys_ctx sys_stderr].
  change (set_healthy_connections 0 (set_config cfg zero_context)) with (configured cfg).
  unfold bind at 1.
  destruct (init_pool_zero pq cfg (sys_stderr s)) as (Hctx & Hlog).
  destruct (init_pool pq (seq 0 MAX_POOL_SIZE) (mkSys (configured cfg) (sys_stderr s)))
    as [[] [ctx2 log2]]. cbn [fst snd sys_ctx sys_stderr] in *. subst ctx2 log2.
  unfold bind at 1, get_ctx at 1. cbn [fst snd sys_ctx sys_stderr].
  cbn [healthy_connections set_healthy_connections].
  destruct (Z.eqb_spec (usable_slots pq cfg (seq 0 MAX_POOL_SIZE)) 0) as [Hzero | Hnz];
    [rewrite bind_bind_ret; intros H; discriminate H |].
  destruct (batch_buffer_alloc_ok host); cbn [negb];
    [| rewrite bind_bind_ret; intros H; discriminate H].
  unfold bind at 1. unfold modify_ctx at 1. cbn [fst snd sys_ctx sys_stderr].
  unfold bind at 1. unfold modify_ctx at 1. cbn [fst snd sys_ctx sys_stderr].
  destruct (batch_stats_alloc_ok host); cbn [negb];
    [| rewrite bind_bind_ret; intros H; discriminate H].
  unfold bind at 1. unfold modify_ctx at 1. cbn [fst snd sys_ctx sys_stderr].
  unfold bind at 1. unfold modify_stats at 1, modify_ctx at 1.
  cbn [fst snd sys_ctx sys_stderr].
  unfold bind at 1. unfold modify_stats at 1, modify_ctx at 1.
  cbn [fst snd sys_ctx sys_stderr].
  unfold bind at 1.
  match goal with
  | |- context [start_workers host 2 ?st] =>
      pose proof (start_workers_true host 2 st) as Hsw;
      destruct (start_workers host 2 st) as [[|] s3]
  end; cbn [fst snd negb] in *; [| rewrite bind_bind_ret; intros H; discriminate H].
  rewrite (Hsw eq_refl). clear Hsw.
  unfold bind, get_ctx, structured_log, ret. cbn [fst snd sys_ctx sys_stderr].
  intros H. injection H as <- <-.
  exists cfg. split; [exact Hload |]. split; [reflexivity |].
  split; [exact Hnz |].
  apply (f_equal2 mkSys); [reflexivity |].
  exact (eq_sym (app_assoc (sys_stderr s)
                   (flat_map (init_slot_log pq cfg) (seq 0 MAX_POOL_SIZE)) _)).
Qed.

Lemma initialised_healthy_slots (pq : Libpq) (now : Z) (cfg : HydrantConfig) :
  healthy_slots (initialised pq now cfg) = usable_slots pq cfg (seq 0 MAX_POOL_SIZE).
Proof.
  unfold healthy_slots, count_state, usable_slots, initialised. cbn [pool].
  rewrite take_ge by (rewrite length_fmap, length_seq; lia).
  change ((fun j => opened_slot pq cfg j zero_slot) <$> seq 0 MAX_POOL_SIZE)
    with (List.map (fun j => opened_slot pq cfg j zero_slot) (seq 0 MAX_POOL_SIZE)).
  rewrite filter_map_swap, length_map. do 2 f_equal.
  apply filter_ext. intros j. cbn [opened_slot state].
  destruct (usable pq cfg (PQconnectdb pq j)); reflexivity.
Qed.

Lemma init_slot_log_level (pq : Libpq) (cfg : HydrantConfig) (idx : list nat) :
  require_ssl cfg = true ->
  map log_level (flat_map (init_slot_log pq cfg) idx)
  = replicate (length idx - Z.to_nat (usable_slots pq cfg idx)) "ERROR"%string.
Proof.
  intros Hssl. induction idx as [| i rest IH]; [reflexivity |].
  pose proof (usable_slots_bounds pq cfg rest) as Hb.
  cbn [flat_map]. rewrite map_app, IH, usable_slots_cons.
  unfold init_slot_log, usable. rewrite Hssl. cbn [andb length].
  destruct (PQstatus pq (PQconnectdb pq i)); cbn [negb andb];
    [destruct (PQsslInUse pq (PQconnectdb pq i)); cbn [negb andb];
     [destruct (PQprepare pq (PQconnectdb pq i)); cbn [negb andb] |] |].
  - cbn [map app].
    replace (S (length rest) - Z.to_nat (1 + usable_slots pq cfg rest))%nat
      with (length rest - Z.to_nat (usable_slots pq cfg rest))%nat by lia.
    reflexivity.
  - cbn [map app log_level].
    replace (S (length rest) - Z.to_nat (0 + usable_slots pq cfg rest))%nat
      with (S (length rest - Z.to_nat (usable_slots pq cfg rest))) by lia.
    reflexivity.
  - cbn [map app log_level].
    replace (S (length rest) - Z.to_nat (0 + usable_slots pq cfg rest))%nat
      with (S (length rest - Z.to_nat (usable_slots pq cfg rest))) by lia.
    reflexivity.
  - cbn [map app log_level].
    replace (S (length rest) - Z.to_nat (0 + usable_slots pq cfg rest))%nat
      with (S (length rest - Z.to_nat (usable_slots pq cfg rest))) by lia.
    reflexivity.
Qed.

Lemma init_hydrant_example :
  exists ctx : HydrantContext,
    fst (init_hydrant (host_batch_size "65536") pq_good 100 None sys0) = Some ctx.
Proof.
  destruct (fst (init_hydrant (host_batch_size "65536") pq_good 100 None sys0))
    as [ctx |] eqn:H; [exists ctx; reflexivity | exfalso].
  assert (Hs : match fst (init_hydrant (host_batch_size "65536") pq_good 100 None sys0)
               with Some _ => true | None => false end = true)
    by (vm_compute; reflexivity).
  rewrite H in Hs. discriminate Hs.
Defined.

(** X24. The pool of a context that [init_hydrant] returns. Slot [i]
    holds the connection opened for it, is AVAILABLE when that
    connection is up, secure and prepared and DEAD otherwise, and has
    its counters and times at zero; at least one slot is AVAILABLE, and
    the counter of healthy connections is the number of healthy
    slots. *)
Theorem init_hydrant_pool (host : Host) (pq : Libpq) (now : Z)
    (config_path : option string) (s : Sys) (ctx : HydrantContext) :
  fst (init_hydrant host pq now config_path s) = Some ctx ->
  sys_ctx (snd (init_hydrant host pq now config_path s)) = ctx
  /\ length (pool ctx) = MAX_POOL_SIZE
  /\ (forall (i : nat) (pc : PoolConnection),
         pool ctx !! i = Some pc ->
         pc = mkPoolConnection (PQconnectdb pq i)
                (if usable pq (config ctx) (PQconnectdb pq i)
                 then CONN_AVAILABLE else CONN_DEAD)
                0 0 0 0 (last_error pc))
  /\ pool_invariant ctx
  /\ 1 <= healthy_connections ctx <= Z.of_nat MAX_POOL_SIZE.
Proof.
  intros H.
  destruct (init_hydrant_shape host pq now config_path s ctx H)
    as (cfg & _ & Hctx & Hnz & Hs').
  rewrite Hs'. cbn [sys_ctx]. split; [reflexivity |].
  assert (Hinv : pool_invariant ctx).
  { rewrite Hctx. unfold pool_invariant. rewrite initialised_healthy_slots. reflexivity. }
  pose proof (healthy_slots_bounds ctx) as Hb.
  unfold pool_invariant in Hinv. rewrite <- Hinv in Hb.
  split; [| split; [| split; [exact Hinv | lia]]].
  - rewrite Hctx. cbn [initialised pool]. rewrite length_fmap, length_seq. reflexivity.
  - intros i pc Hi. rewrite Hctx in Hi |- *. cbn [initialised pool config] in *.
    rewrite list_lookup_fmap in Hi.
    destruct (seq 0 MAX_POOL_SIZE !! i) as [j |] eqn:Hj; [| discriminate Hi].
    apply lookup_seq in Hj as [-> _]. cbn in Hi. injection Hi as <-. reflexivity.
Qed.

Lemma init_hydrant_pool_witness :
  exists ctx : HydrantContext,
    fst (init_hydrant (host_batch_size "65536") pq_good 100 None sys0) = Some ctx
    /\ pool_invariant ctx
    /\ 1 <= healthy_connections ctx <= Z.of_nat MAX_POOL_SIZE.
Proof.
  destruct init_hydrant_example as (ctx & H). exists ctx.
  pose proof (init_hydrant_pool _ _ _ _ _ _ H) as (_ & _ & _ & Hinv & Hb).
  split; [exact H |]. split; [exact Hinv | exact Hb].
Defined.

(** X25. The batch side of a context that [init_hydrant] returns. The
    configuration is the one [load_config] gave, with a batch size
    within the bounds; the buffer has exactly that many bytes and is
    empty; the ring has 1000 zeroed records and starts at 0; two
    workers are counted; shutdown is not requested; every counter is
    zero and both times of the statistics are the time of the call. *)
Theorem init_hydrant_batch (host : Host) (pq : Libpq) (now : Z)
    (config_path : option string) (s : Sys) (ctx : HydrantContext) :
  fst (init_hydrant host pq now config_path s) = Some ctx ->
  fst (load_config host config_path (mkSys zero_context (sys_stderr s)))
  = Some (config ctx)
  /\ MIN_BATCH_SIZE <= batch_size (config ctx) <= MAX_BATCH_SIZE
  /\ Z.of_nat (length (batch_buffer ctx)) = batch_size (config ctx)
  /\ current_batch_pos ctx = 0
  /\ batch_stats ctx = replicate 1000%nat (mkBatchStats 0 0 0)
  /\ batch_stats_size ctx = 1000
  /\ current_batch ctx = 0
  /\ worker_count ctx = 2
  /\ shutdown_requested ctx = false
  /\ stats ctx = mkStats 0 0 0 0 0 0 0%float now now.
Proof.
  intros H.
  destruct (init_hydrant_shape host pq now config_path s ctx H)
    as (cfg & Hload & Hctx & _ & _).
  destruct (load_config_some host config_path _ cfg Hload) as (_ & Hrange & _).
  rewrite Hctx. cbn [initialised config batch_buffer current_batch_pos batch_stats
                     batch_stats_size current_batch worker_count shutdown_requested stats].
  split; [exact Hload |]. split; [exact Hrange |].
  split; [rewrite length_replicate; unfold MIN_BATCH_SIZE in Hrange; lia |].
  repeat split; reflexivity.
Qed.

Lemma init_hydrant_batch_witness :
  exists ctx : HydrantContext,
    fst (init_hydrant (host_batch_size "65536") pq_good 100 None sys0) = Some ctx
    /\ Z.of_nat (length (batch_buffer ctx)) = batch_size (config ctx)
    /\ current_batch_pos ctx = 0.
Proof.
  destruct init_hydrant_example as (ctx & H). exists ctx.
  pose proof (init_hydrant_batch _ _ _ _ _ _ H) as (_ & _ & Hlen & Hpos & _).
  split; [exact H |]. split; [exact Hlen | exact Hpos].
Defined.

(** X26. What a successful [init_hydrant] logs: one record at ERROR for
    each slot that did not come up, then one record at INFO that
    carries the number of healthy connections. *)
Theorem init_hydrant_log (host : Host) (pq : Libpq) (now : Z)
    (config_path : option string) (s : Sys) (ctx : HydrantContext) :
  fst (init_hydrant host pq now config_path s) = Some ctx ->
  exists log : list LogRecord,
    sys_stderr (snd (init_hydrant host pq now config_path s))
    = sys_stderr s ++ log ++ [initialised_log ctx]
    /\ map log_level log
       = replicate (MAX_POOL_SIZE - Z.to_nat (healthy_connections ctx)) "ERROR"%string.
Proof.
  intros H.
  destruct (init_hydrant_shape host pq now config_path s ctx H)
    as (cfg & Hload & Hctx & _ & Hs').
  destruct (load_config_some host config_path _ cfg Hload) as (_ & _ & _ & _ & Hssl & _).
  exists (flat_map (init_slot_log pq cfg) (seq 0 MAX_POOL_SIZE)).
  split; [rewrite Hs'; reflexivity |].
  rewrite (init_slot_log_level pq cfg _ Hssl), length_seq, Hctx. reflexivity.
Qed.

Lemma init_hydrant_log_witness :
  exists ctx : HydrantContext,
    fst (init_hydrant (host_batch_size "65536") pq_good 100 None sys0) = Some ctx
    /\ exists log : list LogRecord,
         sys_stderr (snd (init_hydrant (host_batch_size "65536") pq_good 100 None sys0))
         = sys_stderr sys0 ++ log ++ [initialised_log ctx]
         /\ map log_level log
            = replicate (MAX_POOL_SIZE - Z.to_nat (healthy_connections ctx))
                "ERROR"%string.
Proof.
  destruct init_hydrant_example as (ctx & H). exists ctx.
  split; [exact H | exact (init_hydrant_log _ _ _ _ _ _ H)].
Defined.

Lemma cleanup_hydrant_unfold (host : Host) (now : Z) (s : Sys) :
  cleanup_hydrant host now s =
  (tt,
   mkSys
     (set_pool (map (set_conn NULL) (pool (sys_ctx s)))
        (set_worker_count 0 (set_shutdown_requested true (sys_ctx s))))
     (sys_stderr s
      ++ match get_detailed_status host now (sys_ctx s) with
         | Some d => [final_status_log d]
         | None => []
         end)).
Proof.
  unfold cleanup_hydrant, stop_workers, bind, get_ctx. cbn [fst snd].
  destruct (get_detailed_status host now (sys_ctx s)) as [d |].
  - unfold structured_log, modify_ctx. cbn. reflexivity.
  - unfold ret, modify_ctx. cbn. rewrite app_nil_r. reflexivity.
Qed.

(** [cleanup_hydrant] closes every connection of the pool and
    leaves the states of the slots as they were, sets the shutdown
    flag, counts no worker any more, leaves the batch side of the
    context alone, and logs the final status when the text for it could
    be allocated. *)
Theorem cleanup_hydrant_effect (host : Host) (now : Z) (s : Sys) :
  let s' := snd (cleanup_hydrant host now s) in
  map conn (pool (sys_ctx s')) = replicate (length (pool (sys_ctx s))) NULL
  /\ map state (pool (sys_ctx s')) = map state (pool (sys_ctx s))
  /\ shutdown_requested (sys_ctx s') = true
  /\ worker_count (sys_ctx s') = 0
  /\ batch_view (sys_ctx s') = batch_view (sys_ctx s)
  /\ sys_stderr s'
     = sys_stderr s
       ++ match get_detailed_status host now (sys_ctx s) with
          | Some d => [final_status_log d]
          | None => []
          end.
Proof.
  cbv zeta. rewrite cleanup_hydrant_unfold. cbn [snd sys_ctx sys_stderr pool set_pool].
  rewrite !map_map.
  split; [| split; [| repeat split; destruct (sys_ctx s); reflexivity]].
  - induction (pool (sys_ctx s)) as [| pc l IH]; [reflexivity |].
    cbn [map length replicate]. rewrite IH. reflexivity.
  - apply map_ext. intros [? ? ? ? ? ? ?]. reflexivity.
Qed.

Lemma count_states_partition (l : list PoolConnection) :
  (length (List.filter (fun pc => ConnectionState_eqb (state pc) CONN_AVAILABLE) l)
   + length (List.filter (fun pc => ConnectionState_eqb (state pc) CONN_IN_USE) l)
   + length (List.filter (fun pc => is_dead (state pc)) l)
   = length l)%nat
  /\ (length (List.filter (fun pc => negb (is_dead (state pc))) l)
      + length (List.filter (fun pc => is_dead (state pc)) l)
      = length l)%nat.
Proof.
  induction l as [| pc l [IH1 IH2]]; [split; reflexivity |].
  cbn [List.filter]. destruct (state pc); cbn [ConnectionState_eqb is_dead negb length];
    lia.
Qed.

(** X27. In the status that [get_detailed_status] reports for a full
    pool, the available, in-use and dead connections add up to the
    size of the pool, the dead ones being the slots that are not
    healthy; the uptime is measured from the start time and the
    current batch size is the fill of the buffer. *)
Theorem get_detailed_status_counts
    (host : Host) (now : Z) (ctx : HydrantContext) (d : DetailedStatus) :
  (MAX_POOL_SIZE <= length (pool ctx))%nat ->
  get_detailed_status host now ctx = Some d ->
  status_available d + status_in_use d + status_dead d = Z.of_nat MAX_POOL_SIZE
  /\ status_dead d = Z.of_nat MAX_POOL_SIZE - healthy_slots ctx
  /\ uptime_seconds d = now - start_time (stats ctx)
  /\ current_batch_size d = current_batch_pos ctx.
Proof.
  intros Hlen. unfold get_detailed_status.
  destruct (status_alloc_ok host); cbn [negb]; [| intros H; discriminate H].
  intros H. injection H as <-.
  cbn [status_available status_in_use status_dead uptime_seconds current_batch_size].
  unfold healthy_slots, count_state.
  destruct (count_states_partition (take MAX_POOL_SIZE (pool ctx))) as [H1 H2].
  rewrite length_take in H1, H2.
  repeat split; lia.
Qed.

Lemma get_detailed_status_counts_witness :
  exists d : DetailedStatus,
    get_detailed_status (host_with []) 300 (sys_ctx dead0) = Some d
    /\ status_available d + status_in_use d + status_dead d = Z.of_nat MAX_POOL_SIZE
    /\ status_dead d = Z.of_nat MAX_POOL_SIZE - healthy_slots (sys_ctx dead0).
Proof.
  assert (Hlen : (MAX_POOL_SIZE <= length (pool (sys_ctx dead0)))%nat)
    by (vm_compute; lia).
  destruct (get_detailed_status (host_with []) 300 (sys_ctx dead0)) as [d |] eqn:H;
    [| exfalso; vm_compute in H; discriminate H].
  exists d. split; [reflexivity |].
  pose proof (get_detailed_status_counts _ _ _ _ Hlen H) as (Hsum & Hdead & _).
  split; [exact Hsum | exact Hdead].
Defined.




(** ** The worker loop and the input loop *)

Lemma worker_iteration_unfold (now : Z) (s : Sys) :
  worker_iteration now s =
  (tt,
   mkSys
     (if now - last_batch (stats (sys_ctx s)) >? 60
      then set_stats (set_last_batch now (stats (sys_ctx s))) (sys_ctx s)
      else sys_ctx s)
     (sys_stderr s
      ++ (if now - last_batch (stats (sys_ctx s)) >? 60
          then [worker_status_log (sys_ctx s)] else [])
      ++ (if pool_degraded (sys_ctx s) then [pool_degraded_log (sys_ctx s)] else []))).
Proof.
  destruct s as [ctx log].
  unfold worker_iteration, pool_degraded, bind, get_ctx, when. cbn [fst snd sys_ctx].
  destruct (now - last_batch (stats ctx) >? 60).
  - unfold structured_log, modify_stats, modify_ctx, ret.
    cbn [fst snd sys_ctx sys_stderr].
    change (count_state is_dead (set_stats (set_last_batch now (stats ctx)) ctx))
      with (count_state is_dead ctx).
    change (count_state (fun s => ConnectionState_eqb s CONN_AVAILABLE)
              (set_stats (set_last_batch now (stats ctx)) ctx))
      with (count_state (fun s => ConnectionState_eqb s CONN_AVAILABLE) ctx).
    destruct ((count_state is_dead ctx >? 0)
              && (count_state (fun s => ConnectionState_eqb s CONN_AVAILABLE) ctx
                  <? Z.quot (Z.of_nat MAX_POOL_SIZE) 2));
      cbn [fst snd sys_ctx sys_stderr]; rewrite <- ?app_assoc; reflexivity.
  - unfold structured_log, ret. cbn [fst snd sys_ctx sys_stderr].
    destruct ((count_state is_dead ctx >? 0)
              && (count_state (fun s => ConnectionState_eqb s CONN_AVAILABLE) ctx
                  <? Z.quot (Z.of_nat MAX_POOL_SIZE) 2));
      cbn [fst snd sys_ctx sys_stderr app]; rewrite ?app_nil_r; reflexivity.
Qed.

(** One turn of the worker loop touches nothing in the context but
    the time of the last report, which it sets to the time of the call
    when more than 60 seconds have passed since; it logs the status
    report in that case, and the warning about the pool when some
    connection is dead and fewer than half of the slots are
    available. *)
Theorem worker_iteration_effect (now : Z) (s : Sys) :
  let s' := snd (worker_iteration now s) in
  let due := now - last_batch (stats (sys_ctx s)) >? 60 in
  sys_ctx s'
  = set_stats
      (set_last_batch (if due then now else last_batch (stats (sys_ctx s)))
         (stats (sys_ctx s)))
      (sys_ctx s)
  /\ sys_stderr s'
     = sys_stderr s
       ++ (if due then [worker_status_log (sys_ctx s)] else [])
       ++ (if pool_degraded (sys_ctx s) then [pool_degraded_log (sys_ctx s)] else []).
Proof.
  cbv zeta. rewrite worker_iteration_unfold. cbn [snd sys_ctx sys_stderr].
  split; [| reflexivity].
  destruct (now - last_batch (stats (sys_ctx s)) >? 60); [reflexivity |].
  destruct (sys_ctx s) as [? ? ? ? ? ? ? ? ? ? st]. destruct st. reflexivity.
Qed.

(** X29. Status reports of the worker are more than a minute apart: a
    turn that follows a reporting turn by at most 60 seconds logs no
    status report and leaves the time of the last report alone. *)
Theorem worker_reports_are_spaced (now1 now2 : Z) (s : Sys) :
  now1 - last_batch (stats (sys_ctx s)) > 60 ->
  now2 - now1 <= 60 ->
  let s1 := snd (worker_iteration now1 s) in
  let s2 := snd (worker_iteration now2 s1) in
  last_batch (stats (sys_ctx s1)) = now1
  /\ last_batch (stats (sys_ctx s2)) = now1
  /\ sys_stderr s2
     = sys_stderr s1
       ++ (if pool_degraded (sys_ctx s1) then [pool_degraded_log (sys_ctx s1)] else []).
Proof.
  intros Hdue Hsoon. cbv zeta.
  rewrite (worker_iteration_unfold now2), (worker_iteration_unfold now1).
  destruct (Z.gtb_spec (now1 - last_batch (stats (sys_ctx s))) 60); [| lia].
  cbn [snd sys_ctx sys_stderr stats set_stats last_batch set_last_batch].
  destruct (Z.gtb_spec (now2 - now1) 60); [lia |].
  cbn [app]. repeat split; reflexivity.
Qed.

Lemma worker_reports_are_spaced_witness :
  let s1 := snd (worker_iteration 170 booted) in
  let s2 := snd (worker_iteration 230 s1) in
  last_batch (stats (sys_ctx s1)) = 170 /\ last_batch (stats (sys_ctx s2)) = 170.
Proof.
  assert (Hdue : 170 - last_batch (stats (sys_ctx booted)) > 60)
    by (vm_compute; reflexivity).
  assert (Hsoon : 230 - 170 <= 60) by lia.
  pose proof (worker_reports_are_spaced 170 230 booted Hdue Hsoon) as (H1 & H2 & _).
  split; [exact H1 | exact H2].
Defined.







